(** * PNG Prompt Extractor: the text-chunk reader and the prompt selector

    A shallow embedding of [pngTextChunks.ts], of [extractPositivePrompt.ts]
    and of what [App.tsx] does with one file.  JavaScript strings are
    sequences of UTF-16 code units, byte buffers are lists of bytes,
    exceptions are results of their own, and the services of the host
    (JSON.parse, Number to String conversion, DecompressionStream,
    TextDecoder, toLowerCase) are section variables: every theorem holds
    for any host. *)

From Stdlib Require Import String Ascii.
From Stdlib Require Import List NArith ZArith Lia Bool Permutation Sorted.
From Stdlib.Strings Require Import Byte.
From Equations Require Import Equations.
Import ListNotations.

Set Implicit Arguments.

(** ** JavaScript strings *)

Module JS.

(** A string value: its UTF-16 code units. *)
Definition js_string := list N.

(** The code units of an ASCII literal. *)
Definition lit (s : string) : js_string :=
  map N_of_ascii (list_ascii_of_string s).

(** Same, with every apostrophe read as a double quote (code unit 34), so
    that JSON texts can be written down in one piece. *)
Definition jlit (s : string) : js_string :=
  map (fun c => if N.eqb c 39 then 34%N else c) (lit s).

Fixpoint str_eqb (a b : js_string) : bool :=
  match a, b with
  | [], [] => true
  | x :: a', y :: b' => N.eqb x y && str_eqb a' b'
  | _, _ => false
  end.

(** WhiteSpace and LineTerminator code points of ECMAScript, the set that
    String.prototype.trim strips. *)
Definition is_white_space (c : N) : bool :=
  (N.leb 9 c && N.leb c 13) || N.eqb c 32 || N.eqb c 160 ||
  N.eqb c 5760 || (N.leb 8192 c && N.leb c 8202) ||
  N.eqb c 8232 || N.eqb c 8233 || N.eqb c 8239 || N.eqb c 8287 ||
  N.eqb c 12288 || N.eqb c 65279.

Fixpoint trimStart (s : js_string) : js_string :=
  match s with
  | c :: s' => if is_white_space c then trimStart s' else s
  | [] => []
  end.

Definition trimEnd (s : js_string) : js_string := rev (trimStart (rev s)).

Definition trim (s : js_string) : js_string := trimEnd (trimStart s).

(** [startsWith s p]: [p] is a prefix of [s]. *)
Fixpoint startsWith (s p : js_string) {struct p} : bool :=
  match p, s with
  | [], _ => true
  | y :: p', x :: s' => N.eqb x y && startsWith s' p'
  | _ :: _, [] => false
  end.

Definition endsWith (s p : js_string) : bool := startsWith (rev s) (rev p).

(** [s.replace(/pat/g, rep)] for a pattern that is a non-empty literal:
    matches are taken left to right and do not overlap.  [skip] counts the
    code units of the current match still to be consumed. *)
Fixpoint replace_from (pat rep : js_string) (skip : nat) (s : js_string)
  : js_string :=
  match s with
  | [] => []
  | c :: s' =>
      match skip with
      | S k => replace_from pat rep k s'
      | O =>
          if startsWith s pat
          then rep ++ replace_from pat rep (length pat - 1) s'
          else c :: replace_from pat rep 0 s'
      end
  end.

Definition replace_all (pat rep s : js_string) : js_string :=
  replace_from pat rep 0 s.

(** Canonicalize of a case-insensitive, non-unicode regular expression,
    restricted to what decides a comparison with an ASCII letter: a-z fold
    to A-Z, and no other code unit folds into the ASCII range. *)
Definition canonicalize (c : N) : N :=
  if N.leb 97 c && N.leb c 122 then (c - 32)%N else c.

Fixpoint matches_here_i (s p : js_string) {struct p} : bool :=
  match p, s with
  | [], _ => true
  | y :: p', x :: s' =>
      N.eqb (canonicalize x) (canonicalize y) && matches_here_i s' p'
  | _ :: _, [] => false
  end.

(** [/p/i.test(s)] for a literal ASCII pattern [p]. *)
Fixpoint regex_test_i (p s : js_string) : bool :=
  matches_here_i s p ||
  match s with
  | [] => false
  | _ :: s' => regex_test_i p s'
  end.

Definition is_digit (c : N) : bool := N.leb 48 c && N.leb c 57.

(** [/^\d+$/.test(k)] *)
Definition regex_all_digits (k : js_string) : bool :=
  match k with
  | [] => false
  | _ => forallb is_digit k
  end.

(** ToBoolean of a string. *)
Definition Boolean (s : js_string) : bool :=
  match s with [] => false | _ => true end.

(** Array.prototype.sort with a comparator: the sort is stable, and [a]
    stays in front of [b] unless [cmp a b > 0].  Written as an insertion
    sort from the right, so that equal elements keep their order. *)
Section Sort.
Variable A : Type.
Variable cmp : A -> A -> Z.

Fixpoint sort_insert (x : A) (l : list A) : list A :=
  match l with
  | [] => [x]
  | y :: l' =>
      if (cmp x y <=? 0)%Z then x :: l else y :: sort_insert x l'
  end.

Fixpoint Array_sort (l : list A) : list A :=
  match l with
  | [] => []
  | x :: l' => sort_insert x (Array_sort l')
  end.
End Sort.

(** Decimal rendering of an array index or length. *)
Fixpoint digits_of (fuel : nat) (n : N) (acc : js_string) : js_string :=
  match fuel with
  | O => acc
  | S fuel' =>
      let acc' := (48 + n mod 10)%N :: acc in
      if (n / 10 =? 0)%N then acc' else digits_of fuel' (n / 10)%N acc'
  end.

Definition decimal (n : N) : js_string :=
  digits_of (S (N.to_nat (N.log2 n))) n [].

(** The value of a canonical array index: decimal digits, no leading zero
    unless the key is the single digit zero. *)
Definition array_index (k : js_string) : option N :=
  match k with
  | [] => None
  | c :: rest =>
      if forallb is_digit k && (negb (N.eqb c 48) || negb (Boolean rest))
      then Some (fold_left (fun n d => (10 * n + (d - 48))%N) k 0%N)
      else None
  end.

End JS.

Import JS.

(** ** JSON values *)

(** What JSON.parse builds.  A number keeps the token it was read from (the
    program never computes with numbers).  The members of an object are
    listed in the order Object.keys enumerates them, each key once. *)
#[local] Unset Elimination Schemes.
Inductive json : Type :=
| JNull
| JBool (b : bool)
| JNum (token : js_string)
| JStr (s : js_string)
| JArr (elements : list json)
| JObj (members : list (js_string * json)).
#[local] Set Elimination Schemes.

(** Induction on a value, with the elements of an array and the members
    of an object at hand. *)
Section JsonInduction.

Variable P : json -> Prop.
Hypothesis Hnull : P JNull.
Hypothesis Hbool : forall b, P (JBool b).
Hypothesis Hnum : forall token, P (JNum token).
Hypothesis Hstr : forall s, P (JStr s).
Hypothesis Harr : forall elements, Forall P elements -> P (JArr elements).
Hypothesis Hobj :
  forall members, Forall (fun m => P (snd m)) members -> P (JObj members).

Fixpoint json_nested_ind (v : json) : P v :=
  match v with
  | JNull => Hnull
  | JBool b => Hbool b
  | JNum token => Hnum token
  | JStr s => Hstr s
  | JArr elements =>
      Harr
        ((fix all (l : list json) : Forall P l :=
            match l with
            | [] => Forall_nil P
            | e :: l' => Forall_cons e (json_nested_ind e) (all l')
            end) elements)
  | JObj members =>
      Hobj
        ((fix all (l : list (js_string * json))
            : Forall (fun m => P (snd m)) l :=
            match l with
            | [] => Forall_nil _
            | m :: l' =>
                Forall_cons m (json_nested_ind (snd m)) (all l')
            end) members)
  end.

End JsonInduction.

Fixpoint assoc (k : js_string) (members : list (js_string * json))
  : option json :=
  match members with
  | [] => None
  | (k', v) :: rest => if str_eqb k' k then Some v else assoc k rest
  end.

(** Property read [v[k]] and [v.k]; [None] is undefined.  Own properties
    only: no key the program reads names an inherited member. *)
Definition get (v : json) (k : js_string) : option json :=
  match v with
  | JObj members => assoc k members
  | JArr elements =>
      match array_index k with
      | Some i => nth_error elements (N.to_nat i)
      | None =>
          if str_eqb k (lit "length")
          then Some (JNum (decimal (N.of_nat (length elements))))
          else None
      end
  | JStr s =>
      match array_index k with
      | Some i => option_map (fun c => JStr [c]) (nth_error s (N.to_nat i))
      | None =>
          if str_eqb k (lit "length")
          then Some (JNum (decimal (N.of_nat (length s))))
          else None
      end
  | _ => None
  end.

(** Object.keys of an object or an array. *)
Definition Object_keys (v : json) : list js_string :=
  match v with
  | JObj members => map fst members
  | JArr elements =>
      map (fun i => decimal (N.of_nat i)) (seq 0 (length elements))
  | _ => []
  end.

(** [v && typeof v === 'object']: objects and arrays.  The typeof of null
    is object too, but null is falsy; every other falsy value has another
    typeof. *)
Definition is_object_typed (v : json) : bool :=
  match v with
  | JObj _ | JArr _ => true
  | _ => false
  end.

(** [a ?? b] on the result of a property read. *)
Definition nullish_or (a : option json) (b : json) : json :=
  match a with
  | None | Some JNull => b
  | Some v => v
  end.

(** [typeof o === 'string'] on the result of a property read, giving the
    string. *)
Definition as_string (o : option json) : option js_string :=
  match o with
  | Some (JStr s) => Some s
  | _ => None
  end.

Fixpoint join (sep : js_string) (parts : list js_string) : js_string :=
  match parts with
  | [] => []
  | [p] => p
  | p :: rest => p ++ sep ++ join sep rest
  end.

(** The result of the selector. *)
Record ExtractionResult : Type := mkResult {
  prompt : option js_string;
  debugSource : option js_string
}.

(** A statement with an early return: [Some v] when it executes
    [return v], [None] when control falls through to what follows. *)
Definition then_ {A : Type} (statement : option A) (next : A) : A :=
  match statement with
  | Some returned => returned
  | None => next
  end.

(** ** Exceptions *)

(** What a call can throw: [new Error(message)], the RangeError of a
    DataView read outside the buffer, or the TypeError of a conversion to
    a primitive value that fails. *)
Inductive exn : Type :=
| Error_ (message : string)
| RangeError_
| TypeError_.

Inductive outcome (A : Type) : Type :=
| Return (a : A)
| Throw (e : exn).
Arguments Return {A} a.
Arguments Throw {A} e.

(** Sequencing: an exception ends what follows. *)
Definition bind {A B : Type} (m : outcome A) (k : A -> outcome B)
  : outcome B :=
  match m with
  | Return a => k a
  | Throw e => Throw e
  end.

Notation "x <- m ;; k" := (bind m (fun x => k))
  (at level 61, m at next level, right associativity).

(** [for (const x of xs) body]: the body updates the state or throws. *)
Fixpoint for_of {A S : Type} (body : S -> A -> outcome S) (xs : list A)
         (state : S) : outcome S :=
  match xs with
  | [] => Return state
  | x :: rest => state' <- body state x ;; for_of body rest state'
  end.

(** ** extractPositivePrompt.ts *)

Section Prompt.

(** JSON.parse: [None] when it throws SyntaxError. *)
Variable JSON_parse : js_string -> option json.

(** Number::toString composed with the reading of the token. *)
Variable Number_toString : js_string -> js_string.

(** [String(v)].  An object is converted through its toString and
    valueOf members: a member named toString of a parsed object is a JSON
    value, which cannot be called, and valueOf, own or inherited, gives no
    primitive value, so the conversion throws TypeError; without such a
    member the inherited toString answers.  An array joins the conversions
    of its elements, null read as empty, and throws when one of them
    does. *)
Fixpoint String_ (v : json) : outcome js_string :=
  match v with
  | JNull => Return (lit "null")
  | JBool true => Return (lit "true")
  | JBool false => Return (lit "false")
  | JNum token => Return (Number_toString token)
  | JStr s => Return s
  | JArr elements =>
      parts <-
        (fix each (l : list json) : outcome (list js_string) :=
           match l with
           | [] => Return []
           | e :: l' =>
               s <- match e with JNull => Return [] | _ => String_ e end ;;
               rest <- each l' ;;
               Return (s :: rest)
           end) elements ;;
      Return (join (lit ",") parts)
  | JObj members =>
      match assoc (lit "toString") members with
      | Some _ => Throw TypeError_
      | None => Return (lit "[object Object]")
      end
  end.

Definition safeJsonParse (s : js_string) : json :=
  match JSON_parse s with
  | Some v => v
  | None => JNull
  end.

(** The three patterns, as code units: backslash r backslash n, then
    backslash n, then a carriage return followed by a line feed. *)
Definition normalizePrompt (s : js_string) : js_string :=
  trim
    (replace_all [13; 10]%N [10]%N
       (replace_all [92; 110]%N [10]%N
          (replace_all [92; 114; 92; 110]%N [10]%N s))).

Definition isPromptWrapperJson (s : js_string) : bool :=
  let t := trim s in
  if negb (startsWith t (lit "{") && endsWith t (lit "}")) then false
  else
    match safeJsonParse t with
    | JObj members as obj =>
        let keys := Object_keys obj in
        if negb (Nat.eqb (length keys) 1) then false
        else if negb (str_eqb (nth 0 keys []) (lit "prompt")) then false
        else
          match get obj (lit "prompt") with
          | Some (JStr _) => true
          | _ => false
          end
    | _ => false
    end.

(** The comparator of the sort: [(a, b) => b.length - a.length]. *)
Definition longest_first (a b : js_string) : Z :=
  (Z.of_nat (length b) - Z.of_nat (length a))%Z.

Definition pickBestString (candidates : list js_string)
  : option js_string :=
  let cleaned :=
    filter (fun c => negb (isPromptWrapperJson c))
      (filter Boolean (map trim candidates)) in
  if Nat.eqb (length cleaned) 0 then None
  else
    hd_error (Array_sort longest_first cleaned).

(** One turn of the loop over the node identifiers. *)
Definition visit_node (wf : json) (candidates : list js_string)
           (nodeId : js_string) : outcome (list js_string) :=
  match get wf nodeId with
  | Some node =>
      if negb (is_object_typed node) then Return candidates
      else
        classType <-
          String_ (nullish_or (get node (lit "class_type")) (JStr [])) ;;
        title <-
          String_
            (nullish_or
               (match get node (lit "_meta") with
                | None | Some JNull => None
                | Some meta => get meta (lit "title")
                end)
               (JStr [])) ;;
        let inputs := nullish_or (get node (lit "inputs")) (JObj []) in
        let candidates1 :=
          match as_string (get inputs (lit "positive")) with
          | Some positive =>
              if Nat.ltb 0 (length (trim positive))
              then candidates ++ [positive] else candidates
          | None => candidates
          end in
        let looksPositive :=
          regex_test_i (lit "positive") classType
          || regex_test_i (lit "positive") title
          || str_eqb title (lit "Positive") in
        if looksPositive then
          let candidates2 :=
            match as_string (get inputs (lit "text")) with
            | Some text =>
                if Nat.ltb 0 (length (trim text))
                then candidates1 ++ [text] else candidates1
            | None => candidates1
            end in
          Return
            match as_string (get inputs (lit "prompt")) with
            | Some prompt =>
                if Nat.ltb 0 (length (trim prompt))
                then candidates2 ++ [prompt] else candidates2
            | None => candidates2
            end
        else Return candidates1
  | None => Return candidates
  end.

Definition extractFromRawWorkflow (rawWorkflowString : js_string)
  : outcome (option js_string) :=
  let wf := safeJsonParse rawWorkflowString in
  if negb (is_object_typed wf) then Return None
  else
    candidates <- for_of (visit_node wf) (Object_keys wf) [] ;;
    Return
      match pickBestString candidates with
      | Some best => if Boolean best then Some (normalizePrompt best) else None
      | None => None
      end.

(** The loop over the fallback keys, with its early return. *)
Fixpoint scan_keys (meta : json) (keys : list js_string)
  : option (option js_string) :=
  match keys with
  | [] => None
  | key :: rest =>
      match as_string (get meta key) with
      | Some v =>
          if Nat.ltb 0 (length (trim v)) && negb (isPromptWrapperJson v)
          then Some (Some (normalizePrompt v))
          else scan_keys meta rest
      | None => scan_keys meta rest
      end
  end.

Definition fallback_keys : list js_string :=
  [lit "positive"; lit "positive_prompt"; lit "Prompt"; lit "Positive prompt"].

(** [if (p)] on a [string | null]. *)
Definition truthy (p : option js_string) : bool :=
  match p with
  | Some s => Boolean s
  | None => false
  end.

Definition extractFromMetadataObject (meta : json)
  : outcome (option js_string) :=
  step1 <-
    match as_string (get meta (lit "raw_workflow")) with
    | Some raw_workflow =>
        p <- extractFromRawWorkflow raw_workflow ;;
        Return (if truthy p then Some p else None)
    | None => Return None
    end ;;
  Return
    (then_ step1
       (then_
          (match as_string (get meta (lit "prompt")) with
           | Some prompt =>
               if Nat.ltb 0 (length (trim prompt)) then
                 if Nat.ltb 50 (length (trim prompt))
                    && negb (isPromptWrapperJson prompt)
                 then Some (Some (normalizePrompt prompt)) else None
               else None
           | None => None
           end)
          (then_ (scan_keys meta fallback_keys) None))).

(** Loop A: the first blob whose metadata object gives a prompt. *)
Fixpoint phaseA (textBlobs : list js_string)
  : outcome (option ExtractionResult) :=
  match textBlobs with
  | [] => Return None
  | blob :: rest =>
      let maybe := safeJsonParse blob in
      if is_object_typed maybe then
        p <- extractFromMetadataObject maybe ;;
        if truthy p then Return (Some (mkResult p (Some (lit "metadata-json"))))
        else phaseA rest
      else phaseA rest
  end.

(** Loop B: the first blob that is itself a node graph. *)
Fixpoint phaseB (textBlobs : list js_string)
  : outcome (option ExtractionResult) :=
  match textBlobs with
  | [] => Return None
  | blob :: rest =>
      let maybe := safeJsonParse blob in
      if is_object_typed maybe then
        let hasNumericKeys := existsb regex_all_digits (Object_keys maybe) in
        if hasNumericKeys then
          p <- extractFromRawWorkflow blob ;;
          if truthy p
          then Return (Some (mkResult p (Some (lit "raw_workflow-json"))))
          else phaseB rest
        else phaseB rest
      else phaseB rest
  end.

(** What follows the two loops. *)
Definition phaseC (textBlobs : list js_string) : ExtractionResult :=
  let longOnes :=
    filter (fun s => negb (isPromptWrapperJson s))
      (filter (fun s => Nat.ltb 200 (length s)) (map trim textBlobs)) in
  match pickBestString longOnes with
  | Some best =>
      if Boolean best
      then mkResult (Some (normalizePrompt best))
             (Some (lit "fallback-long-text"))
      else mkResult None None
  | None => mkResult None None
  end.

Definition extractPositivePromptFromTextBlobs (textBlobs : list js_string)
  : outcome ExtractionResult :=
  a <- phaseA textBlobs ;;
  match a with
  | Some found => Return found
  | None =>
      b <- phaseB textBlobs ;;
      match b with
      | Some found => Return found
      | None => Return (phaseC textBlobs)
      end
  end.

End Prompt.

(** ** A reader for JSON texts

    JSON.parse is a service of the host; the theorems below hold for any
    [JSON_parse].  This reader follows the JSON grammar of ECMA-404 and the
    way JSON.parse builds objects (a repeated key keeps its place and takes
    the last value; Object.keys lists integer indices first, in ascending
    order).  It serves to run the program on concrete blobs. *)

Module JsonText.

Definition is_ws (c : N) : bool :=
  N.eqb c 9 || N.eqb c 10 || N.eqb c 13 || N.eqb c 32.

Fixpoint skip_ws (s : js_string) : js_string :=
  match s with
  | c :: s' => if is_ws c then skip_ws s' else s
  | [] => []
  end.

Definition hex_val (c : N) : option N :=
  if is_digit c then Some (c - 48)%N
  else if N.leb 97 c && N.leb c 102 then Some (c - 87)%N
  else if N.leb 65 c && N.leb c 70 then Some (c - 55)%N
  else None.

Definition hex4 (a b c d : N) : option N :=
  match hex_val a, hex_val b, hex_val c, hex_val d with
  | Some x, Some y, Some z, Some w => Some (4096 * x + 256 * y + 16 * z + w)%N
  | _, _, _, _ => None
  end.

Definition simple_escape (e : N) : option N :=
  if N.eqb e 34 then Some 34%N
  else if N.eqb e 92 then Some 92%N
  else if N.eqb e 47 then Some 47%N
  else if N.eqb e 98 then Some 8%N
  else if N.eqb e 102 then Some 12%N
  else if N.eqb e 110 then Some 10%N
  else if N.eqb e 114 then Some 13%N
  else if N.eqb e 116 then Some 9%N
  else None.

(** The characters of a string, after its opening quote. *)
Fixpoint read_chars (s acc : js_string) : option (js_string * js_string) :=
  match s with
  | [] => None
  | c :: rest =>
      if N.eqb c 34 then Some (rev acc, rest)
      else if N.ltb c 32 then None
      else if N.eqb c 92 then
        match rest with
        | e :: rest1 =>
            if N.eqb e 117 then
              match rest1 with
              | h1 :: h2 :: h3 :: h4 :: rest2 =>
                  match hex4 h1 h2 h3 h4 with
                  | Some u => read_chars rest2 (u :: acc)
                  | None => None
                  end
              | _ => None
              end
            else
              match simple_escape e with
              | Some u => read_chars rest1 (u :: acc)
              | None => None
              end
        | [] => None
        end
      else read_chars rest (c :: acc)
  end.

Fixpoint span_digits (s : js_string) : js_string * js_string :=
  match s with
  | c :: s' =>
      if is_digit c then let (ds, r) := span_digits s' in (c :: ds, r)
      else ([], s)
  | [] => ([], [])
  end.

(** A number token: sign, integer part, fraction, exponent. *)
Definition read_number (s : js_string) : option (js_string * js_string) :=
  let (sign, s1) :=
    match s with
    | c :: r => if N.eqb c 45 then ([c], r) else ([], s)
    | [] => ([], s)
    end in
  let int_part :=
    match s1 with
    | c :: r =>
        if N.eqb c 48 then Some ([c], r)
        else if is_digit c then Some (span_digits s1)
        else None
    | [] => None
    end in
  match int_part with
  | None => None
  | Some (int, s2) =>
      let frac_part :=
        match s2 with
        | c :: r =>
            if N.eqb c 46 then
              match span_digits r with
              | ([], _) => None
              | (ds, r') => Some (c :: ds, r')
              end
            else Some ([], s2)
        | [] => Some ([], s2)
        end in
      match frac_part with
      | None => None
      | Some (frac, s3) =>
          let exp_part :=
            match s3 with
            | c :: r =>
                if N.eqb c 101 || N.eqb c 69 then
                  let (sg, r1) :=
                    match r with
                    | g :: r0 =>
                        if N.eqb g 43 || N.eqb g 45 then ([g], r0) else ([], r)
                    | [] => ([], r)
                    end in
                  match span_digits r1 with
                  | ([], _) => None
                  | (ds, r') => Some (c :: sg ++ ds, r')
                  end
                else Some ([], s3)
            | [] => Some ([], s3)
            end in
          match exp_part with
          | None => None
          | Some (ex, s4) => Some (sign ++ int ++ frac ++ ex, s4)
          end
      end
  end.

(** CreateDataProperty: a key already present keeps its place. *)
Fixpoint set_member (k : js_string) (v : json)
         (members : list (js_string * json)) : list (js_string * json) :=
  match members with
  | [] => [(k, v)]
  | (k', v') :: rest =>
      if str_eqb k' k then (k, v) :: rest
      else (k', v') :: set_member k v rest
  end.

(** An integer index: a canonical array index below 2^32 - 1. *)
Definition integer_index (k : js_string) : option N :=
  match array_index k with
  | Some i => if N.ltb i 4294967295 then Some i else None
  | None => None
  end.

(** The own-property order: integer indices ascending, then the other
    keys in creation order. *)
Definition order_members (members : list (js_string * json))
  : list (js_string * json) :=
  let is_index (m : js_string * json) :=
    match integer_index (fst m) with Some _ => true | None => false end in
  let idx (m : js_string * json) :=
    match integer_index (fst m) with Some i => Z.of_N i | None => 0%Z end in
  Array_sort (fun a b => (idx a - idx b)%Z) (filter is_index members)
    ++ filter (fun m => negb (is_index m)) members.

Fixpoint read_value (fuel : nat) (s : js_string) {struct fuel}
  : option (json * js_string) :=
  match fuel with
  | O => None
  | S f =>
      match skip_ws s with
      | [] => None
      | c :: rest =>
          if N.eqb c 91 then
            match skip_ws rest with
            | d :: rest' =>
                if N.eqb d 93 then Some (JArr [], rest')
                else read_elements f rest []
            | [] => None
            end
          else if N.eqb c 123 then
            match skip_ws rest with
            | d :: rest' =>
                if N.eqb d 125 then Some (JObj [], rest')
                else read_members f rest []
            | [] => None
            end
          else if N.eqb c 34 then
            match read_chars rest [] with
            | Some (str, r) => Some (JStr str, r)
            | None => None
            end
          else if startsWith (c :: rest) (lit "true") then
            Some (JBool true, skipn 4 (c :: rest))
          else if startsWith (c :: rest) (lit "false") then
            Some (JBool false, skipn 5 (c :: rest))
          else if startsWith (c :: rest) (lit "null") then
            Some (JNull, skipn 4 (c :: rest))
          else
            match read_number (c :: rest) with
            | Some (token, r) => Some (JNum token, r)
            | None => None
            end
      end
  end
with read_elements (fuel : nat) (s : js_string) (acc : list json)
       {struct fuel} : option (json * js_string) :=
  match fuel with
  | O => None
  | S f =>
      match read_value f s with
      | None => None
      | Some (v, r) =>
          match skip_ws r with
          | c :: r' =>
              if N.eqb c 44 then read_elements f r' (v :: acc)
              else if N.eqb c 93 then Some (JArr (rev (v :: acc)), r')
              else None
          | [] => None
          end
      end
  end
with read_members (fuel : nat) (s : js_string)
       (acc : list (js_string * json)) {struct fuel}
  : option (json * js_string) :=
  match fuel with
  | O => None
  | S f =>
      match skip_ws s with
      | q :: r =>
          if N.eqb q 34 then
            match read_chars r [] with
            | None => None
            | Some (k, r1) =>
                match skip_ws r1 with
                | colon :: r2 =>
                    if N.eqb colon 58 then
                      match read_value f r2 with
                      | None => None
                      | Some (v, r3) =>
                          match skip_ws r3 with
                          | c :: r4 =>
                              if N.eqb c 44
                              then read_members f r4 (set_member k v acc)
                              else if N.eqb c 125
                              then Some (JObj (order_members (set_member k v acc)), r4)
                              else None
                          | [] => None
                          end
                      end
                    else None
                | [] => None
                end
            end
          else None
      | [] => None
      end
  end.

Definition JSON_parse (s : js_string) : option json :=
  match read_value (2 * length s + 2) s with
  | Some (v, r) =>
      match skip_ws r with
      | [] => Some v
      | _ :: _ => None
      end
  | None => None
  end.

(** String of a number, for tokens that are already in canonical form
    (the decimal integers of the examples). *)
Definition Number_toString (token : js_string) : js_string := token.

End JsonText.

(** ** pngTextChunks.ts *)

Inductive chunk_type : Type := tEXt | zTXt | iTXt.

Record PngTextChunk : Type := mkChunk {
  type : chunk_type;
  keyword : js_string;
  text : js_string
}.

(** How one turn of the scanning loop ends. *)
Inductive control : Type :=
| Continue (offset : Z) (chunks : list PngTextChunk)
| Break (chunks : list PngTextChunk)
| Raise (e : exn).

(** The two formats a DecompressionStream is opened with. *)
Inductive stream_format : Type := deflate | deflate_raw.

Definition inspect {A : Type} (a : A) : {b : A | a = b} :=
  exist _ a eq_refl.

Module Bytes.

(** Typed-array arithmetic is done in Z: lengths and offsets stay far below
    2^53, where JavaScript numbers are exact. *)
Definition len {A : Type} (a : list A) : Z := Z.of_nat (length a).

(** Relative index of Array.prototype.slice. *)
Definition rel_index (n i : Z) : Z :=
  if (i <? 0)%Z then Z.max (n + i) 0 else Z.min i n.

Definition slice {A : Type} (a : list A) (start end_ : Z) : list A :=
  let k := rel_index (len a) start in
  let final := rel_index (len a) end_ in
  firstn (Z.to_nat (final - k)) (skipn (Z.to_nat k) a).

(** [a.slice(start)] *)
Definition slice_from {A : Type} (a : list A) (start : Z) : list A :=
  slice a start (len a).

(** [a[i]]; [None] is undefined. *)
Definition at_ {A : Type} (a : list A) (i : Z) : option A :=
  if (i <? 0)%Z then None else nth_error a (Z.to_nat i).

End Bytes.

Import Bytes.

Definition PNG_SIGNATURE : list byte :=
  [x89; x50; x4e; x47; x0d; x0a; x1a; x0a].

(** DataView.getUint32(offset, false) *)
Definition readU32BE (view : list byte) (offset : Z) : outcome Z :=
  if ((offset <? 0) || (len view <? offset + 4))%Z then Throw RangeError_
  else
    match slice view offset (offset + 4) with
    | [b0; b1; b2; b3] =>
        Return
          (Z.of_N (Byte.to_N b0) * 16777216 + Z.of_N (Byte.to_N b1) * 65536
           + Z.of_N (Byte.to_N b2) * 256 + Z.of_N (Byte.to_N b3))%Z
    | _ => Throw RangeError_
    end.

Fixpoint bytes_agree (a b : list byte) : bool :=
  match a, b with
  | x :: a', y :: b' => Byte.eqb x y && bytes_agree a' b'
  | _, _ => true
  end.

Definition bytesEqual (a b : list byte) : bool :=
  if negb (Nat.eqb (length a) (length b)) then false else bytes_agree a b.

Fixpoint find_null (buf : list byte) (i : Z) : Z :=
  match buf with
  | [] => (-1)%Z
  | b :: buf' => if Byte.eqb b x00 then i else find_null buf' (i + 1)%Z
  end.

(** The loop runs [i] from [start] up; every call has [0 <= start]. *)
Definition findNullByte (buf : list byte) (start : Z) : Z :=
  find_null (skipn (Z.to_nat start) buf) start.

Definition decodeLatin1 (bytes : list byte) : js_string :=
  map Byte.to_N bytes.

Section Png.

(** A DecompressionStream of the given format, run to its end over the
    bytes: [None] when the stream errors (the promise rejects). *)
Variable decompress : stream_format -> list byte -> option (list byte).

(** TextDecoder of utf-8, not fatal: total. *)
Variable TextDecoder_decode : list byte -> js_string.

Definition decodeUTF8 (bytes : list byte) : js_string :=
  TextDecoder_decode bytes.

(** [tryStream] reports the format it was opened with, so that the
    result of [inflateZlib] carries the list of attempts made. *)
Definition tryStream (safeBytes : list byte) (format : stream_format)
  : list stream_format * option (list byte) :=
  ([format], decompress format safeBytes).

Definition inflateZlib (data : list byte)
  : list stream_format * option (list byte) :=
  let safeBytes := data in
  match tryStream safeBytes deflate with
  | (tried, Some bytes) => (tried, Some bytes)
  | (tried, None) =>
      let (tried', r) := tryStream safeBytes deflate_raw in
      (tried ++ tried', r)
  end.

Definition parse_tEXt (data : list byte) : option PngTextChunk :=
  let n := findNullByte data 0 in
  if (n <? 0)%Z then None
  else
    let keyword := decodeLatin1 (slice data 0 n) in
    let text := decodeLatin1 (slice_from data (n + 1)) in
    Some (mkChunk tEXt keyword text).

(** [b !== 0] on an indexed read. *)
Definition not_zero (b : option byte) : bool :=
  match b with
  | Some b => negb (Byte.eqb b x00)
  | None => true
  end.

Definition parse_zTXt (data : list byte) : option PngTextChunk :=
  let n := findNullByte data 0 in
  if (n <? 0)%Z then None
  else
    let keyword := decodeLatin1 (slice data 0 n) in
    let compressionMethod := at_ data (n + 1) in
    if not_zero compressionMethod then None
    else
      let compressed := slice_from data (n + 2) in
      match snd (inflateZlib compressed) with
      | Some inflated =>
          let text := decodeUTF8 inflated in
          Some (mkChunk zTXt keyword text)
      | None => None
      end.

Definition parse_iTXt (data : list byte) : option PngTextChunk :=
  let keywordEnd := findNullByte data 0 in
  if (keywordEnd <? 0)%Z then None
  else
    let keyword := decodeLatin1 (slice data 0 keywordEnd) in
    let compressionFlag := at_ data (keywordEnd + 1) in
    let compressionMethod := at_ data (keywordEnd + 2) in
    let offset := (keywordEnd + 3)%Z in
    let langEnd := findNullByte data offset in
    if (langEnd <? 0)%Z then None
    else
      let offset := (langEnd + 1)%Z in
      let translatedEnd := findNullByte data offset in
      if (translatedEnd <? 0)%Z then None
      else
        let offset := (translatedEnd + 1)%Z in
        let payload := slice_from data offset in
        match compressionFlag with
        | Some x01 =>
            if not_zero compressionMethod then None
            else
              match snd (inflateZlib payload) with
              | Some inflated =>
                  let text := decodeUTF8 inflated in
                  Some (mkChunk iTXt keyword text)
              | None => None
              end
        | _ =>
            let text := decodeUTF8 payload in
            Some (mkChunk iTXt keyword text)
        end.

(** [if (parsed) chunks.push(parsed)] *)
Definition push_parsed (chunks : list PngTextChunk)
           (parsed : option PngTextChunk) : list PngTextChunk :=
  match parsed with
  | Some c => chunks ++ [c]
  | None => chunks
  end.

(** The body of the while loop, entered with [offset + 8 <= bytes.length]. *)
Definition loop_body (bytes : list byte) (offset : Z)
           (chunks : list PngTextChunk) : control :=
  match readU32BE bytes offset with
  | Throw e => Raise e
  | Return length =>
      let typeBytes := slice bytes (offset + 4) (offset + 8) in
      let type := decodeLatin1 typeBytes in
      let dataStart := (offset + 8)%Z in
      let dataEnd := (dataStart + length)%Z in
      let crcEnd := (dataEnd + 4)%Z in
      if ((len bytes <? dataEnd) || (len bytes <? crcEnd))%Z
      then Break chunks
      else
        let data := slice bytes dataStart dataEnd in
        if str_eqb type (lit "tEXt") then
          Continue crcEnd (push_parsed chunks (parse_tEXt data))
        else if str_eqb type (lit "zTXt") then
          Continue crcEnd (push_parsed chunks (parse_zTXt data))
        else if str_eqb type (lit "iTXt") then
          Continue crcEnd (push_parsed chunks (parse_iTXt data))
        else if str_eqb type (lit "IEND") then Break chunks
        else Continue crcEnd chunks
  end.

Equations? scan (bytes : list byte) (offset : Z)
  (chunks : list PngTextChunk) : outcome (list PngTextChunk)
  by wf (Z.to_nat (len bytes - offset)) lt :=
  scan bytes offset chunks with inspect (offset + 8 <=? len bytes)%Z := {
    | exist _ false _ => Return chunks
    | exist _ true Hin with inspect (loop_body bytes offset chunks) := {
        | exist _ (Continue offset' chunks') Hbody =>
            scan bytes offset' chunks'
        | exist _ (Break chunks') _ => Return chunks'
        | exist _ (Raise e) _ => Throw e } }.
Proof.
  apply Z.leb_le in Hin. clear scan.
  unfold loop_body, readU32BE in Hbody.
  destruct (_ || _) in Hbody; [discriminate|].
  destruct (slice bytes offset (offset + 4))
    as [|b0 [|b1 [|b2 [|b3 [|? ?]]]]]; try discriminate.
  destruct (_ || _) eqn:Hcut in Hbody; [discriminate|].
  apply orb_false_iff in Hcut as [_ Hcrc]. apply Z.ltb_ge in Hcrc.
  assert (offset + 12 <= offset')%Z.
  { repeat (destruct (str_eqb _ _) in Hbody);
      first [discriminate | injection Hbody as <- _; lia]. }
  lia.
Qed.

Definition extractPngTextChunks (bytes : list byte)
  : outcome (list PngTextChunk) :=
  if (len bytes <? 8)%Z || negb (bytesEqual (slice bytes 0 8) PNG_SIGNATURE)
  then Throw (Error_ "File non sembra un PNG valido.")
  else scan bytes 8 [].

End Png.

(** ** Host streams for concrete runs

    A decoder for compressed streams made of stored blocks (RFC 1951, block
    type 00), with and without the zlib frame of RFC 1950; any other block
    type is refused.  A text decoder for ASCII payloads.  Like [JsonText]
    they serve to run the program on concrete buffers. *)

Module HostStreams.

Definition byteZ (b : byte) : Z := Z.of_N (Byte.to_N b).

(** Stored blocks, up to the block marked final; nothing may follow it. *)
Fixpoint inflate_stored (fuel : nat) (d : list byte) : option (list byte) :=
  match fuel with
  | O => None
  | S fuel' =>
      match d with
      | hdr :: l0 :: l1 :: n0 :: n1 :: body =>
          let final := Z.odd (byteZ hdr) in
          let btype := ((byteZ hdr / 2) mod 4)%Z in
          let size := (byteZ l0 + 256 * byteZ l1)%Z in
          let nsize := (byteZ n0 + 256 * byteZ n1)%Z in
          if negb (btype =? 0)%Z then None
          else if negb (size + nsize =? 65535)%Z then None
          else if (len body <? size)%Z then None
          else
            let block := firstn (Z.to_nat size) body in
            let rest := skipn (Z.to_nat size) body in
            if final then
              match rest with [] => Some block | _ :: _ => None end
            else
              match inflate_stored fuel' rest with
              | Some more => Some (block ++ more)
              | None => None
              end
      | _ => None
      end
  end.

Definition adler32 (d : list byte) : Z :=
  let '(a, b) :=
    fold_left
      (fun '(a, b) x =>
         let a' := ((a + byteZ x) mod 65521)%Z in (a', ((b + a') mod 65521)%Z))
      d (1%Z, 0%Z) in
  (b * 65536 + a)%Z.

Definition decompress (format : stream_format) (d : list byte)
  : option (list byte) :=
  match format with
  | deflate_raw => inflate_stored (S (length d)) d
  | deflate =>
      match d with
      | cmf :: flg :: rest =>
          let header_ok :=
            ((byteZ cmf mod 16 =? 8) && (byteZ cmf / 16 <=? 7)
             && ((byteZ cmf * 256 + byteZ flg) mod 31 =? 0)
             && negb (Z.odd (byteZ flg / 32)))%Z in
          let body := firstn (length rest - 4) rest in
          let trailer := skipn (length rest - 4) rest in
          if negb header_ok then None
          else
            match inflate_stored (S (length body)) body, trailer with
            | Some plain, [t0; t1; t2; t3] =>
                if (adler32 plain
                    =? byteZ t0 * 16777216 + byteZ t1 * 65536
                       + byteZ t2 * 256 + byteZ t3)%Z
                then Some plain else None
            | _, _ => None
            end
      | _ => None
      end
  end.

(** Bytes below 128 decode to their own code unit; the replacement
    character stands for every other byte. *)
Definition TextDecoder_decode (d : list byte) : js_string :=
  map (fun b => if N.ltb (Byte.to_N b) 128 then Byte.to_N b else 65533%N) d.

End HostStreams.

(** ** The selector, in the words of its description *)

Section PromptSpec.

Variable JSON_parse : js_string -> option json.
Variable Number_toString : js_string -> js_string.

(** First success wins. *)
Fixpoint first_success (A B : Type) (rules : list (A -> option B)) (a : A)
  : option B :=
  match rules with
  | [] => None
  | rule :: rest =>
      match rule a with
      | Some b => Some b
      | None => first_success rest a
      end
  end.

(** Rule 1: the field raw_workflow is a string, and the graph extractor
    returns a prompt that is not empty from it. *)
Definition rule_raw_workflow (meta : json) : option js_string :=
  match get meta (lit "raw_workflow") with
  | Some (JStr s) =>
      match extractFromRawWorkflow JSON_parse Number_toString s with
      | Return (Some p) => if Boolean p then Some p else None
      | _ => None
      end
  | _ => None
  end.

(** Rule 2: the field prompt is a string, longer than 50 after trimming,
    and not a wrapper. *)
Definition rule_prompt (meta : json) : option js_string :=
  match get meta (lit "prompt") with
  | Some (JStr s) =>
      if Nat.ltb 50 (length (trim s))
         && negb (isPromptWrapperJson JSON_parse s)
      then Some (normalizePrompt s) else None
  | _ => None
  end.

(** Rule 3, for one key; [nonempty] is the test a value has to pass to
    count as non-empty. *)
Definition rule_key (nonempty : js_string -> bool) (key : js_string)
           (meta : json) : option js_string :=
  match get meta key with
  | Some (JStr v) =>
      if nonempty v && negb (isPromptWrapperJson JSON_parse v)
      then Some (normalizePrompt v) else None
  | _ => None
  end.

(** What survives the cleaning of pickBestString. *)
Definition survivors (candidates : list js_string) : list js_string :=
  filter
    (fun c => Boolean c && negb (isPromptWrapperJson JSON_parse c))
    (map trim candidates).

(** The trimmed candidates that are not empty. *)
Definition clean (l : list js_string) : list js_string :=
  filter Boolean (map trim l).

(** A value read as text, when it can be: an object without a member
    of its own named toString reads as [object Object], an array as the
    texts of its elements, null read as empty, joined by commas. *)
Fixpoint text_of (v : json) : js_string :=
  match v with
  | JNull => lit "null"
  | JBool true => lit "true"
  | JBool false => lit "false"
  | JNum token => Number_toString token
  | JStr s => s
  | JArr elements =>
      join (lit ",")
        (map (fun e => match e with JNull => [] | _ => text_of e end)
           elements)
  | JObj _ => lit "[object Object]"
  end.

(** The values that can be read as text: all but an object with a member
    of its own named toString, and an array that holds, at any depth of
    arrays, such an object. *)
Fixpoint convertible (v : json) : bool :=
  match v with
  | JArr elements => forallb convertible elements
  | JObj members =>
      match assoc (lit "toString") members with
      | Some _ => false
      | None => true
      end
  | _ => true
  end.

(** A field of a node read as text: absent and null give the empty
    string. *)
Definition field_text (v : option json) : js_string :=
  text_of (nullish_or v (JStr [])).

Definition title_of (node : json) : option json :=
  match get node (lit "_meta") with
  | Some m => get m (lit "title")
  | None => None
  end.

Definition looks_positive (node : json) : bool :=
  regex_test_i (lit "positive") (field_text (get node (lit "class_type")))
  || regex_test_i (lit "positive") (field_text (title_of node))
  || str_eqb (field_text (title_of node)) (lit "Positive").

(** The class_type and the title of a node can be read as text; what is
    no object has neither. *)
Definition node_converts (node : json) : bool :=
  negb (is_object_typed node)
  || (convertible (nullish_or (get node (lit "class_type")) (JStr []))
      && convertible (nullish_or (title_of node) (JStr []))).

(** The string held by a field, when it passes [ok]. *)
Definition string_field (inputs : json) (name : js_string)
           (ok : js_string -> bool) : list js_string :=
  match get inputs name with
  | Some (JStr s) => if ok s then [s] else []
  | _ => []
  end.

(** The candidates of one node; only an object is a node. *)
Definition node_candidates (node : json) : list js_string :=
  match node with
  | JObj _ =>
      let inputs := nullish_or (get node (lit "inputs")) (JObj []) in
      string_field inputs (lit "positive") (fun s => Boolean (trim s))
      ++ (if looks_positive node
          then string_field inputs (lit "text") Boolean
               ++ string_field inputs (lit "prompt") Boolean
          else [])
  | _ => []
  end.

Definition graph_candidates (members : list (js_string * json))
  : list js_string :=
  flat_map (fun m => node_candidates (snd m)) members.

(** The graph extractor as described: the winner, normalized, among the
    candidates of the nodes of a JSON object. *)
Definition stated_extractFromRawWorkflow (s : js_string)
  : option js_string :=
  match JSON_parse s with
  | Some (JObj members) =>
      option_map normalizePrompt
        (pickBestString JSON_parse (graph_candidates members))
  | _ => None
  end.

(** Rule 1 as described: whatever prompt the graph extractor yields. *)
Definition stated_rule_raw_workflow (meta : json) : option js_string :=
  match get meta (lit "raw_workflow") with
  | Some (JStr s) => stated_extractFromRawWorkflow s
  | _ => None
  end.

(** The metadata extractor as described, a value counting as non-empty
    when it has at least one code unit. *)
Definition stated_extractFromMetadataObject (meta : json)
  : option js_string :=
  first_success
    [ stated_rule_raw_workflow;
      rule_prompt;
      rule_key Boolean (lit "positive");
      rule_key Boolean (lit "positive_prompt");
      rule_key Boolean (lit "Prompt");
      rule_key Boolean (lit "Positive prompt") ]
    meta.

(** The first blob, in order, from which a phase obtains a prompt; a blob
    on which the phase throws ends the search. *)
Fixpoint first_yield (yield : js_string -> outcome (option js_string))
         (textBlobs : list js_string) : outcome (option js_string) :=
  match textBlobs with
  | [] => Return None
  | blob :: rest =>
      y <- yield blob ;;
      match y with
      | Some p => Return (Some p)
      | None => first_yield yield rest
      end
  end.

(** A prompt counts when it is not empty. *)
Definition nonempty_prompt (p : option js_string) : option js_string :=
  match p with
  | Some q => if Boolean q then Some q else None
  | None => None
  end.

(** What phase A obtains from one blob. *)
Definition phaseA_yield (blob : js_string) : outcome (option js_string) :=
  match JSON_parse blob with
  | Some (JObj _ as meta) | Some (JArr _ as meta) =>
      p <- extractFromMetadataObject JSON_parse Number_toString meta ;;
      Return (nonempty_prompt p)
  | _ => Return None
  end.

(** What phase B obtains from one blob. *)
Definition phaseB_yield (blob : js_string) : outcome (option js_string) :=
  match JSON_parse blob with
  | Some (JObj _ as graph) | Some (JArr _ as graph) =>
      if existsb regex_all_digits (Object_keys graph) then
        p <- extractFromRawWorkflow JSON_parse Number_toString blob ;;
        Return (nonempty_prompt p)
      else Return None
  | _ => Return None
  end.

End PromptSpec.

(** The source tags of the data model. *)
Definition allowed_sources : list js_string :=
  [lit "metadata-json"; lit "raw-workflow-json"; lit "fallback-long-text";
   lit "none"].

(** ** The chunk stream, in the words of its description *)

(** One chunk of the stream: type code, data, trailer. *)
Record RawChunk : Type := mkRaw {
  rc_type : list byte;
  rc_data : list byte;
  rc_crc : list byte
}.

Definition byte_of_Z (z : Z) : byte :=
  match Byte.of_N (Z.to_N (z mod 256)) with
  | Some b => b
  | None => x00
  end.

(** Four bytes, big endian. *)
Definition u32be (n : Z) : list byte :=
  [byte_of_Z (n / 16777216); byte_of_Z (n / 65536); byte_of_Z (n / 256);
   byte_of_Z n].

Definition encode_chunk (c : RawChunk) : list byte :=
  u32be (len (rc_data c)) ++ rc_type c ++ rc_data c ++ rc_crc c.

Definition encode_chunks (cs : list RawChunk) : list byte :=
  flat_map encode_chunk cs.

Definition well_formed_chunk (c : RawChunk) : Prop :=
  length (rc_type c) = 4 /\ length (rc_crc c) = 4
  /\ (len (rc_data c) < 4294967296)%Z.

(** The type codes the reader knows, as bytes. *)
Definition code_tEXt : list byte := [x74; x45; x58; x74].
Definition code_zTXt : list byte := [x7a; x54; x58; x74].
Definition code_iTXt : list byte := [x69; x54; x58; x74].
Definition code_IEND : list byte := [x49; x45; x4e; x44].

Definition has_type (name : string) (c : RawChunk) : bool :=
  str_eqb (decodeLatin1 (rc_type c)) (lit name).

(** The chunks in front of the first IEND. *)
Fixpoint before_IEND (cs : list RawChunk) : list RawChunk :=
  match cs with
  | [] => []
  | c :: rest => if has_type "IEND" c then [] else c :: before_IEND rest
  end.

(** A declared span that runs past the end of the buffer: what is left
    of the buffer is [t], the start of a chunk whose length field, if it is
    there at all, announces more data and trailer than remain. *)
Definition truncated (t : list byte) : Prop :=
  (len t < 8)%Z
  \/ exists n, readU32BE t 0 = Return n /\ (len t < 12 + n)%Z.

(** The data of a zTXt chunk: keyword, NUL, method 0, payload. *)
Definition zTXt_data (kw payload : list byte) : list byte :=
  kw ++ [x00; x00] ++ payload.

(** The data of an iTXt chunk with compression flag 1 and method 0. *)
Definition iTXt_compressed_data (kw lang translated payload : list byte)
  : list byte :=
  kw ++ [x00; x01; x00] ++ lang ++ [x00] ++ translated ++ [x00] ++ payload.

Definition no_NUL (l : list byte) : Prop := ~ In x00 l.

Section PngSpec.

Variable decompress : stream_format -> list byte -> option (list byte).
Variable TextDecoder_decode : list byte -> js_string.

(** The two attempts, in order: the first success. *)
Definition first_inflated (payload : list byte) : option (list byte) :=
  match decompress deflate payload with
  | Some plain => Some plain
  | None => decompress deflate_raw payload
  end.

(** The text chunk a raw chunk decodes to, if any. *)
Definition decode_chunk (c : RawChunk) : option PngTextChunk :=
  if has_type "tEXt" c then parse_tEXt (rc_data c)
  else if has_type "zTXt" c
  then parse_zTXt decompress TextDecoder_decode (rc_data c)
  else if has_type "iTXt" c
  then parse_iTXt decompress TextDecoder_decode (rc_data c)
  else None.

Definition decoded (cs : list RawChunk) : list PngTextChunk :=
  flat_map
    (fun c => match decode_chunk c with Some t => [t] | None => [] end) cs.

End PngSpec.

(** ** App.tsx: what is done with one file *)

(** [s.includes(p)] *)
Fixpoint includes (s p : js_string) : bool :=
  startsWith s p ||
  match s with
  | [] => false
  | _ :: s' => includes s' p
  end.

(** What handleFiles stores in the row of a file: its prompt, or the
    message of the exception caught. *)
Inductive RowUpdate : Type :=
| SetPrompt (found : option js_string)
| SetError (error : string).

Section App.

Variable JSON_parse : js_string -> option json.
Variable Number_toString : js_string -> js_string.
Variable decompress : stream_format -> list byte -> option (list byte).
Variable TextDecoder_decode : list byte -> js_string.

(** String.prototype.toLowerCase *)
Variable toLowerCase : js_string -> js_string.

(** The messages of the RangeError and of the TypeError of the host. *)
Variable RangeError_message : string.
Variable TypeError_message : string.

Definition score (k : js_string) : Z :=
  let kk := toLowerCase k in
  if includes kk (lit "workflow") then 3%Z
  else if includes kk (lit "prompt") then 2%Z
  else if includes kk (lit "parameters") then 1%Z
  else 0%Z.

(** The comparator of the sort: [score(b.keyword) - score(a.keyword)]. *)
Definition by_score (a b : PngTextChunk) : Z :=
  (score (keyword b) - score (keyword a))%Z.

(** [e.message] *)
Definition message (e : exn) : string :=
  match e with
  | Error_ m => m
  | RangeError_ => RangeError_message
  | TypeError_ => TypeError_message
  end.

(** The try block of the loop over the files, for one file: the prompt
    to store in the row. *)
Definition try_file (bytes : list byte) : outcome (option js_string) :=
  chunks <- extractPngTextChunks decompress TextDecoder_decode bytes ;;
  let sorted := Array_sort by_score chunks in
  let blobs := map text sorted in
  r <- extractPositivePromptFromTextBlobs JSON_parse Number_toString blobs ;;
  Return (prompt r).

(** The body of the loop, with its catch. *)
Definition handleFile (bytes : list byte) : RowUpdate :=
  match try_file bytes with
  | Return found => SetPrompt found
  | Throw e => SetError (message e)
  end.

End App.

(** [allPrompts]: the prompts of the rows that are strings and not blank. *)
Fixpoint allPrompts (prompts : list (option js_string)) : list js_string :=
  match prompts with
  | [] => []
  | Some p :: rest =>
      if Nat.ltb 0 (length (trim p)) then p :: allPrompts rest
      else allPrompts rest
  | None :: rest => allPrompts rest
  end.

(** [copyAll]: the text written to the clipboard, [None] when nothing is
    written.  The separator is two line feeds, three dashes, two line
    feeds. *)
Definition copyAll (prompts : list (option js_string)) : option js_string :=
  let all := allPrompts prompts in
  if Nat.eqb (length all) 0 then None
  else Some (join [10; 10; 45; 45; 45; 10; 10]%N all).

(** toLowerCase for code units below 256, which is where keywords live:
    A-Z and the capital letters of Latin-1 move up by 32. *)
Module HostText.

Definition lower (c : N) : N :=
  if (N.leb 65 c && N.leb c 90)
     || (N.leb 192 c && N.leb c 222 && negb (N.eqb c 215))
  then (c + 32)%N else c.

Definition toLowerCase (s : js_string) : js_string := map lower s.

End HostText.

(** ** Auxiliary notions for the properties *)

(** [a] immediately followed by [b] somewhere in [l]. *)
Fixpoint adjacent (a b : N) (l : js_string) : bool :=
  match l with
  | x :: t =>
      match t with
      | y :: _ => (N.eqb x a && N.eqb y b) || adjacent a b t
      | [] => false
      end
  | [] => false
  end.

(** Same type code and same data; the trailers may differ. *)
Definition same_but_crc (c c' : RawChunk) : Prop :=
  rc_type c = rc_type c' /\ rc_data c = rc_data c'.

(** The data of an iTXt chunk, with any flag and method bytes. *)
Definition iTXt_data (kw : list byte) (flag method : byte)
           (lang translated payload : list byte) : list byte :=
  kw ++ [x00; flag; method] ++ lang ++ [x00] ++ translated ++ [x00] ++ payload.

(** Code units below 256. *)
Definition latin1 (s : js_string) : Prop := Forall (fun u => (u < 256)%N) s.

(** What every chunk of a result looks like: the keyword is Latin-1, and
    so is the text of a tEXt chunk. *)
Definition chunk_ok (c : PngTextChunk) : Prop :=
  latin1 (keyword c) /\ (type c = tEXt -> latin1 (text c)).

(** * Properties *)

Unset Implicit Arguments.

(** ** Strings *)

Lemma str_eqb_eq (a b : js_string) : str_eqb a b = true <-> a = b.
Proof.
  revert b; induction a as [|x a IH]; intros [|y b]; simpl;
    try (split; [discriminate | congruence]); [tauto|].
  rewrite andb_true_iff, N.eqb_eq, IH. split.
  - intros [-> ->]; reflexivity.
  - intros [= -> ->]; auto.
Qed.

Lemma str_eqb_refl (a : js_string) : str_eqb a a = true.
Proof. apply str_eqb_eq; reflexivity. Qed.

Lemma str_eqb_neq (a b : js_string) : a <> b -> str_eqb a b = false.
Proof.
  intros Hne. destruct (str_eqb a b) eqn:E; [|reflexivity].
  apply str_eqb_eq in E. contradiction.
Qed.

Lemma trim_nil : trim [] = [].
Proof. reflexivity. Qed.

Lemma Boolean_trim (s : js_string) :
  Boolean (trim s) = true -> Boolean s = true.
Proof. destruct s; [rewrite trim_nil; discriminate | reflexivity]. Qed.

Lemma Boolean_length (s : js_string) : Boolean s = Nat.ltb 0 (length s).
Proof. destruct s; reflexivity. Qed.

(** [regex_test_i] finds a stretch of the text that equals the pattern up
    to the case of ASCII letters. *)
Lemma matches_here_i_spec (p s : js_string) :
  matches_here_i s p = true <->
  exists m post, s = m ++ post /\ map canonicalize m = map canonicalize p.
Proof.
  revert s; induction p as [|y p IH]; intros s; simpl.
  - split; [intros _; exists [], s; auto | reflexivity].
  - destruct s as [|x s].
    + split; [discriminate|]. intros (m & post & Hs & Hm).
      destruct m; simpl in *; discriminate.
    + rewrite andb_true_iff, N.eqb_eq, IH. split.
      * intros (Hx & m & post & -> & Hm). exists (x :: m), post.
        simpl. rewrite Hx, Hm. auto.
      * intros (m & post & Hs & Hm). destruct m as [|x' m]; [discriminate|].
        simpl in *. injection Hs as <- ->. injection Hm as Hx Hm.
        split; [assumption|]. exists m, post. auto.
Qed.

Lemma regex_test_i_spec (p s : js_string) :
  regex_test_i p s = true <->
  exists pre m post,
    s = pre ++ m ++ post /\ map canonicalize m = map canonicalize p.
Proof.
  induction s as [|x s IH]; simpl; rewrite orb_true_iff, matches_here_i_spec.
  - split.
    + intros [(m & post & Hs & Hm) | Hf]; [|discriminate].
      exists [], m, post. auto.
    + intros (pre & m & post & Hs & Hm). left.
      destruct pre; [|discriminate]. exists m, post. auto.
  - rewrite IH. split.
    + intros [(m & post & Hs & Hm) | (pre & m & post & -> & Hm)].
      * exists [], m, post. auto.
      * exists (x :: pre), m, post. auto.
    + intros (pre & m & post & Hs & Hm). destruct pre as [|x' pre].
      * left. exists m, post. auto.
      * right. injection Hs as <- ->. exists pre, m, post. auto.
Qed.

(** ** The stable sort picks the first of the longest *)

Section SortFacts.

(** The model of Array.prototype.sort rearranges its input, and puts it in
    the order of the comparator. *)
Lemma sort_insert_perm (A : Type) (cmp : A -> A -> Z) (x : A) (l : list A) :
  Permutation (x :: l) (sort_insert cmp x l).
Proof.
  induction l as [|y l IH]; simpl; [reflexivity|].
  destruct (cmp x y <=? 0)%Z; [reflexivity|].
  rewrite perm_swap. constructor. exact IH.
Qed.

Lemma Array_sort_perm (A : Type) (cmp : A -> A -> Z) (l : list A) :
  Permutation l (Array_sort cmp l).
Proof.
  induction l as [|x l IH]; simpl; [constructor|].
  rewrite <- sort_insert_perm. constructor. exact IH.
Qed.

Lemma sort_insert_sorted (x : js_string) (l : list js_string) :
  Sorted (fun a b => length b <= length a) l ->
  Sorted (fun a b => length b <= length a) (sort_insert longest_first x l).
Proof.
  induction l as [|y l IH]; simpl; intros Hs; [repeat constructor|].
  unfold longest_first at 1.
  destruct (Z.leb_spec (Z.of_nat (length y) - Z.of_nat (length x)) 0).
  - constructor; [exact Hs | constructor; lia].
  - inversion Hs as [|? ? Hl Hhd]; subst.
    constructor; [apply IH; exact Hl|].
    destruct l as [|z l]; simpl; [constructor; lia|].
    inversion Hhd; subst.
    destruct (longest_first x z <=? 0)%Z; constructor; (assumption || lia).
Qed.

Lemma Array_sort_sorted (l : list js_string) :
  Sorted (fun a b => length b <= length a) (Array_sort longest_first l).
Proof.
  induction l as [|x l IH]; simpl; [constructor|].
  apply sort_insert_sorted, IH.
Qed.

Lemma sort_head (l : list js_string) :
  match Array_sort longest_first l with
  | [] => l = []
  | best :: _ =>
      exists before after,
        l = before ++ best :: after
        /\ Forall (fun c => length c < length best) before
        /\ Forall (fun c => length c <= length best) after
  end.
Proof.
  induction l as [|a l IH]; simpl; [reflexivity|].
  destruct (Array_sort longest_first l) as [|y sorted]; simpl.
  - subst l. exists [], []. auto.
  - destruct IH as (before & after & -> & Hlt & Hle).
    unfold longest_first at 1.
    destruct (Z.leb_spec (Z.of_nat (length y) - Z.of_nat (length a)) 0).
    + exists [], (before ++ y :: after). split; [reflexivity|].
      split; [constructor|].
      apply Forall_app; split; [|constructor].
      * eapply Forall_impl; [|exact Hlt]. simpl; intros; lia.
      * lia.
      * eapply Forall_impl; [|exact Hle]. simpl; intros; lia.
    + exists (a :: before), after. split; [reflexivity|].
      split; [constructor; [lia | assumption] | assumption].
Qed.

End SortFacts.

(** ** pickBestString *)

Section PromptFacts.

Variable JSON_parse : js_string -> option json.
Variable Number_toString : js_string -> js_string.

Local Abbreviation wrapper := (isPromptWrapperJson JSON_parse).
Local Abbreviation pick := (pickBestString JSON_parse).
Local Abbreviation normalize := normalizePrompt.

Lemma filter_filter (A : Type) (f g : A -> bool) (l : list A) :
  filter g (filter f l) = filter (fun x => f x && g x) l.
Proof.
  induction l as [|x l IH]; simpl; [reflexivity|].
  destruct (f x); simpl; [destruct (g x)|]; rewrite IH; reflexivity.
Qed.

Lemma survivors_cleaned (candidates : list js_string) :
  filter (fun c => negb (wrapper c)) (filter Boolean (map trim candidates))
  = survivors JSON_parse candidates.
Proof. apply filter_filter. Qed.

(** C4. pickBestString trims every candidate, drops the ones that are
    empty after trimming and the ones that are wrapper JSON, and answers
    absent when nothing is left; otherwise it answers a survivor of greatest
    length, the earliest one in the original order among those: every
    survivor in front of it is strictly shorter, none behind it is longer. *)
Theorem pickBestString_first_longest (candidates : list js_string) :
  match pick candidates with
  | None => survivors JSON_parse candidates = []
  | Some best =>
      exists before after,
        survivors JSON_parse candidates = before ++ best :: after
        /\ Forall (fun c => length c < length best) before
        /\ Forall (fun c => length c <= length best) after
  end.
Proof.
  unfold pickBestString. rewrite survivors_cleaned.
  pose proof (sort_head (survivors JSON_parse candidates)) as Hsort.
  destruct (survivors JSON_parse candidates) as [|c cs] eqn:Hs;
    [reflexivity|].
  change (Nat.eqb (length (c :: cs)) 0) with false. cbv iota.
  match type of Hsort with
  | match ?sorted with _ => _ end => destruct sorted as [|best rest]
  end; [discriminate | exact Hsort].
Qed.

Lemma pick_survivor (candidates : list js_string) (best : js_string) :
  pick candidates = Some best -> In best (survivors JSON_parse candidates).
Proof.
  unfold pickBestString. rewrite survivors_cleaned.
  pose proof (sort_head (survivors JSON_parse candidates)) as Hsort.
  destruct (survivors JSON_parse candidates) as [|c cs]; [discriminate|].
  change (Nat.eqb (length (c :: cs)) 0) with false. cbv iota.
  revert Hsort.
  destruct (Array_sort longest_first (c :: cs)) as [|b rest];
    [discriminate|].
  intros (before & after & -> & _) [= <-].
  apply in_or_app; right; left; reflexivity.
Qed.

Lemma pick_truthy (candidates : list js_string) (best : js_string) :
  pick candidates = Some best -> Boolean best = true.
Proof.
  intros Hp. apply pick_survivor in Hp. unfold survivors in Hp.
  apply filter_In in Hp as [_ Hb]. apply andb_true_iff in Hb as [Hb _].
  exact Hb.
Qed.

Lemma pick_clean (l l' : list js_string) :
  clean l = clean l' -> pick l = pick l'.
Proof.
  unfold pickBestString, clean. intros ->. reflexivity.
Qed.

Lemma clean_app (l l' : list js_string) : clean (l ++ l') = clean l ++ clean l'.
Proof. unfold clean. rewrite map_app, filter_app. reflexivity. Qed.

End PromptFacts.

(** ** The metadata extractor *)

Section MetadataFacts.

Variable JSON_parse : js_string -> option json.
Variable Number_toString : js_string -> js_string.

Lemma ltb_50_0 (n : nat) : Nat.ltb 50 n = true -> Nat.ltb 0 n = true.
Proof. rewrite !Nat.ltb_lt. lia. Qed.

Lemma scan_keys_rules (meta : json) (keys : list js_string) :
  then_ (scan_keys JSON_parse meta keys) None
  = first_success
      (map (rule_key JSON_parse (fun v => Boolean (trim v))) keys) meta.
Proof.
  induction keys as [|key keys IH]; simpl; [reflexivity|].
  unfold rule_key at 1, as_string.
  destruct (get meta key) as [[| | |v| |]|]; try exact IH.
  rewrite <- Boolean_length.
  destruct (Boolean (trim v) && negb (isPromptWrapperJson JSON_parse v));
    [reflexivity | exact IH].
Qed.

Lemma step2_rule (meta : json) :
  match as_string (get meta (lit "prompt")) with
  | Some prompt =>
      if Nat.ltb 0 (length (trim prompt)) then
        if Nat.ltb 50 (length (trim prompt))
           && negb (isPromptWrapperJson JSON_parse prompt)
        then Some (Some (normalizePrompt prompt)) else None
      else None
  | None => None
  end
  = option_map Some (rule_prompt JSON_parse meta).
Proof.
  unfold rule_prompt, as_string.
  destruct (get meta (lit "prompt")) as [[| | |s| |]|]; try reflexivity.
  destruct (Nat.ltb 50 (length (trim s))) eqn:H50.
  - rewrite (ltb_50_0 _ H50).
    destruct (negb (isPromptWrapperJson JSON_parse s)); reflexivity.
  - destruct (Nat.ltb 0 (length (trim s))); reflexivity.
Qed.

(** C1, as amended. Whenever the graph extractor returns on the field
    raw_workflow (or that field is no string), extractFromMetadataObject
    tries its rules in strict priority order, the first success winning:
    the graph extractor on the string field raw_workflow, when it yields a
    prompt that is not empty; then the string field prompt, normalized,
    when its trimmed length exceeds 50 and it is not wrapper JSON; then the
    keys positive, positive_prompt, Prompt, Positive prompt in that order,
    the first value that is a string, is not empty after trimming and is
    not wrapper JSON being returned normalized; absent when every rule
    fails. *)
Theorem extractFromMetadataObject_priority (meta : json) :
  (forall rw,
      get meta (lit "raw_workflow") = Some (JStr rw) ->
      exists r, extractFromRawWorkflow JSON_parse Number_toString rw = Return r) ->
  extractFromMetadataObject JSON_parse Number_toString meta
  = Return
      (first_success
         [ rule_raw_workflow JSON_parse Number_toString;
           rule_prompt JSON_parse;
           rule_key JSON_parse (fun v => Boolean (trim v)) (lit "positive");
           rule_key JSON_parse (fun v => Boolean (trim v)) (lit "positive_prompt");
           rule_key JSON_parse (fun v => Boolean (trim v)) (lit "Prompt");
           rule_key JSON_parse (fun v => Boolean (trim v)) (lit "Positive prompt") ]
         meta).
Proof.
  intros Hreturns. unfold extractFromMetadataObject.
  rewrite step2_rule, scan_keys_rules.
  change (first_success (?r1 :: ?r2 :: ?rest) meta)
    with (match r1 meta with
          | Some b => Some b
          | None =>
              match r2 meta with
              | Some b => Some b
              | None => first_success rest meta
              end
          end).
  unfold rule_raw_workflow, as_string, truthy.
  destruct (get meta (lit "raw_workflow")) as [[| | |rw| |]|];
    cbn [bind then_];
    try (destruct (rule_prompt JSON_parse meta); reflexivity).
  destruct (Hreturns rw eq_refl) as [r ->]. cbn [bind].
  destruct r as [p|]; [destruct (Boolean p)|]; cbn [then_];
    try reflexivity; destruct (rule_prompt JSON_parse meta); reflexivity.
Qed.

End MetadataFacts.

Lemma extractFromMetadataObject_priority_witness :
  let meta :=
    JObj [(lit "raw_workflow", JStr (jlit "{'3':{'inputs':{'positive':' '}}}"));
          (lit "positive", JStr (lit " "));
          (lit "Prompt", JStr (lit " hello "))] in
  extractFromMetadataObject JsonText.JSON_parse JsonText.Number_toString meta
  = Return (Some (lit "hello")).
Proof.
  intros meta.
  rewrite (extractFromMetadataObject_priority
             JsonText.JSON_parse JsonText.Number_toString meta).
  - reflexivity.
  - intros rw [= <-]. eexists. reflexivity.
Defined.

(** C1, as stated, fails in three ways.  With a value that is not empty
    but blank under the key positive, the program goes on to the key
    Prompt, where the stated rule would return the blank value, normalized
    to the empty string.  With a raw_workflow whose winner normalizes to
    the empty string, the program goes on to the later rules, where the
    stated rule would return that prompt.  And with a raw_workflow holding
    a node whose class_type cannot be read as text, the program throws
    where the stated rules would go on and return. *)
Lemma stated_extractFromMetadataObject_differs :
  let run :=
    extractFromMetadataObject JsonText.JSON_parse JsonText.Number_toString in
  let stated :=
    stated_extractFromMetadataObject
      JsonText.JSON_parse JsonText.Number_toString in
  let blank :=
    JObj [(lit "positive", JStr (lit " ")); (lit "Prompt", JStr (lit "hello"))] in
  let empty :=
    JObj [(lit "raw_workflow",
           JStr (jlit "{'3':{'inputs':{'positive':'\\n'}}}"));
          (lit "positive", JStr (lit "x"))] in
  let thrown :=
    JObj [(lit "raw_workflow",
           JStr (jlit "{'3':{'class_type':{'toString':1}}}"));
          (lit "positive", JStr (lit "x"))] in
  JsonText.JSON_parse (jlit "{'positive':' ','Prompt':'hello'}") = Some blank
  /\ run blank = Return (Some (lit "hello"))
  /\ stated blank = Some []
  /\ run blank <> Return (stated blank)
  /\ JsonText.JSON_parse
       (jlit "{'raw_workflow':'{\'3\':{\'inputs\':{\'positive\':\'\\\\n\'}}}','positive':'x'}")
     = Some empty
  /\ run empty = Return (Some (lit "x"))
  /\ stated empty = Some []
  /\ run empty <> Return (stated empty)
  /\ JsonText.JSON_parse
       (jlit "{'raw_workflow':'{\'3\':{\'class_type\':{\'toString\':1}}}','positive':'x'}")
     = Some thrown
  /\ run thrown = Throw TypeError_
  /\ stated thrown = Some (lit "x")
  /\ run thrown <> Return (stated thrown).
Proof.
  cbv zeta.
  repeat (split; [first [reflexivity | vm_compute; discriminate]|]).
  vm_compute. discriminate.
Qed.

(** ** The workflow-graph extractor *)

Section GraphFacts.

Variable JSON_parse : js_string -> option json.
Variable Number_toString : js_string -> js_string.

(** String throws exactly on the values that cannot be read as text, and
    returns their text on the others. *)
Lemma String_convertible (v : json) :
  String_ Number_toString v
  = if convertible v then Return (text_of Number_toString v)
    else Throw TypeError_.
Proof.
  induction v as [| b | token | s | elements IH | members _]
    using json_nested_ind; try reflexivity.
  - destruct b; reflexivity.
  - cbn [String_ convertible text_of].
    match goal with
    | |- bind (?each elements) _ = _ =>
        assert (Heach :
          each elements
          = if forallb convertible elements
            then Return
                   (map (fun e => match e with
                                  | JNull => []
                                  | _ => text_of Number_toString e
                                  end) elements)
            else Throw TypeError_)
    end.
    { induction IH as [|e l He _ IHl]; [reflexivity|].
      assert (Hel :
        match e with
        | JNull => Return []
        | _ => String_ Number_toString e
        end
        = if convertible e
          then Return match e with
                      | JNull => []
                      | _ => text_of Number_toString e
                      end
          else Throw TypeError_)
        by (destruct e; first [exact He | reflexivity]).
      cbn [forallb map]. cbn [bind] in IHl |- *. rewrite Hel, IHl.
      destruct (convertible e); cbn [andb]; [|reflexivity].
      destruct (forallb convertible l); reflexivity. }
    rewrite Heach. destruct (forallb convertible elements); reflexivity.
  - cbn [String_ convertible text_of].
    destruct (assoc (lit "toString") members); reflexivity.
Qed.

Lemma clean_string_field (inputs : json) (name : js_string) :
  clean (string_field inputs name Boolean)
  = clean (string_field inputs name (fun s => Boolean (trim s))).
Proof.
  unfold string_field.
  destruct (get inputs name) as [[| | |s| |]|]; try reflexivity.
  destruct (Boolean (trim s)) eqn:Ht.
  - rewrite (Boolean_trim _ Ht). reflexivity.
  - destruct (Boolean s); [|reflexivity].
    unfold clean; simpl. rewrite Ht. reflexivity.
Qed.

(** What one turn of the loop appends, as a list. *)
Lemma push_string_field (inputs : json) (name : js_string)
      (acc : list js_string) :
  match as_string (get inputs name) with
  | Some s => if Nat.ltb 0 (length (trim s)) then acc ++ [s] else acc
  | None => acc
  end
  = acc ++ string_field inputs name (fun s => Boolean (trim s)).
Proof.
  unfold string_field, as_string.
  destruct (get inputs name) as [[| | |s| |]|];
    try (symmetry; apply app_nil_r).
  rewrite <- Boolean_length.
  destruct (Boolean (trim s)); [reflexivity | symmetry; apply app_nil_r].
Qed.

Lemma title_of_meta (node : json) :
  match get node (lit "_meta") with
  | None | Some JNull => None
  | Some meta => get meta (lit "title")
  end
  = title_of node.
Proof.
  unfold title_of. destruct (get node (lit "_meta")) as [[]|]; reflexivity.
Qed.

(** A node whose class_type and title can be read as text adds its
    candidates. *)
Lemma visit_node_candidates (wf node : json) (acc : list js_string)
      (nodeId : js_string) :
  get wf nodeId = Some node ->
  node_converts node = true ->
  exists acc',
    visit_node Number_toString wf acc nodeId = Return acc'
    /\ clean acc' = clean acc ++ clean (node_candidates Number_toString node).
Proof.
  intros Hget Hconv. unfold visit_node. rewrite Hget.
  destruct node as [| b | token | s | elements | members];
    (* only an object has the fields read: an array has none of them *)
    try (exists acc; split; [reflexivity | simpl; symmetry; apply app_nil_r]).
  change (is_object_typed (JObj members)) with true.
  change (negb true) with false. cbv iota.
  rewrite title_of_meta.
  unfold node_converts in Hconv.
  change (negb (is_object_typed (JObj members))) with false in Hconv.
  cbn [orb] in Hconv. apply andb_true_iff in Hconv as [Hclass Htitle].
  rewrite !String_convertible, Hclass, Htitle. cbn [bind]. cbv zeta.
  set (inputs := nullish_or (get (JObj members) (lit "inputs")) (JObj [])).
  rewrite !push_string_field.
  unfold node_candidates. fold inputs.
  fold (field_text Number_toString (get (JObj members) (lit "class_type"))).
  fold (field_text Number_toString (title_of (JObj members))).
  fold (looks_positive Number_toString (JObj members)).
  destruct (looks_positive Number_toString (JObj members));
    eexists; (split; [reflexivity|]).
  - rewrite <- !app_assoc, !clean_app, !clean_string_field. reflexivity.
  - rewrite app_nil_r, clean_app. reflexivity.
Qed.

(** A node whose class_type or title cannot be read as text makes the
    turn throw. *)
Lemma visit_node_throws (wf node : json) (acc : list js_string)
      (nodeId : js_string) :
  get wf nodeId = Some node ->
  node_converts node = false ->
  visit_node Number_toString wf acc nodeId = Throw TypeError_.
Proof.
  intros Hget Hconv. unfold visit_node. rewrite Hget.
  unfold node_converts in Hconv.
  apply orb_false_iff in Hconv as [Hobj Hconv]. rewrite Hobj.
  rewrite title_of_meta, !String_convertible.
  apply andb_false_iff in Hconv as [Hclass | Htitle].
  - rewrite Hclass. reflexivity.
  - rewrite Htitle.
    destruct (convertible
                (nullish_or (get node (lit "class_type")) (JStr [])));
      reflexivity.
Qed.

Lemma assoc_member (k : js_string) (v : json)
      (before after : list (js_string * json)) :
  ~ In k (map fst before) ->
  assoc k (before ++ (k, v) :: after) = Some v.
Proof.
  induction before as [|[k' v'] before IH]; simpl; intros Hnot.
  - rewrite str_eqb_refl. reflexivity.
  - rewrite str_eqb_neq by (intros ->; apply Hnot; left; reflexivity).
    apply IH. intros Hin; apply Hnot; right; exact Hin.
Qed.

Lemma get_member (k : js_string) (v : json)
      (before after : list (js_string * json)) :
  NoDup (map fst (before ++ (k, v) :: after)) ->
  get (JObj (before ++ (k, v) :: after)) k = Some v.
Proof.
  intros Hnd. simpl. apply assoc_member.
  rewrite map_app in Hnd. simpl in Hnd.
  apply NoDup_remove_2 in Hnd. intros Hin; apply Hnd.
  apply in_or_app; left; exact Hin.
Qed.

Lemma fold_visit_members (before after : list (js_string * json))
      (acc : list js_string) :
  NoDup (map fst (before ++ after)) ->
  Forall (fun m => node_converts (snd m) = true) after ->
  exists candidates,
    for_of (visit_node Number_toString (JObj (before ++ after)))
      (map fst after) acc
    = Return candidates
    /\ clean candidates
       = clean acc ++ clean (graph_candidates Number_toString after).
Proof.
  revert before acc; induction after as [|[k v] after IH];
    intros before acc Hnd Hconv.
  - exists acc. split; [reflexivity | simpl; symmetry; apply app_nil_r].
  - inversion Hconv as [|? ? Hv Hrest]; subst. simpl in Hv.
    cbn [map fst for_of].
    destruct (visit_node_candidates (JObj (before ++ (k, v) :: after)) v acc k
                (get_member k v before after Hnd) Hv)
      as (acc' & -> & Hacc').
    cbn [bind].
    replace (before ++ (k, v) :: after) with ((before ++ [(k, v)]) ++ after)
      in * by (rewrite <- app_assoc; reflexivity).
    destruct (IH (before ++ [(k, v)]) acc' Hnd Hrest)
      as (candidates & -> & Hclean).
    exists candidates. split; [reflexivity|].
    rewrite Hclean, Hacc'. unfold graph_candidates. simpl flat_map.
    rewrite clean_app, app_assoc. reflexivity.
Qed.


End GraphFacts.



(** ** The selector *)

Section SelectorFacts.

Variable JSON_parse : js_string -> option json.
Variable Number_toString : js_string -> js_string.

Local Abbreviation select :=
  (extractPositivePromptFromTextBlobs JSON_parse Number_toString).
Local Abbreviation yieldA := (phaseA_yield JSON_parse Number_toString).
Local Abbreviation yieldB := (phaseB_yield JSON_parse Number_toString).
Local Abbreviation tagged :=
  (fun tag p => mkResult (Some p) (Some tag)).

Lemma first_yield_skip (yield : js_string -> outcome (option js_string))
      (before rest : list js_string) :
  Forall (fun b => yield b = Return None) before ->
  first_yield yield (before ++ rest) = first_yield yield rest.
Proof.
  induction 1 as [|b before Hb _ IH]; simpl; [reflexivity|].
  rewrite Hb. exact IH.
Qed.

Lemma first_yield_none (yield : js_string -> outcome (option js_string))
      (blobs : list js_string) :
  Forall (fun b => yield b = Return None) blobs ->
  first_yield yield blobs = Return None.
Proof.
  intros H. rewrite <- (app_nil_r blobs). rewrite first_yield_skip by exact H.
  reflexivity.
Qed.

Lemma first_yield_found (yield : js_string -> outcome (option js_string))
      (before after : list js_string) (blob p : js_string) :
  Forall (fun b => yield b = Return None) before ->
  yield blob = Return (Some p) ->
  first_yield yield (before ++ blob :: after) = Return (Some p).
Proof.
  intros Hbefore Hblob. rewrite first_yield_skip by exact Hbefore.
  simpl. rewrite Hblob. reflexivity.
Qed.

Lemma phaseA_first_yield (blobs : list js_string) :
  phaseA JSON_parse Number_toString blobs
  = y <- first_yield yieldA blobs ;;
    Return (option_map (tagged (lit "metadata-json")) y).
Proof.
  induction blobs as [|blob blobs IH]; simpl; [reflexivity|].
  unfold phaseA_yield, safeJsonParse, truthy, nonempty_prompt.
  destruct (JSON_parse blob) as [v|]; [|exact IH].
  destruct v; try exact IH; cbn [is_object_typed];
    (destruct (extractFromMetadataObject JSON_parse Number_toString _)
       as [[p|]|e]; cbn [bind];
     [destruct (Boolean p); [reflexivity | exact IH] | exact IH | reflexivity]).
Qed.

Lemma phaseB_first_yield (blobs : list js_string) :
  phaseB JSON_parse Number_toString blobs
  = y <- first_yield yieldB blobs ;;
    Return (option_map (tagged (lit "raw_workflow-json")) y).
Proof.
  induction blobs as [|blob blobs IH]; simpl; [reflexivity|].
  unfold phaseB_yield, truthy, nonempty_prompt.
  unfold safeJsonParse at 1 2.
  destruct (JSON_parse blob) as [v|]; [|exact IH].
  destruct v; try exact IH; cbn [is_object_typed];
    (destruct (existsb regex_all_digits _); [|exact IH];
     destruct (extractFromRawWorkflow JSON_parse Number_toString blob)
       as [[p|]|e]; cbn [bind];
     [destruct (Boolean p); [reflexivity | exact IH] | exact IH | reflexivity]).
Qed.

(** The three ways the selector returns. *)
Lemma select_cases (blobs : list js_string) (r : ExtractionResult) :
  select blobs = Return r ->
  (exists p,
      first_yield yieldA blobs = Return (Some p)
      /\ r = tagged (lit "metadata-json") p)
  \/ (exists p,
         first_yield yieldA blobs = Return None
         /\ first_yield yieldB blobs = Return (Some p)
         /\ r = tagged (lit "raw_workflow-json") p)
  \/ (first_yield yieldA blobs = Return None
      /\ first_yield yieldB blobs = Return None
      /\ r = phaseC JSON_parse blobs).
Proof.
  unfold extractPositivePromptFromTextBlobs.
  rewrite phaseA_first_yield, phaseB_first_yield.
  destruct (first_yield yieldA blobs) as [[p|]|e];
    cbn [bind option_map]; [| |discriminate].
  { intros [= <-]. left. exists p. auto. }
  destruct (first_yield yieldB blobs) as [[p|]|e];
    cbn [bind option_map]; [| |discriminate].
  { intros [= <-]. right; left. exists p. auto. }
  intros [= <-]. right; right. auto.
Qed.

(** C2, as amended. When phase A goes through every blob without a
    prompt and without an exception, and phase B comes to a blob that gives
    it a prompt (the blob parses to an object with a key made of decimal
    digits only, the graph extractor yields a prompt that is not empty
    from it, and no blob in front of it gives phase B a prompt or makes it
    throw), the result carries the prompt of that blob and the source tag
    raw_workflow-json, written with an underscore. *)
Theorem phaseB_tag (before after : list js_string) (blob p : js_string) :
  Forall (fun b => yieldA b = Return None) (before ++ blob :: after) ->
  Forall (fun b => yieldB b = Return None) before ->
  yieldB blob = Return (Some p) ->
  select (before ++ blob :: after)
  = Return (mkResult (Some p) (Some (lit "raw_workflow-json"))).
Proof.
  intros HA Hbefore HB. unfold extractPositivePromptFromTextBlobs.
  rewrite phaseA_first_yield, (first_yield_none _ _ HA).
  cbn [bind option_map].
  rewrite phaseB_first_yield, (first_yield_found _ _ _ _ _ Hbefore HB).
  reflexivity.
Qed.

(** C8. The result the selector returns carries no source tag exactly
    when its prompt is absent. *)
Theorem source_none_iff_prompt_absent (blobs : list js_string)
        (r : ExtractionResult) :
  select blobs = Return r ->
  (debugSource r = None <-> prompt r = None).
Proof.
  unfold extractPositivePromptFromTextBlobs.
  rewrite phaseA_first_yield, phaseB_first_yield.
  destruct (first_yield yieldA blobs) as [[p|]|e];
    cbn [bind option_map]; [| |discriminate].
  { intros [= <-]. cbn [prompt debugSource]. split; discriminate. }
  destruct (first_yield yieldB blobs) as [[p|]|e];
    cbn [bind option_map]; [| |discriminate].
  { intros [= <-]. cbn [prompt debugSource]. split; discriminate. }
  intros [= <-]. unfold phaseC. cbv zeta.
  match goal with
  | |- context [pickBestString JSON_parse ?l] =>
      destruct (pickBestString JSON_parse l) as [best|]
  end; [|split; reflexivity].
  destruct (Boolean best); cbn [prompt debugSource]; split;
    (discriminate || reflexivity).
Qed.

(** C9. A blob that parses to a non-empty array passes the entry checks
    of phases A and B like an object does: its indices are keys made of
    digits, so phase B runs the graph extractor over its elements and
    returns the inputs.positive string of the element. *)
Theorem array_blob_read_as_graph :
  let blob := jlit "[{'inputs':{'positive':'a cat'}}]" in
  let parsed :=
    JArr [JObj [(lit "inputs", JObj [(lit "positive", JStr (lit "a cat"))])]] in
  JSON_parse blob = Some parsed ->
  (forall elements members,
      is_object_typed (JArr elements) = is_object_typed (JObj members))
  /\ Object_keys parsed = [lit "0"]
  /\ existsb regex_all_digits (Object_keys parsed) = true
  /\ yieldA blob = Return None
  /\ yieldB blob = Return (Some (lit "a cat"))
  /\ select [blob]
     = Return (mkResult (Some (lit "a cat")) (Some (lit "raw_workflow-json"))).
Proof.
  intros blob parsed Hparse.
  assert (Hgraph :
    extractFromRawWorkflow JSON_parse Number_toString blob
    = Return (Some (lit "a cat"))).
  { unfold extractFromRawWorkflow, safeJsonParse. rewrite Hparse.
    vm_compute. reflexivity. }
  assert (HA : yieldA blob = Return None).
  { unfold phaseA_yield. rewrite Hparse. vm_compute. reflexivity. }
  assert (HB : yieldB blob = Return (Some (lit "a cat"))).
  { unfold phaseB_yield. rewrite Hparse, Hgraph. reflexivity. }
  repeat split; try reflexivity; try assumption.
  unfold extractPositivePromptFromTextBlobs.
  rewrite phaseA_first_yield, phaseB_first_yield. simpl first_yield.
  rewrite HA, HB. reflexivity.
Qed.

(** C10. A present prompt can be the empty string: a blob that is not
    JSON, longer than 200 after trimming and made only of backslash-n
    pairs passes the filters of phase C and wins; normalization turns it
    into line feeds, which the final trim removes. *)
Theorem fallback_prompt_may_be_empty :
  let blob := concat (repeat [92; 110]%N 101) in
  JSON_parse blob = None ->
  length (trim blob) = 202
  /\ isPromptWrapperJson JSON_parse (trim blob) = false
  /\ pickBestString JSON_parse [trim blob] = Some blob
  /\ normalizePrompt blob = []
  /\ select [blob]
     = Return (mkResult (Some []) (Some (lit "fallback-long-text"))).
Proof.
  intros blob Hparse.
  split; [vm_compute; reflexivity|].
  split; [vm_compute; reflexivity|].
  split; [vm_compute; reflexivity|].
  split; [vm_compute; reflexivity|].
  unfold extractPositivePromptFromTextBlobs, phaseA, phaseB, safeJsonParse.
  rewrite Hparse. vm_compute. reflexivity.
Qed.

End SelectorFacts.

Lemma phaseB_tag_witness :
  let blobs :=
    [lit "not json";
     jlit "{'3':{'_meta':{'title':'Positive'},'inputs':{'text':'dog running, 4k, sharp'}}}";
     jlit "{'4':{'class_type':{'toString':1}}}"] in
  extractPositivePromptFromTextBlobs
    JsonText.JSON_parse JsonText.Number_toString blobs
  = Return
      (mkResult (Some (lit "dog running, 4k, sharp"))
         (Some (lit "raw_workflow-json"))).
Proof.
  cbv zeta.
  apply (phaseB_tag JsonText.JSON_parse JsonText.Number_toString
           [lit "not json"]
           [jlit "{'4':{'class_type':{'toString':1}}}"]).
  - repeat constructor.
  - repeat constructor.
  - reflexivity.
Defined.

(** C2, as stated, fails: on a blob that is a node graph, phase B is the
    first phase to succeed and the tag of the result is raw_workflow-json,
    which is neither raw-workflow-json nor any other source of the data
    model. *)
Lemma phaseB_tag_not_in_data_model :
  let host_select :=
    extractPositivePromptFromTextBlobs
      JsonText.JSON_parse JsonText.Number_toString in
  let blobs :=
    [jlit "{'3':{'_meta':{'title':'Positive'},'inputs':{'text':'dog running, 4k, sharp'}}}"] in
  Forall
    (fun b =>
       phaseA_yield JsonText.JSON_parse JsonText.Number_toString b
       = Return None)
    blobs
  /\ Forall
       (fun b =>
          phaseB_yield JsonText.JSON_parse JsonText.Number_toString b
          = Return (Some (lit "dog running, 4k, sharp")))
       blobs
  /\ host_select blobs
     = Return
         (mkResult (Some (lit "dog running, 4k, sharp"))
            (Some (lit "raw_workflow-json")))
  /\ host_select blobs
     <> Return
          (mkResult (Some (lit "dog running, 4k, sharp"))
             (Some (lit "raw-workflow-json")))
  /\ ~ In (lit "raw_workflow-json") allowed_sources.
Proof.
  cbv zeta. split; [repeat constructor|].
  split; [repeat constructor|].
  split; [reflexivity|].
  split; [vm_compute; discriminate|].
  vm_compute. intros [H|[H|[H|[H|[]]]]]; discriminate H.
Qed.

Lemma source_none_iff_prompt_absent_witness :
  (debugSource (mkResult None None) = None
   <-> prompt (mkResult None None) = None)
  /\ extractPositivePromptFromTextBlobs
       JsonText.JSON_parse JsonText.Number_toString
       [jlit "{'prompt':'short'}"; lit "plain text"]
     = Return (mkResult None None).
Proof.
  split; [|reflexivity].
  apply (source_none_iff_prompt_absent
           JsonText.JSON_parse JsonText.Number_toString
           [jlit "{'prompt':'short'}"; lit "plain text"]).
  reflexivity.
Defined.

Lemma array_blob_read_as_graph_witness :
  extractPositivePromptFromTextBlobs
    JsonText.JSON_parse JsonText.Number_toString
    [jlit "[{'inputs':{'positive':'a cat'}}]"]
  = Return (mkResult (Some (lit "a cat")) (Some (lit "raw_workflow-json"))).
Proof.
  apply (array_blob_read_as_graph JsonText.JSON_parse JsonText.Number_toString).
  reflexivity.
Defined.

Lemma fallback_prompt_may_be_empty_witness :
  JsonText.JSON_parse (concat (repeat [92; 110]%N 101)) = None
  /\ extractPositivePromptFromTextBlobs
       JsonText.JSON_parse JsonText.Number_toString
       [concat (repeat [92; 110]%N 101)]
     = Return (mkResult (Some []) (Some (lit "fallback-long-text"))).
Proof.
  split; [reflexivity|].
  apply (fallback_prompt_may_be_empty
           JsonText.JSON_parse JsonText.Number_toString).
  reflexivity.
Defined.

(** ** Buffers and slices *)

Lemma len_app {A : Type} (a b : list A) : len (a ++ b) = (len a + len b)%Z.
Proof. unfold len. rewrite length_app. lia. Qed.

Lemma len_nonneg {A : Type} (a : list A) : (0 <= len a)%Z.
Proof. unfold len. lia. Qed.

Lemma len_cons {A : Type} (x : A) (a : list A) : len (x :: a) = (1 + len a)%Z.
Proof. unfold len. simpl length. lia. Qed.

Lemma len_nil {A : Type} : len (@nil A) = 0%Z.
Proof. reflexivity. Qed.

(** Lengths of concatenations, as sums. *)
Ltac len_sum := repeat (rewrite len_app || rewrite len_cons || rewrite len_nil).

Lemma slice_at {A : Type} (l pre mid post : list A) (a b : Z) :
  l = pre ++ mid ++ post -> a = len pre -> b = (len pre + len mid)%Z ->
  slice l a b = mid.
Proof.
  intros -> -> ->. unfold slice, rel_index.
  pose proof (len_nonneg pre). pose proof (len_nonneg mid).
  pose proof (len_nonneg post). rewrite !len_app.
  destruct (Z.ltb_spec (len pre) 0); [lia|].
  destruct (Z.ltb_spec (len pre + len mid) 0); [lia|].
  rewrite !Z.min_l by lia.
  replace (len pre + len mid - len pre)%Z with (len mid) by lia.
  unfold len. rewrite !Nat2Z.id.
  rewrite skipn_app, skipn_all, Nat.sub_diag. simpl.
  rewrite firstn_app, firstn_all, Nat.sub_diag. simpl. apply app_nil_r.
Qed.

Lemma slice_from_at {A : Type} (l pre post : list A) (a : Z) :
  l = pre ++ post -> a = len pre -> slice_from l a = post.
Proof.
  intros -> ->. unfold slice_from.
  apply slice_at with (pre := pre) (post := []).
  - rewrite app_nil_r. reflexivity.
  - reflexivity.
  - apply len_app.
Qed.

Lemma slice_shift {A : Type} (pre t : list A) (a b : Z) :
  (0 <= a)%Z -> (0 <= b)%Z ->
  slice (pre ++ t) (len pre + a) (len pre + b) = slice t a b.
Proof.
  intros Ha Hb. unfold slice, rel_index.
  pose proof (len_nonneg pre). pose proof (len_nonneg t). rewrite len_app.
  destruct (Z.ltb_spec (len pre + a) 0); [lia|].
  destruct (Z.ltb_spec (len pre + b) 0); [lia|].
  destruct (Z.ltb_spec a 0); [lia|]. destruct (Z.ltb_spec b 0); [lia|].
  replace (Z.min (len pre + a) (len pre + len t))
    with (len pre + Z.min a (len t))%Z by lia.
  replace (Z.min (len pre + b) (len pre + len t))
    with (len pre + Z.min b (len t))%Z by lia.
  replace (len pre + Z.min b (len t) - (len pre + Z.min a (len t)))%Z
    with (Z.min b (len t) - Z.min a (len t))%Z by lia.
  f_equal.
  rewrite Z2Nat.inj_add by lia. unfold len at 1. rewrite Nat2Z.id.
  rewrite skipn_app.
  rewrite skipn_all2 by lia.
  replace (length pre + Z.to_nat (Z.min a (len t)) - length pre)
    with (Z.to_nat (Z.min a (len t))) by lia.
  reflexivity.
Qed.

Lemma length_slice {A : Type} (l : list A) (a b : Z) :
  (0 <= a <= b)%Z -> (b <= len l)%Z ->
  length (slice l a b) = Z.to_nat (b - a).
Proof.
  intros Hab Hb. unfold slice, rel_index.
  destruct (Z.ltb_spec a 0); [lia|]. destruct (Z.ltb_spec b 0); [lia|].
  rewrite !Z.min_l by lia.
  rewrite length_firstn, length_skipn. unfold len in Hb. lia.
Qed.

Lemma at_app {A : Type} (pre post : list A) (x : A) (i : Z) :
  i = len pre -> at_ (pre ++ x :: post) i = Some x.
Proof.
  intros ->. unfold at_. pose proof (len_nonneg pre).
  destruct (Z.ltb_spec (len pre) 0); [lia|].
  unfold len. rewrite Nat2Z.id, nth_error_app2 by lia.
  rewrite Nat.sub_diag. reflexivity.
Qed.

(** ** Length fields *)

Lemma byteZ_of_Z (z : Z) :
  Z.of_N (Byte.to_N (byte_of_Z z)) = (z mod 256)%Z.
Proof.
  unfold byte_of_Z.
  pose proof (Z.mod_pos_bound z 256 ltac:(lia)) as Hm.
  destruct (Byte.of_N (Z.to_N (z mod 256))) as [b|] eqn:E.
  - apply Byte.to_of_N in E. rewrite E. lia.
  - apply Byte.of_N_None_iff in E. lia.
Qed.

Lemma u32_digits (n : Z) :
  (0 <= n < 4294967296)%Z ->
  ((n / 16777216) mod 256 * 16777216 + (n / 65536) mod 256 * 65536
   + (n / 256) mod 256 * 256 + n mod 256 = n)%Z.
Proof.
  intros Hn.
  assert (H2 : (n / 65536 = n / 256 / 256)%Z)
    by (rewrite Z.div_div by lia; reflexivity).
  assert (H3 : (n / 16777216 = n / 65536 / 256)%Z)
    by (rewrite Z.div_div by lia; reflexivity).
  pose proof (Z.div_mod n 256 ltac:(lia)) as E1.
  pose proof (Z.div_mod (n / 256) 256 ltac:(lia)) as E2.
  pose proof (Z.div_mod (n / 65536) 256 ltac:(lia)) as E3.
  rewrite <- H2 in E2. rewrite <- H3 in E3.
  assert (Hhi : (0 <= n / 16777216 < 256)%Z).
  { split; [apply Z.div_pos; lia | apply Z.div_lt_upper_bound; lia]. }
  rewrite (Z.mod_small (n / 16777216) 256) by exact Hhi.
  lia.
Qed.

Lemma readU32BE_shift (pre t : list byte) (k : Z) :
  (0 <= k)%Z -> readU32BE (pre ++ t) (len pre + k) = readU32BE t k.
Proof.
  intros Hk. unfold readU32BE. pose proof (len_nonneg pre).
  rewrite len_app.
  replace (len pre + k + 4)%Z with (len pre + (k + 4))%Z by lia.
  rewrite slice_shift by lia.
  destruct (Z.ltb_spec (len pre + k) 0); [lia|].
  destruct (Z.ltb_spec k 0); [lia|]. simpl.
  destruct (Z.ltb_spec (len pre + len t) (len pre + (k + 4)));
    destruct (Z.ltb_spec (len t) (k + 4)); try lia; reflexivity.
Qed.

Lemma readU32BE_u32be (n : Z) (rest : list byte) :
  (0 <= n < 4294967296)%Z -> readU32BE (u32be n ++ rest) 0 = Return n.
Proof.
  intros Hn. unfold readU32BE.
  rewrite (slice_at (u32be n ++ rest) [] (u32be n) rest 0 (0 + 4))
    by reflexivity.
  rewrite len_app. pose proof (len_nonneg rest).
  change (len (u32be n)) with 4%Z.
  destruct (Z.ltb_spec (4 + len rest) (0 + 4)); [lia|].
  simpl. unfold u32be. rewrite !byteZ_of_Z. f_equal. apply u32_digits, Hn.
Qed.

Lemma readU32BE_in_range (view : list byte) (offset : Z) :
  (0 <= offset)%Z -> (offset + 4 <= len view)%Z ->
  exists v, readU32BE view offset = Return v /\ (0 <= v)%Z.
Proof.
  intros H0 H4. unfold readU32BE.
  destruct (Z.ltb_spec offset 0); [lia|].
  destruct (Z.ltb_spec (len view) (offset + 4)); [lia|]. simpl.
  pose proof (length_slice view offset (offset + 4) ltac:(lia) H4) as Hl.
  replace (Z.to_nat (offset + 4 - offset)) with 4 in Hl by lia.
  destruct (slice view offset (offset + 4))
    as [|b0 [|b1 [|b2 [|b3 [|? ?]]]]]; try discriminate.
  eexists; split; [reflexivity | lia].
Qed.

Lemma readU32BE_nonneg (view : list byte) (offset v : Z) :
  readU32BE view offset = Return v -> (0 <= v)%Z.
Proof.
  unfold readU32BE. destruct (_ || _); [discriminate|].
  destruct (slice view offset (offset + 4))
    as [|b0 [|b1 [|b2 [|b3 [|? ?]]]]]; try discriminate.
  intros [= <-]. lia.
Qed.

Lemma bytes_agree_eq (a b : list byte) :
  length a = length b -> bytes_agree a b = true <-> a = b.
Proof.
  revert b; induction a as [|x a IH]; intros [|y b] Hl; simpl in *;
    try discriminate; [tauto|].
  injection Hl as Hl. rewrite andb_true_iff, (IH b Hl). split.
  - intros [Hxy ->]. apply Byte.byte_dec_bl in Hxy. subst; reflexivity.
  - intros [= -> ->]. split; [apply Byte.byte_dec_lb|]; reflexivity.
Qed.

Lemma bytesEqual_eq (a b : list byte) : bytesEqual a b = true <-> a = b.
Proof.
  unfold bytesEqual. destruct (Nat.eqb_spec (length a) (length b)) as [Hl|Hl];
    simpl.
  - apply bytes_agree_eq, Hl.
  - split; [discriminate | intros ->; contradiction].
Qed.

Lemma slice_0_8 (bytes : list byte) :
  (8 <= len bytes)%Z -> slice bytes 0 8 = firstn 8 bytes.
Proof.
  intros H8. unfold slice, rel_index. simpl (0 <? 0)%Z. simpl (8 <? 0)%Z.
  cbv iota. rewrite !Z.min_l by lia. reflexivity.
Qed.

(** ** NUL separators *)

Lemma find_null_sep (kw rest : list byte) (i : Z) :
  no_NUL kw -> find_null (kw ++ x00 :: rest) i = (i + len kw)%Z.
Proof.
  revert i; induction kw as [|b kw IH]; intros i Hk; simpl.
  - unfold len; simpl. lia.
  - destruct (Byte.eqb b x00) eqn:E.
    + apply Byte.byte_dec_bl in E. subst b. exfalso; apply Hk; left; reflexivity.
    + rewrite IH by (intros Hin; apply Hk; right; exact Hin).
      unfold len; simpl length. lia.
Qed.

Lemma findNullByte_sep (pre kw rest : list byte) (start : Z) :
  no_NUL kw -> start = len pre ->
  findNullByte (pre ++ kw ++ x00 :: rest) start = (len pre + len kw)%Z.
Proof.
  intros Hk ->. unfold findNullByte, len at 1. rewrite Nat2Z.id.
  rewrite skipn_app, skipn_all, Nat.sub_diag. simpl.
  apply find_null_sep, Hk.
Qed.

(** ** The scanning loop *)

Section PngFacts.

Variable decompress : stream_format -> list byte -> option (list byte).
Variable TextDecoder_decode : list byte -> js_string.

Local Abbreviation body := (loop_body decompress TextDecoder_decode).
Local Abbreviation loop := (scan decompress TextDecoder_decode).
Local Abbreviation read := (extractPngTextChunks decompress TextDecoder_decode).
Local Abbreviation decode := (decode_chunk decompress TextDecoder_decode).
Local Abbreviation texts := (decoded decompress TextDecoder_decode).

(** The loop, one turn unrolled. *)
Lemma scan_step (bytes : list byte) (offset : Z)
      (chunks : list PngTextChunk) :
  loop bytes offset chunks
  = if (offset + 8 <=? len bytes)%Z then
      match body bytes offset chunks with
      | Continue offset' chunks' => loop bytes offset' chunks'
      | Break chunks' => Return chunks'
      | Raise e => Throw e
      end
    else Return chunks.
Proof.
  funelim (scan decompress TextDecoder_decode bytes offset chunks);
    match goal with Hc : (_ <=? _)%Z = _ |- _ => rewrite Hc end;
    try match goal with Hb : loop_body _ _ _ _ _ = _ |- _ => rewrite Hb end;
    reflexivity.
Qed.

Lemma loop_body_advances (bytes : list byte) (offset offset' : Z)
      (chunks chunks' : list PngTextChunk) :
  body bytes offset chunks = Continue offset' chunks' ->
  (offset + 12 <= offset' <= len bytes)%Z.
Proof.
  unfold loop_body.
  destruct (readU32BE bytes offset) as [length|e] eqn:Hlen; [|discriminate].
  apply readU32BE_nonneg in Hlen.
  destruct (_ || _) eqn:Hcut; [discriminate|].
  apply orb_false_iff in Hcut as [_ Hcrc]. apply Z.ltb_ge in Hcrc.
  repeat (destruct (str_eqb _ _));
    first [discriminate | intros [= <- _]; lia].
Qed.

Lemma loop_body_no_raise (bytes : list byte) (offset : Z)
      (chunks : list PngTextChunk) (e : exn) :
  (0 <= offset)%Z -> (offset + 8 <= len bytes)%Z ->
  body bytes offset chunks <> Raise e.
Proof.
  intros H0 H8. unfold loop_body.
  destruct (readU32BE_in_range bytes offset H0 ltac:(lia)) as (v & -> & _).
  destruct (_ || _); [discriminate|].
  repeat (destruct (str_eqb _ _)); discriminate.
Qed.

(** The loop returns: no read of the length field leaves the buffer. *)
Lemma scan_returns (bytes : list byte) (offset : Z)
      (chunks : list PngTextChunk) :
  (0 <= offset)%Z -> exists found, loop bytes offset chunks = Return found.
Proof.
  funelim (scan decompress TextDecoder_decode bytes offset chunks);
    intros Hpos.
  - eexists; reflexivity.
  - match goal with
    | Hb : loop_body _ _ _ _ _ = Continue _ _, IH : (0 <= _)%Z -> _ |- _ =>
        pose proof (loop_body_advances _ _ _ _ _ Hb); apply IH; lia
    end.
  - eexists; reflexivity.
  - exfalso.
    match goal with
    | Hc : (_ <=? _)%Z = true, Hb : loop_body _ _ _ _ _ = Raise _ |- _ =>
        exact (loop_body_no_raise _ _ _ _ Hpos (proj1 (Z.leb_le _ _) Hc) Hb)
    end.
Qed.

(** A declared span that runs past the end stops the loop, with the
    chunks collected so far. *)
Lemma scan_truncated (pre t : list byte) (chunks : list PngTextChunk) :
  truncated t -> loop (pre ++ t) (len pre) chunks = Return chunks.
Proof.
  intros Ht. rewrite scan_step, len_app.
  destruct (Z.leb_spec (len pre + 8) (len pre + len t)) as [H8|]; [|reflexivity].
  destruct Ht as [Hshort | (n & Hn & Hspan)]; [lia|].
  unfold loop_body.
  replace (len pre) with (len pre + 0)%Z at 1 by lia.
  rewrite readU32BE_shift, Hn by lia.
  rewrite len_app.
  destruct (Z.ltb_spec (len pre + len t) (len pre + 8 + n)); [reflexivity|].
  destruct (Z.ltb_spec (len pre + len t) (len pre + 8 + n + 4));
    [reflexivity | lia].
Qed.

Lemma len_encode_chunk (c : RawChunk) :
  well_formed_chunk c -> len (encode_chunk c) = (12 + len (rc_data c))%Z.
Proof.
  intros (Ht & Hc & _). unfold encode_chunk, len.
  rewrite !length_app, Ht, Hc. simpl length. lia.
Qed.

(** One turn of the loop over a whole chunk. *)
Lemma loop_body_chunk (pre rest : list byte) (c : RawChunk)
      (chunks : list PngTextChunk) :
  well_formed_chunk c ->
  body (pre ++ encode_chunk c ++ rest) (len pre) chunks
  = if has_type "IEND" c then Break chunks
    else
      Continue (len pre + len (encode_chunk c))
        (chunks ++ match decode c with Some t => [t] | None => [] end).
Proof.
  intros Hwf. pose proof (len_encode_chunk c Hwf) as Henc.
  destruct Hwf as (Ht & Hc & Hd).
  pose proof (len_nonneg (rc_data c)) as Hd0.
  pose proof (len_nonneg pre) as Hp0. pose proof (len_nonneg rest) as Hr0.
  unfold loop_body.
  replace (len pre) with (len pre + 0)%Z at 1 by lia.
  rewrite readU32BE_shift by lia.
  unfold encode_chunk at 1. rewrite <- !app_assoc.
  rewrite readU32BE_u32be by lia.
  rewrite !len_app, Henc.
  destruct (Z.ltb_spec (len pre + (12 + len (rc_data c) + len rest))
              (len pre + 8 + len (rc_data c))); [lia|].
  destruct (Z.ltb_spec (len pre + (12 + len (rc_data c) + len rest))
              (len pre + 8 + len (rc_data c) + 4)); [lia|].
  cbv iota. simpl orb. cbv iota.
  assert (Htype :
    slice (pre ++ encode_chunk c ++ rest) (len pre + 4) (len pre + 8)
    = rc_type c).
  { apply slice_at with (pre := pre ++ u32be (len (rc_data c)))
                        (post := rc_data c ++ rc_crc c ++ rest).
    - unfold encode_chunk. rewrite <- !app_assoc. reflexivity.
    - rewrite len_app. reflexivity.
    - unfold len. rewrite length_app, Ht. simpl length. lia. }
  assert (Hdata :
    slice (pre ++ encode_chunk c ++ rest) (len pre + 8)
      (len pre + 8 + len (rc_data c))
    = rc_data c).
  { apply slice_at with (pre := pre ++ u32be (len (rc_data c)) ++ rc_type c)
                        (post := rc_crc c ++ rest).
    - unfold encode_chunk. rewrite <- !app_assoc. reflexivity.
    - unfold len. rewrite !length_app, Ht. simpl length. lia.
    - unfold len. rewrite !length_app, Ht. simpl length. lia. }
  rewrite Htype, Hdata.
  unfold decode_chunk, has_type.
  destruct (str_eqb (decodeLatin1 (rc_type c)) (lit "tEXt")) eqn:E1.
  { apply str_eqb_eq in E1. rewrite E1. simpl str_eqb. cbv iota.
    unfold push_parsed. destruct (parse_tEXt (rc_data c));
      [|rewrite app_nil_r]; f_equal; lia. }
  destruct (str_eqb (decodeLatin1 (rc_type c)) (lit "zTXt")) eqn:E2.
  { apply str_eqb_eq in E2. rewrite E2. simpl str_eqb. cbv iota.
    unfold push_parsed.
    destruct (parse_zTXt decompress TextDecoder_decode (rc_data c));
      [|rewrite app_nil_r]; f_equal; lia. }
  destruct (str_eqb (decodeLatin1 (rc_type c)) (lit "iTXt")) eqn:E3.
  { apply str_eqb_eq in E3. rewrite E3. simpl str_eqb. cbv iota.
    unfold push_parsed.
    destruct (parse_iTXt decompress TextDecoder_decode (rc_data c));
      [|rewrite app_nil_r]; f_equal; lia. }
  destruct (str_eqb (decodeLatin1 (rc_type c)) (lit "IEND"));
    [reflexivity|].
  rewrite app_nil_r. f_equal. lia.
Qed.

(** The loop over a run of whole chunks, followed by anything. *)
Lemma scan_chunks (cs : list RawChunk) :
  forall (pre rest : list byte) (chunks : list PngTextChunk),
    Forall well_formed_chunk cs ->
    loop (pre ++ encode_chunks cs ++ rest) (len pre) chunks
    = if existsb (has_type "IEND") cs
      then Return (chunks ++ texts (before_IEND cs))
      else
        loop (pre ++ encode_chunks cs ++ rest)
          (len pre + len (encode_chunks cs)) (chunks ++ texts cs).
Proof.
  induction cs as [|c cs IH]; intros pre rest chunks Hwf.
  - simpl. rewrite Z.add_0_r, app_nil_r. reflexivity.
  - inversion Hwf as [|? ? Hc Hcs]; subst.
    pose proof (len_encode_chunk c Hc) as Henc.
    pose proof (len_nonneg (rc_data c)) as Hd0.
    pose proof (len_nonneg (encode_chunks cs)) as Hcs0.
    pose proof (len_nonneg rest) as Hr0.
    change (encode_chunks (c :: cs)) with (encode_chunk c ++ encode_chunks cs).
    rewrite <- app_assoc. rewrite scan_step.
    rewrite loop_body_chunk by exact Hc.
    rewrite !len_app, Henc.
    destruct (Z.leb_spec (len pre + 8)
                (len pre + (12 + len (rc_data c)
                            + (len (encode_chunks cs) + len rest))));
      [|lia].
    simpl existsb. simpl before_IEND.
    destruct (has_type "IEND" c) eqn:Hend.
    + simpl. rewrite app_nil_r. reflexivity.
    + simpl orb.
      replace (pre ++ encode_chunk c ++ encode_chunks cs ++ rest)
        with ((pre ++ encode_chunk c) ++ encode_chunks cs ++ rest)
        by (rewrite <- app_assoc; reflexivity).
      replace (len pre + (12 + len (rc_data c)))%Z
        with (len (pre ++ encode_chunk c)) by (rewrite len_app; lia).
      rewrite IH by exact Hcs.
      unfold decoded. simpl flat_map.
      rewrite !len_app, <- !app_assoc, Henc.
      destruct (existsb (has_type "IEND") cs); [reflexivity|].
      f_equal. lia.
Qed.

Lemma before_IEND_all (cs : list RawChunk) :
  existsb (has_type "IEND") cs = false -> before_IEND cs = cs.
Proof.
  induction cs as [|c cs IH]; simpl; [reflexivity|].
  destruct (has_type "IEND" c); [discriminate|].
  intros H. rewrite IH by exact H. reflexivity.
Qed.

Lemma read_signed (rest : list byte) :
  read (PNG_SIGNATURE ++ rest) = loop (PNG_SIGNATURE ++ rest) 8 [].
Proof.
  unfold extractPngTextChunks.
  rewrite (slice_at (PNG_SIGNATURE ++ rest) [] PNG_SIGNATURE rest 0 8)
    by reflexivity.
  rewrite len_app. pose proof (len_nonneg rest).
  change (len PNG_SIGNATURE) with 8%Z.
  destruct (Z.ltb_spec (8 + len rest) 8); [lia|]. reflexivity.
Qed.

(** The reader over a signed run of whole chunks, followed by the start
    of a chunk that is cut short (or by nothing). *)
Lemma read_chunks (cs : list RawChunk) (t : list byte) :
  Forall well_formed_chunk cs -> truncated t ->
  read (PNG_SIGNATURE ++ encode_chunks cs ++ t)
  = Return (texts (before_IEND cs)).
Proof.
  intros Hwf Ht. rewrite read_signed.
  change 8%Z with (len PNG_SIGNATURE).
  rewrite scan_chunks by exact Hwf.
  destruct (existsb (has_type "IEND") cs) eqn:Hend; [reflexivity|].
  rewrite (before_IEND_all cs Hend), app_assoc, <- len_app.
  apply scan_truncated, Ht.
Qed.

Lemma truncated_nil : truncated [].
Proof. left. unfold len; simpl. lia. Qed.

(** C5. The reader fails with the format error exactly when the buffer
    is shorter than 8 bytes or does not start with the signature 137 80 78
    71 13 10 26 10; on every other buffer it returns a chunk list, and a
    declared span that runs past the end of the buffer ends the scan with
    the chunks collected so far, without error. *)
Theorem extractPngTextChunks_format_error (bytes : list byte) :
  map Byte.to_N PNG_SIGNATURE = [137; 80; 78; 71; 13; 10; 26; 10]%N
  /\ (read bytes = Throw (Error_ "File non sembra un PNG valido.")
      <-> length bytes < 8 \/ firstn 8 bytes <> PNG_SIGNATURE)
  /\ (length bytes >= 8 -> firstn 8 bytes = PNG_SIGNATURE ->
      exists found, read bytes = Return found)
  /\ (forall e, read bytes = Throw e ->
                e = Error_ "File non sembra un PNG valido.")
  /\ (forall (cs : list RawChunk) (t : list byte),
         bytes = PNG_SIGNATURE ++ encode_chunks cs ++ t ->
         Forall well_formed_chunk cs -> truncated t ->
         read bytes = Return (texts (before_IEND cs))).
Proof.
  split; [reflexivity|].
  assert (Hcases :
    (length bytes < 8 \/ firstn 8 bytes <> PNG_SIGNATURE)
    /\ read bytes = Throw (Error_ "File non sembra un PNG valido.")
    \/ ~ (length bytes < 8 \/ firstn 8 bytes <> PNG_SIGNATURE)
       /\ exists found, read bytes = Return found).
  { unfold extractPngTextChunks.
    destruct (Z.ltb_spec (len bytes) 8) as [Hshort|Hlong]; cbn [orb].
    - left. split; [left; unfold len in Hshort; lia | reflexivity].
    - rewrite slice_0_8 by exact Hlong.
      destruct (bytesEqual (firstn 8 bytes) PNG_SIGNATURE) eqn:Hsig;
        cbn [negb].
      + right. apply (proj1 (bytesEqual_eq _ _)) in Hsig. split.
        * unfold len in Hlong. intros [H|H]; [lia | contradiction].
        * apply scan_returns. lia.
      + left. split; [right | reflexivity].
        intros Heq. apply (proj2 (bytesEqual_eq _ _)) in Heq. congruence. }
  split; [|split; [|split]].
  - destruct Hcases as [[Hbad ->] | [Hok (found & ->)]].
    + split; [intros _; exact Hbad | reflexivity].
    + split; [discriminate | intros Hbad; contradiction].
  - intros Hlen Hsig.
    destruct Hcases as [[[Hbad|Hbad] _] | [_ Hret]];
      [lia | contradiction | exact Hret].
  - intros e He.
    destruct Hcases as [[_ Hthrow] | [_ (found & Hret)]]; congruence.
  - intros cs t -> Hwf Ht. apply read_chunks; assumption.
Qed.

(** C6. On a buffer made of the signature and whole chunks, the reader
    returns, in stream order, the text chunks that the tEXt, zTXt and iTXt
    chunks in front of the first IEND decode to: nothing after IEND is
    looked at, a chunk of any other type is skipped without being decoded,
    and a text chunk that fails to decode is left out while the scan goes
    on. *)
Theorem extractPngTextChunks_well_formed (cs : list RawChunk) :
  Forall well_formed_chunk cs ->
  read (PNG_SIGNATURE ++ encode_chunks cs)
  = Return
      (flat_map
         (fun c =>
            match
              (if has_type "tEXt" c then parse_tEXt (rc_data c)
               else if has_type "zTXt" c
               then parse_zTXt decompress TextDecoder_decode (rc_data c)
               else if has_type "iTXt" c
               then parse_iTXt decompress TextDecoder_decode (rc_data c)
               else None)
            with
            | Some t => [t]
            | None => []
            end)
         (before_IEND cs)).
Proof.
  intros Hwf.
  rewrite <- (app_nil_r (encode_chunks cs)).
  apply (read_chunks cs [] Hwf truncated_nil).
Qed.

(** ** Decompression *)

Lemma inflateZlib_first (payload : list byte) :
  inflateZlib decompress payload
  = match decompress deflate payload with
    | Some plain => ([deflate], Some plain)
    | None => ([deflate; deflate_raw], decompress deflate_raw payload)
    end.
Proof.
  unfold inflateZlib, tryStream.
  destruct (decompress deflate payload); reflexivity.
Qed.

Lemma snd_inflateZlib (payload : list byte) :
  snd (inflateZlib decompress payload) = first_inflated decompress payload.
Proof.
  rewrite inflateZlib_first. unfold first_inflated.
  destruct (decompress deflate payload); reflexivity.
Qed.

Lemma parse_zTXt_data (kw payload : list byte) :
  no_NUL kw ->
  parse_zTXt decompress TextDecoder_decode (zTXt_data kw payload)
  = option_map
      (fun plain => mkChunk zTXt (decodeLatin1 kw) (TextDecoder_decode plain))
      (first_inflated decompress payload).
Proof.
  intros Hkw. unfold parse_zTXt, zTXt_data.
  pose proof (len_nonneg kw) as Hk0.
  set (data := kw ++ [x00; x00] ++ payload).
  assert (Hend : findNullByte data 0 = len kw).
  { exact (findNullByte_sep [] kw _ 0 Hkw eq_refl). }
  assert (Hmethod : at_ data (len kw + 1) = Some x00).
  { unfold data.
    replace (kw ++ [x00; x00] ++ payload)
      with ((kw ++ [x00]) ++ x00 :: payload)
      by (rewrite <- app_assoc; reflexivity).
    apply at_app. rewrite len_app. reflexivity. }
  rewrite Hend, Hmethod.
  destruct (Z.ltb_spec (len kw) 0); [lia|].
  simpl not_zero. cbv iota.
  rewrite (slice_at data [] kw ([x00; x00] ++ payload) 0 (len kw))
    by reflexivity.
  rewrite (slice_from_at data (kw ++ [x00; x00]) payload (len kw + 2)).
  - rewrite snd_inflateZlib.
    destruct (first_inflated decompress payload); reflexivity.
  - unfold data. rewrite <- app_assoc. reflexivity.
  - rewrite len_app. reflexivity.
Qed.

Lemma parse_iTXt_compressed (kw lang translated payload : list byte) :
  no_NUL kw -> no_NUL lang -> no_NUL translated ->
  parse_iTXt decompress TextDecoder_decode
    (iTXt_compressed_data kw lang translated payload)
  = option_map
      (fun plain => mkChunk iTXt (decodeLatin1 kw) (TextDecoder_decode plain))
      (first_inflated decompress payload).
Proof.
  intros Hkw Hlang Htr. unfold parse_iTXt, iTXt_compressed_data.
  pose proof (len_nonneg kw) as Hk0. pose proof (len_nonneg lang) as Hl0.
  pose proof (len_nonneg translated) as Ht0.
  set (data := kw ++ [x00; x01; x00] ++ lang ++ [x00] ++ translated
                  ++ [x00] ++ payload).
  assert (Hend : findNullByte data 0 = len kw).
  { exact (findNullByte_sep [] kw _ 0 Hkw eq_refl). }
  rewrite Hend.
  destruct (Z.ltb_spec (len kw) 0); [lia|].
  assert (Hflag : at_ data (len kw + 1) = Some x01).
  { replace data
      with ((kw ++ [x00]) ++ x01 :: x00 :: lang ++ [x00] ++ translated
                ++ [x00] ++ payload)
      by (unfold data; rewrite <- !app_assoc; reflexivity).
    apply at_app. rewrite len_app. reflexivity. }
  assert (Hmethod : at_ data (len kw + 2) = Some x00).
  { replace data
      with ((kw ++ [x00; x01]) ++ x00 :: lang ++ [x00] ++ translated
                ++ [x00] ++ payload)
      by (unfold data; rewrite <- !app_assoc; reflexivity).
    apply at_app. rewrite len_app. reflexivity. }
  assert (Hlangend : findNullByte data (len kw + 3) = (len kw + 3 + len lang)%Z).
  { replace data
      with ((kw ++ [x00; x01; x00]) ++ lang ++ x00 :: translated
                ++ [x00] ++ payload)
      by (unfold data; rewrite <- !app_assoc; reflexivity).
    rewrite findNullByte_sep by (assumption || (rewrite len_app; reflexivity)).
    rewrite len_app. reflexivity. }
  assert (Htrend :
    findNullByte data (len kw + 3 + len lang + 1)
    = (len kw + 3 + len lang + 1 + len translated)%Z).
  { replace data
      with ((kw ++ [x00; x01; x00] ++ lang ++ [x00]) ++ translated
                ++ x00 :: payload)
      by (unfold data; rewrite <- !app_assoc; reflexivity).
    rewrite findNullByte_sep by (assumption || (len_sum; lia)).
    len_sum. lia. }
  rewrite Hflag, Hmethod, Hlangend.
  destruct (Z.ltb_spec (len kw + 3 + len lang) 0); [lia|].
  rewrite Htrend.
  destruct (Z.ltb_spec (len kw + 3 + len lang + 1 + len translated) 0);
    [lia|].
  simpl not_zero. cbv iota.
  rewrite (slice_at data [] kw _ 0 (len kw)) by reflexivity.
  rewrite (slice_from_at data
             (kw ++ [x00; x01; x00] ++ lang ++ [x00] ++ translated ++ [x00])
             payload).
  - rewrite snd_inflateZlib.
    destruct (first_inflated decompress payload); reflexivity.
  - unfold data. rewrite <- !app_assoc. reflexivity.
  - len_sum. lia.
Qed.

Lemma texts_skip (cs1 cs2 : list RawChunk) (c : RawChunk) :
  has_type "IEND" c = false -> decode c = None ->
  texts (before_IEND (cs1 ++ c :: cs2)) = texts (before_IEND (cs1 ++ cs2)).
Proof.
  intros Hend Hdec. induction cs1 as [|c1 cs1 IH]; simpl.
  - rewrite Hend. unfold decoded at 1. simpl. rewrite Hdec. reflexivity.
  - destruct (has_type "IEND" c1); [reflexivity|].
    unfold decoded in *. simpl. rewrite IH. reflexivity.
Qed.

(** C7. Decompression tries the zlib-framed reading of the payload first
    and the raw reading only when the first fails, and answers the first
    success; a zTXt chunk, and an iTXt chunk with compression flag 1,
    decode to the text of that first success.  When both readings fail the
    chunk alone is dropped: the reader returns what it returns on the same
    stream without that chunk. *)
Theorem inflate_fallback_then_drop
        (kw lang translated payload crc : list byte) :
  no_NUL kw -> no_NUL lang -> no_NUL translated ->
  let zchunk := mkRaw code_zTXt (zTXt_data kw payload) crc in
  let ichunk :=
    mkRaw code_iTXt (iTXt_compressed_data kw lang translated payload) crc in
  let first_success :=
    match decompress deflate payload with
    | Some plain => Some plain
    | None => decompress deflate_raw payload
    end in
  inflateZlib decompress payload
  = match decompress deflate payload with
    | Some plain => ([deflate], Some plain)
    | None => ([deflate; deflate_raw], decompress deflate_raw payload)
    end
  /\ decode zchunk
     = option_map
         (fun plain =>
            mkChunk zTXt (decodeLatin1 kw) (TextDecoder_decode plain))
         first_success
  /\ decode ichunk
     = option_map
         (fun plain =>
            mkChunk iTXt (decodeLatin1 kw) (TextDecoder_decode plain))
         first_success
  /\ (first_success = None ->
      forall (cs1 cs2 : list RawChunk) (c : RawChunk),
        c = zchunk \/ c = ichunk ->
        Forall well_formed_chunk (cs1 ++ c :: cs2) ->
        read (PNG_SIGNATURE ++ encode_chunks (cs1 ++ c :: cs2))
        = read (PNG_SIGNATURE ++ encode_chunks (cs1 ++ cs2))
        /\ read (PNG_SIGNATURE ++ encode_chunks (cs1 ++ c :: cs2))
           = Return (texts (before_IEND (cs1 ++ cs2)))).
Proof.
  intros Hkw Hlang Htr zchunk ichunk first_success.
  assert (Hz : decode zchunk
               = option_map
                   (fun plain =>
                      mkChunk zTXt (decodeLatin1 kw) (TextDecoder_decode plain))
                   first_success).
  { unfold decode_chunk, zchunk. change (has_type "tEXt" _) with false.
    change (has_type "zTXt" _) with true. cbv iota.
    apply parse_zTXt_data, Hkw. }
  assert (Hi : decode ichunk
               = option_map
                   (fun plain =>
                      mkChunk iTXt (decodeLatin1 kw) (TextDecoder_decode plain))
                   first_success).
  { unfold decode_chunk, ichunk. change (has_type "tEXt" _) with false.
    change (has_type "zTXt" _) with false.
    change (has_type "iTXt" _) with true. cbv iota.
    apply parse_iTXt_compressed; assumption. }
  split; [apply inflateZlib_first|].
  split; [exact Hz|]. split; [exact Hi|].
  intros Hnone cs1 cs2 c Hc Hwf.
  assert (Hdrop : has_type "IEND" c = false /\ decode c = None).
  { destruct Hc as [-> | ->]; (split; [reflexivity|]).
    - rewrite Hz, Hnone. reflexivity.
    - rewrite Hi, Hnone. reflexivity. }
  destruct Hdrop as [Hend Hdec].
  assert (Hwf' : Forall well_formed_chunk (cs1 ++ cs2)).
  { apply Forall_app in Hwf as [H1 H2]. inversion H2; subst.
    apply Forall_app; split; assumption. }
  rewrite <- (app_nil_r (encode_chunks (cs1 ++ c :: cs2))).
  rewrite <- (app_nil_r (encode_chunks (cs1 ++ cs2))).
  rewrite !read_chunks by (assumption || apply truncated_nil).
  rewrite (texts_skip cs1 cs2 c Hend Hdec). split; reflexivity.
Qed.

End PngFacts.

(** ** Runs on concrete buffers *)

Lemma extractPngTextChunks_format_error_witness :
  let read :=
    extractPngTextChunks HostStreams.decompress HostStreams.TextDecoder_decode in
  let cs := [mkRaw code_tEXt [x41; x62; x00; x63; x64] [x01; x02; x03; x04]] in
  let cut := [xff; xff; xff; xff; x74; x45; x58; x74; x41; x62] in
  read (PNG_SIGNATURE ++ encode_chunks cs ++ cut)
  = Return [mkChunk tEXt (lit "Ab") (lit "cd")]
  /\ (exists found, read (PNG_SIGNATURE ++ [x00; x00; x00]) = Return found)
  /\ read [x89; x50; x4e; x47]
     = Throw (Error_ "File non sembra un PNG valido.")
  /\ read (x00 :: PNG_SIGNATURE ++ encode_chunks cs)
     = Throw (Error_ "File non sembra un PNG valido.").
Proof.
  intros read cs cut. split; [|split; [|split]].
  - destruct (extractPngTextChunks_format_error
                HostStreams.decompress HostStreams.TextDecoder_decode
                (PNG_SIGNATURE ++ encode_chunks cs ++ cut))
      as (_ & _ & _ & _ & Hcut).
    unfold read. rewrite (Hcut cs cut eq_refl).
    + reflexivity.
    + constructor; [|constructor].
      split; [reflexivity | split; [reflexivity | reflexivity]].
    + right. exists 4294967295%Z. split; reflexivity.
  - apply (extractPngTextChunks_format_error
             HostStreams.decompress HostStreams.TextDecoder_decode
             (PNG_SIGNATURE ++ [x00; x00; x00])); [simpl; lia | reflexivity].
  - apply (extractPngTextChunks_format_error
             HostStreams.decompress HostStreams.TextDecoder_decode
             [x89; x50; x4e; x47]).
    left. simpl. lia.
  - apply (extractPngTextChunks_format_error
             HostStreams.decompress HostStreams.TextDecoder_decode
             (x00 :: PNG_SIGNATURE ++ encode_chunks cs)).
    right. discriminate.
Defined.

Lemma extractPngTextChunks_well_formed_witness :
  let zlib_hi :=
    [x78; x01; x01; x02; x00; xfd; xff; x68; x69; x01; x3b; x00; xd2] in
  let cs :=
    [ mkRaw [x49; x48; x44; x52] [x00; x00; x00; x01] [x00; x00; x00; x00];
      mkRaw code_tEXt [x41; x62; x00; x63; x64] [x01; x02; x03; x04];
      mkRaw code_zTXt (zTXt_data [x6b] zlib_hi) [x00; x00; x00; x00];
      mkRaw code_tEXt [x41; x62] [x00; x00; x00; x00];
      mkRaw code_iTXt ([x6b; x00; x00; x00; x65; x6e; x00; x00; x68; x6f])
        [x00; x00; x00; x00];
      mkRaw code_IEND [] [xae; x42; x60; x82];
      mkRaw code_tEXt [x41; x00; x42] [x00; x00; x00; x00] ] in
  Forall well_formed_chunk cs
  /\ extractPngTextChunks HostStreams.decompress HostStreams.TextDecoder_decode
       (PNG_SIGNATURE ++ encode_chunks cs)
     = Return
         [ mkChunk tEXt (lit "Ab") (lit "cd");
           mkChunk zTXt (lit "k") (lit "hi");
           mkChunk iTXt (lit "k") (lit "ho") ].
Proof.
  intros zlib_hi cs.
  assert (Hwf : Forall well_formed_chunk cs).
  { repeat constructor. }
  split; [exact Hwf|].
  rewrite (extractPngTextChunks_well_formed
             HostStreams.decompress HostStreams.TextDecoder_decode cs Hwf).
  reflexivity.
Defined.

Lemma inflate_fallback_then_drop_witness :
  let read :=
    extractPngTextChunks HostStreams.decompress HostStreams.TextDecoder_decode in
  let raw_hi := [x01; x02; x00; xfd; xff; x68; x69] in
  let junk := [xff; xff] in
  let crc := [x00; x00; x00; x00] in
  let first := mkRaw code_tEXt [x41; x62; x00; x63; x64] crc in
  let last := mkRaw code_tEXt [x41; x00; x42] crc in
  inflateZlib HostStreams.decompress raw_hi
  = ([deflate; deflate_raw], Some [x68; x69])
  /\ decode_chunk HostStreams.decompress HostStreams.TextDecoder_decode
       (mkRaw code_zTXt (zTXt_data [x6b] raw_hi) crc)
     = Some (mkChunk zTXt (lit "k") (lit "hi"))
  /\ inflateZlib HostStreams.decompress junk
     = ([deflate; deflate_raw], None)
  /\ read
       (PNG_SIGNATURE
        ++ encode_chunks [first; mkRaw code_zTXt (zTXt_data [x6b] junk) crc; last])
     = Return [mkChunk tEXt (lit "Ab") (lit "cd"); mkChunk tEXt (lit "A") (lit "B")]
  /\ read
       (PNG_SIGNATURE
        ++ encode_chunks
             [first;
              mkRaw code_iTXt
                (iTXt_compressed_data [x6b] [x65; x6e] [] junk) crc;
              last])
     = read (PNG_SIGNATURE ++ encode_chunks [first; last]).
Proof.
  intros read raw_hi junk crc first last.
  assert (Hk : no_NUL [x6b]) by (intros [H|[]]; discriminate H).
  assert (Hl : no_NUL [x65; x6e])
    by (intros [H|[H|[]]]; discriminate H).
  assert (Hn : no_NUL []) by (intros []).
  destruct (inflate_fallback_then_drop
              HostStreams.decompress HostStreams.TextDecoder_decode
              [x6b] [x65; x6e] [] raw_hi crc Hk Hl Hn)
    as (Htried & Hz & _ & _).
  destruct (inflate_fallback_then_drop
              HostStreams.decompress HostStreams.TextDecoder_decode
              [x6b] [x65; x6e] [] junk crc Hk Hl Hn)
    as (Htried' & _ & _ & Hdrop).
  split; [rewrite Htried; reflexivity|].
  split; [rewrite Hz; reflexivity|].
  split; [rewrite Htried'; reflexivity|].
  split.
  - destruct (Hdrop eq_refl [first] [last]
                (mkRaw code_zTXt (zTXt_data [x6b] junk) crc))
      as [_ Hret].
    + left; reflexivity.
    + repeat constructor.
    + etransitivity; [exact Hret | reflexivity].
  - destruct (Hdrop eq_refl [first] [last]
                (mkRaw code_iTXt
                   (iTXt_compressed_data [x6b] [x65; x6e] [] junk) crc))
      as [Hsame _].
    + right; reflexivity.
    + repeat constructor.
    + exact Hsame.
Defined.

(** ** The examples of the description, run on the host models *)

Example wrapper_examples :
  map (isPromptWrapperJson JsonText.JSON_parse)
    [jlit "{'prompt':'x'}"; jlit "{'prompt':'x','other':1}"; jlit "{'foo':'x'}";
     jlit " {'prompt':'x'} "; jlit "{'prompt':1}"; jlit "['prompt']"]
  = [true; false; false; true; false; false].
Proof. reflexivity. Qed.

Example pickBestString_examples :
  pickBestString JsonText.JSON_parse
    [lit "short"; lit "a much longer candidate string here"]
  = Some (lit "a much longer candidate string here")
  /\ pickBestString JsonText.JSON_parse [jlit "{'prompt':'x'}"] = None
  /\ pickBestString JsonText.JSON_parse [lit " ab"; lit "cd "; lit "e"]
     = Some (lit "ab").
Proof. repeat split; reflexivity. Qed.

Example scenario_metadata :
  extractPositivePromptFromTextBlobs
    JsonText.JSON_parse JsonText.Number_toString
    [jlit "{'raw_workflow':'{\'3\':{\'inputs\':{\'positive\':\'a cat sitting on a wall\'}}}'}"]
  = Return
      (mkResult (Some (lit "a cat sitting on a wall"))
         (Some (lit "metadata-json"))).
Proof. reflexivity. Qed.

Example scenario_wrapper_only :
  extractPositivePromptFromTextBlobs
    JsonText.JSON_parse JsonText.Number_toString [jlit "{'prompt':'short'}"]
  = Return (mkResult None None).
Proof. reflexivity. Qed.

Example scenario_newlines :
  normalizePrompt (lit " a\r\nb\nc ") = [97; 10; 98; 10; 99]%N
  /\ normalizePrompt [97; 13; 10; 98]%N = [97; 10; 98]%N.
Proof. split; reflexivity. Qed.

Example String_examples :
  String_ JsonText.Number_toString
    (JArr [JStr (lit "Positive"); JNull; JNum (lit "1"); JArr [JBool true];
           JObj [(lit "valueOf", JNum (lit "1"))]])
  = Return (lit "Positive,,1,true,[object Object]")
  /\ String_ JsonText.Number_toString (JObj [(lit "toString", JNum (lit "1"))])
     = Throw TypeError_
  /\ String_ JsonText.Number_toString
       (JArr [JStr (lit "a"); JArr [JObj [(lit "toString", JNull)]]])
     = Throw TypeError_.
Proof. repeat split; reflexivity. Qed.

(** A node whose class_type cannot be read as text ends the whole
    extraction, in whatever phase it is met, also when another node or
    another blob has a prompt to give. *)
Example scenario_conversion_fails :
  let J := JsonText.JSON_parse in
  let N := JsonText.Number_toString in
  extractFromRawWorkflow J N
    (jlit "{'3':{'inputs':{'positive':'a cat'}},'4':{'class_type':{'toString':1}}}")
  = Throw TypeError_
  /\ extractPositivePromptFromTextBlobs J N
       [jlit "{'3':{'class_type':{'toString':1}}}";
        jlit "{'4':{'inputs':{'positive':'a cat'}}}"]
     = Throw TypeError_
  /\ extractPositivePromptFromTextBlobs J N
       [jlit "{'4':{'inputs':{'positive':'a cat'}}}";
        jlit "{'3':{'class_type':{'toString':1}}}"]
     = Return (mkResult (Some (lit "a cat")) (Some (lit "raw_workflow-json")))
  /\ extractPositivePromptFromTextBlobs J N
       [jlit "{'raw_workflow':'{\'3\':{\'_meta\':{\'title\':[{\'toString\':0}]}}}'}";
        jlit "{'positive':'x'}"]
     = Throw TypeError_.
Proof. cbv zeta. repeat split; reflexivity. Qed.

(** * Further properties of the chunk reader *)

Lemma find_null_range (l : list byte) (i : Z) :
  find_null l i = (-1)%Z /\ no_NUL l
  \/ (i <= find_null l i < i + len l)%Z /\ In x00 l.
Proof.
  revert i; induction l as [|b l IH]; intros i; simpl.
  - left. split; [reflexivity | intros []].
  - rewrite len_cons. pose proof (len_nonneg l).
    destruct (Byte.eqb b x00) eqn:E.
    + apply Byte.byte_dec_bl in E. subst b. right.
      split; [lia | left; reflexivity].
    + destruct (IH (i + 1)%Z) as [[-> Hno] | [Hr Hin]].
      * left. split; [reflexivity|]. intros [Hb | Hin]; [|exact (Hno Hin)].
        subst b. discriminate E.
      * right. split; [lia | right; exact Hin].
Qed.

Lemma findNullByte_none (pre l : list byte) :
  no_NUL l -> findNullByte (pre ++ l) (len pre) = (-1)%Z.
Proof.
  intros Hno. unfold findNullByte, len. rewrite Nat2Z.id.
  rewrite skipn_app, skipn_all, Nat.sub_diag. simpl.
  destruct (find_null_range l (Z.of_nat (length pre))) as [[H _] | [_ Hin]];
    [exact H | contradiction].
Qed.

Lemma findNullByte_first (kw rest : list byte) :
  no_NUL kw -> findNullByte (kw ++ x00 :: rest) 0 = len kw.
Proof. intros Hkw. exact (findNullByte_sep [] kw rest 0 Hkw eq_refl). Qed.

Lemma eqb_x00_false (b : byte) : b <> x00 -> Byte.eqb b x00 = false.
Proof.
  intros Hb. destruct (Byte.eqb b x00) eqn:E; [|reflexivity].
  apply Byte.byte_dec_bl in E. contradiction.
Qed.

Lemma flag_not_one (A : Type) (flag : byte) (compressed plain : A) :
  flag <> x01 ->
  match Some flag with
  | Some x01 => compressed
  | _ => plain
  end = plain.
Proof. intros Hf. destruct flag; try reflexivity. contradiction. Qed.

(** X1. A tEXt payload is split at its first NUL: the bytes in front are
    the keyword, everything behind, NULs included, is the text, each byte
    read as one Latin-1 code unit. *)
Theorem parse_tEXt_round_trip (kw txt : list byte) :
  no_NUL kw ->
  parse_tEXt (kw ++ x00 :: txt)
  = Some (mkChunk tEXt (decodeLatin1 kw) (decodeLatin1 txt)).
Proof.
  intros Hkw. unfold parse_tEXt. pose proof (len_nonneg kw).
  rewrite (findNullByte_first kw txt Hkw).
  destruct (Z.ltb_spec (len kw) 0); [lia|].
  rewrite (slice_at _ [] kw (x00 :: txt) 0 (len kw)) by reflexivity.
  rewrite (slice_from_at _ (kw ++ [x00]) txt (len kw + 1)).
  - reflexivity.
  - rewrite <- app_assoc. reflexivity.
  - rewrite len_app. reflexivity.
Qed.

(** X2. parse_tEXt fails exactly on the payloads without a NUL byte. *)
Theorem parse_tEXt_none_iff (data : list byte) :
  parse_tEXt data = None <-> no_NUL data.
Proof.
  unfold parse_tEXt, findNullByte. simpl skipn.
  destruct (find_null_range data 0) as [[-> Hno] | [Hr Hin]].
  - simpl. split; [intros _; exact Hno | reflexivity].
  - destruct (Z.ltb_spec (find_null data 0) 0); [lia|].
    split; [discriminate | intros Hno; contradiction].
Qed.

Section ReaderMore.

Variable decompress : stream_format -> list byte -> option (list byte).
Variable TextDecoder_decode : list byte -> js_string.

Local Abbreviation read := (extractPngTextChunks decompress TextDecoder_decode).
Local Abbreviation loop := (scan decompress TextDecoder_decode).
Local Abbreviation texts := (decoded decompress TextDecoder_decode).

Lemma iTXt_fields (kw : list byte) (flag method : byte)
      (lang translated payload : list byte) :
  no_NUL kw -> no_NUL lang -> no_NUL translated ->
  let data := iTXt_data kw flag method lang translated payload in
  findNullByte data 0 = len kw
  /\ at_ data (len kw + 1) = Some flag
  /\ at_ data (len kw + 2) = Some method
  /\ findNullByte data (len kw + 3) = (len kw + 3 + len lang)%Z
  /\ findNullByte data (len kw + 3 + len lang + 1)
     = (len kw + 3 + len lang + 1 + len translated)%Z
  /\ slice data 0 (len kw) = kw
  /\ slice_from data (len kw + 3 + len lang + 1 + len translated + 1)
     = payload.
Proof.
  intros Hkw Hlang Htr data.
  split; [exact (findNullByte_sep [] kw _ 0 Hkw eq_refl)|].
  split.
  { replace data
      with ((kw ++ [x00]) ++ flag :: method :: lang ++ [x00] ++ translated
                ++ [x00] ++ payload)
      by (unfold data, iTXt_data; rewrite <- !app_assoc; reflexivity).
    apply at_app. rewrite len_app. reflexivity. }
  split.
  { replace data
      with ((kw ++ [x00; flag]) ++ method :: lang ++ [x00] ++ translated
                ++ [x00] ++ payload)
      by (unfold data, iTXt_data; rewrite <- !app_assoc; reflexivity).
    apply at_app. rewrite len_app. reflexivity. }
  split.
  { replace data
      with ((kw ++ [x00; flag; method]) ++ lang ++ x00 :: translated
                ++ [x00] ++ payload)
      by (unfold data, iTXt_data; rewrite <- !app_assoc; reflexivity).
    rewrite findNullByte_sep by (assumption || (rewrite len_app; reflexivity)).
    rewrite len_app. reflexivity. }
  split.
  { replace data
      with ((kw ++ [x00; flag; method] ++ lang ++ [x00]) ++ translated
                ++ x00 :: payload)
      by (unfold data, iTXt_data; rewrite <- !app_assoc; reflexivity).
    rewrite findNullByte_sep by (assumption || (len_sum; lia)).
    len_sum. lia. }
  split.
  { apply (slice_at data [] kw
             ([x00; flag; method] ++ lang ++ [x00] ++ translated
                ++ [x00] ++ payload)); reflexivity. }
  apply (slice_from_at data
           (kw ++ [x00; flag; method] ++ lang ++ [x00] ++ translated ++ [x00])).
  - unfold data, iTXt_data. rewrite <- !app_assoc. reflexivity.
  - len_sum. lia.
Qed.

(** X3. An iTXt payload whose compression flag is anything but 1 is not
    decompressed: its text is the UTF-8 decoding of the bytes behind the
    third NUL, whatever the method byte says; the language tag and the
    translated keyword are dropped, and the keyword is read as Latin-1. *)
Theorem parse_iTXt_plain (kw : list byte) (flag method : byte)
        (lang translated payload : list byte) :
  no_NUL kw -> no_NUL lang -> no_NUL translated -> flag <> x01 ->
  parse_iTXt decompress TextDecoder_decode
    (iTXt_data kw flag method lang translated payload)
  = Some (mkChunk iTXt (decodeLatin1 kw) (TextDecoder_decode payload)).
Proof.
  intros Hkw Hlang Htr Hflag.
  destruct (iTXt_fields kw flag method lang translated payload Hkw Hlang Htr)
    as (Hend & Hf & Hm & Hlangend & Htrend & Hkey & Hpay).
  pose proof (len_nonneg kw). pose proof (len_nonneg lang).
  pose proof (len_nonneg translated).
  unfold parse_iTXt. rewrite Hend.
  destruct (Z.ltb_spec (len kw) 0); [lia|].
  rewrite Hf, Hm, Hlangend.
  destruct (Z.ltb_spec (len kw + 3 + len lang) 0); [lia|].
  rewrite Htrend.
  destruct (Z.ltb_spec (len kw + 3 + len lang + 1 + len translated) 0);
    [lia|].
  rewrite Hkey, Hpay. cbv zeta.
  rewrite (flag_not_one _ flag _ _ Hflag). reflexivity.
Qed.

(** X4. A compression method other than 0 drops the chunk, whatever
    bytes follow and whatever the decompressor of the host would make of
    them: a zTXt payload with such a method byte, or with no method byte
    at all, and an iTXt payload with flag 1 and such a method byte decode
    to nothing. *)
Theorem unknown_compression_method (kw rest : list byte) (method : byte) :
  no_NUL kw -> method <> x00 ->
  parse_zTXt decompress TextDecoder_decode (kw ++ x00 :: method :: rest) = None
  /\ parse_zTXt decompress TextDecoder_decode (kw ++ [x00]) = None
  /\ parse_iTXt decompress TextDecoder_decode
       (kw ++ x00 :: x01 :: method :: rest) = None.
Proof.
  intros Hkw Hm. pose proof (len_nonneg kw).
  pose proof (eqb_x00_false method Hm) as Hnz.
  split; [|split].
  - unfold parse_zTXt.
    rewrite (findNullByte_first kw (method :: rest) Hkw).
    destruct (Z.ltb_spec (len kw) 0); [lia|].
    replace (kw ++ x00 :: method :: rest)
      with ((kw ++ [x00]) ++ method :: rest)
      by (rewrite <- app_assoc; reflexivity).
    rewrite (at_app (kw ++ [x00]) rest method)
      by (rewrite len_app; reflexivity).
    simpl not_zero. rewrite Hnz. reflexivity.
  - unfold parse_zTXt.
    rewrite (findNullByte_first kw [] Hkw).
    destruct (Z.ltb_spec (len kw) 0); [lia|].
    assert (Hout : at_ (kw ++ [x00]) (len kw + 1) = None).
    { unfold at_. destruct (Z.ltb_spec (len kw + 1) 0); [lia|].
      apply nth_error_None. rewrite length_app. unfold len. simpl. lia. }
    rewrite Hout. reflexivity.
  - unfold parse_iTXt.
    rewrite (findNullByte_first kw (x01 :: method :: rest) Hkw).
    destruct (Z.ltb_spec (len kw) 0); [lia|].
    assert (Hf : at_ (kw ++ x00 :: x01 :: method :: rest) (len kw + 1)
                 = Some x01).
    { replace (kw ++ x00 :: x01 :: method :: rest)
        with ((kw ++ [x00]) ++ x01 :: method :: rest)
        by (rewrite <- app_assoc; reflexivity).
      apply at_app. rewrite len_app. reflexivity. }
    assert (Hmb : at_ (kw ++ x00 :: x01 :: method :: rest) (len kw + 2)
                  = Some method).
    { replace (kw ++ x00 :: x01 :: method :: rest)
        with ((kw ++ [x00; x01]) ++ method :: rest)
        by (rewrite <- app_assoc; reflexivity).
      apply at_app. rewrite len_app. reflexivity. }
    rewrite Hf, Hmb. cbv zeta.
    destruct (_ <? 0)%Z; [reflexivity|].
    destruct (_ <? 0)%Z; [reflexivity|].
    simpl not_zero. rewrite Hnz. reflexivity.
Qed.

End ReaderMore.

(** X5. The length field is read big endian: the four bytes that encode
    [n], most significant first, read back as [n] wherever they stand in
    the buffer. *)
Theorem readU32BE_round_trip (pre rest : list byte) (n : Z) :
  (0 <= n < 4294967296)%Z ->
  readU32BE (pre ++ u32be n ++ rest) (len pre) = Return n.
Proof.
  intros Hn. replace (len pre) with (len pre + 0)%Z by lia.
  rewrite readU32BE_shift by lia. apply readU32BE_u32be, Hn.
Qed.

(** X6. findNullByte answers the index of the first NUL at or behind
    [start], and -1 when there is none, also when [start] lies behind the
    end of the buffer. *)
Theorem findNullByte_first_NUL :
  (forall pre kw rest : list byte,
      no_NUL kw ->
      findNullByte (pre ++ kw ++ x00 :: rest) (len pre)
      = (len pre + len kw)%Z)
  /\ (forall pre l : list byte,
         no_NUL l -> findNullByte (pre ++ l) (len pre) = (-1)%Z)
  /\ (forall (buf : list byte) (start : Z),
         (len buf <= start)%Z -> findNullByte buf start = (-1)%Z).
Proof.
  split; [|split].
  - intros pre kw rest Hkw. apply findNullByte_sep; [exact Hkw | reflexivity].
  - intros pre l Hl. apply findNullByte_none, Hl.
  - intros buf start Hs. unfold findNullByte.
    rewrite skipn_all2 by (unfold len in Hs; lia). reflexivity.
Qed.

(** X7. bytesEqual holds exactly of equal arrays: same length and the
    same byte at every index. *)
Theorem bytesEqual_iff (a b : list byte) :
  (bytesEqual a b = true <-> a = b)
  /\ (bytesEqual a b = false <-> a <> b).
Proof.
  pose proof (bytesEqual_eq a b) as Heq. split; [exact Heq|].
  destruct (bytesEqual a b); split; intros H;
    try discriminate; try reflexivity.
  - exfalso. apply H, Heq. reflexivity.
  - intros Hab. apply Heq in Hab. discriminate.
Qed.

Lemma latin1_decodeLatin1 (l : list byte) : latin1 (decodeLatin1 l).
Proof.
  unfold latin1, decodeLatin1. apply Forall_forall. intros u Hu.
  apply in_map_iff in Hu as (b & <- & _).
  pose proof (Byte.to_N_bounded b). lia.
Qed.

Section ReaderInvariants.

Variable decompress : stream_format -> list byte -> option (list byte).
Variable TextDecoder_decode : list byte -> js_string.

Local Abbreviation body := (loop_body decompress TextDecoder_decode).
Local Abbreviation read := (extractPngTextChunks decompress TextDecoder_decode).
Local Abbreviation loop := (scan decompress TextDecoder_decode).
Local Abbreviation decode := (decode_chunk decompress TextDecoder_decode).
Local Abbreviation texts := (decoded decompress TextDecoder_decode).

Lemma texts_same_but_crc (cs cs' : list RawChunk) :
  Forall2 same_but_crc cs cs' ->
  texts (before_IEND cs) = texts (before_IEND cs').
Proof.
  induction 1 as [|c c' cs cs' [Ht Hd] _ IH]; [reflexivity|].
  simpl. unfold has_type. rewrite <- Ht.
  destruct (str_eqb (decodeLatin1 (rc_type c)) (lit "IEND")); [reflexivity|].
  unfold decoded in *. simpl. rewrite IH.
  unfold decode_chunk, has_type. rewrite <- Ht, <- Hd. reflexivity.
Qed.

(** X8. The trailer of a chunk is skipped, never checked: two streams of
    whole chunks that differ only in their trailers are read alike. *)
Theorem trailer_not_checked (cs cs' : list RawChunk) :
  Forall2 same_but_crc cs cs' ->
  Forall well_formed_chunk cs -> Forall well_formed_chunk cs' ->
  read (PNG_SIGNATURE ++ encode_chunks cs)
  = read (PNG_SIGNATURE ++ encode_chunks cs').
Proof.
  intros Hsame Hwf Hwf'.
  rewrite <- (app_nil_r (encode_chunks cs)).
  rewrite <- (app_nil_r (encode_chunks cs')).
  rewrite !read_chunks by (assumption || apply truncated_nil).
  rewrite (texts_same_but_crc cs cs' Hsame). reflexivity.
Qed.

(** X9. Whatever stands behind an IEND chunk is never looked at: any
    bytes at all may follow the stream without changing the result. *)
Theorem after_IEND_ignored (cs : list RawChunk) (junk : list byte) :
  Forall well_formed_chunk cs ->
  existsb (has_type "IEND") cs = true ->
  read (PNG_SIGNATURE ++ encode_chunks cs ++ junk)
  = read (PNG_SIGNATURE ++ encode_chunks cs)
  /\ read (PNG_SIGNATURE ++ encode_chunks cs ++ junk)
     = Return (texts (before_IEND cs)).
Proof.
  intros Hwf Hend.
  assert (Hread : forall rest,
             read (PNG_SIGNATURE ++ encode_chunks cs ++ rest)
             = Return (texts (before_IEND cs))).
  { intros rest. rewrite read_signed. change 8%Z with (len PNG_SIGNATURE).
    rewrite scan_chunks by exact Hwf. rewrite Hend. reflexivity. }
  split; [|apply Hread].
  rewrite Hread. rewrite <- (app_nil_r (encode_chunks cs)) at 1.
  rewrite Hread. reflexivity.
Qed.

Lemma parse_tEXt_shape (data : list byte) (c : PngTextChunk) :
  parse_tEXt data = Some c -> chunk_ok c.
Proof.
  unfold parse_tEXt. destruct (_ <? 0)%Z; [discriminate|].
  intros [= <-]. split; [apply latin1_decodeLatin1|].
  intros _. apply latin1_decodeLatin1.
Qed.

Lemma parse_zTXt_shape (data : list byte) (c : PngTextChunk) :
  parse_zTXt decompress TextDecoder_decode data = Some c -> chunk_ok c.
Proof.
  unfold parse_zTXt. destruct (_ <? 0)%Z; [discriminate|].
  destruct (not_zero _); [discriminate|].
  destruct (snd _); [|discriminate].
  intros [= <-]. split; [apply latin1_decodeLatin1 | discriminate].
Qed.

Lemma parse_iTXt_shape (data : list byte) (c : PngTextChunk) :
  parse_iTXt decompress TextDecoder_decode data = Some c -> chunk_ok c.
Proof.
  unfold parse_iTXt. destruct (_ <? 0)%Z; [discriminate|].
  destruct (_ <? 0)%Z; [discriminate|].
  destruct (_ <? 0)%Z; [discriminate|].
  assert (Hplain : forall c0,
             Some (mkChunk iTXt
                     (decodeLatin1 (slice data 0 (findNullByte data 0)))
                     (decodeUTF8 TextDecoder_decode
                        (slice_from data
                           (findNullByte data
                              (findNullByte data (findNullByte data 0 + 3) + 1)
                            + 1))))
             = Some c0 -> chunk_ok c0).
  { intros c0 [= <-]. split; [apply latin1_decodeLatin1 | discriminate]. }
  destruct (at_ data (findNullByte data 0 + 1)) as [flag|];
    [|apply Hplain].
  destruct flag; try apply Hplain.
  destruct (not_zero _); [discriminate|].
  destruct (snd _); [|discriminate].
  intros [= <-]. split; [apply latin1_decodeLatin1 | discriminate].
Qed.

Lemma push_parsed_shape (chunks : list PngTextChunk)
      (parsed : option PngTextChunk) :
  (forall c, parsed = Some c -> chunk_ok c) ->
  exists more,
    push_parsed chunks parsed = chunks ++ more
    /\ Forall chunk_ok more /\ (len more <= 1)%Z.
Proof.
  intros Hok. destruct parsed as [c|]; simpl.
  - exists [c]. split; [reflexivity|].
    split; [constructor; [apply Hok; reflexivity | constructor]|].
    unfold len; simpl; lia.
  - exists []. rewrite app_nil_r. split; [reflexivity|].
    split; [constructor | unfold len; simpl; lia].
Qed.

Lemma loop_body_pushes (bytes : list byte) (offset : Z)
      (chunks : list PngTextChunk) :
  match body bytes offset chunks with
  | Continue offset' chunks' =>
      (offset + 12 <= offset' <= len bytes)%Z
      /\ exists more,
           chunks' = chunks ++ more
           /\ Forall chunk_ok more /\ (len more <= 1)%Z
  | Break chunks' => chunks' = chunks
  | Raise _ => True
  end.
Proof.
  destruct (body bytes offset chunks) as [offset' chunks'| chunks' | e] eqn:Hb;
    [| |exact I].
  - split; [exact (loop_body_advances _ _ _ _ _ _ _ Hb)|].
    revert Hb. unfold loop_body.
    destruct (readU32BE bytes offset); [|discriminate].
    destruct (_ || _); [discriminate|].
    destruct (str_eqb _ _).
    { intros [= _ <-]. apply push_parsed_shape, parse_tEXt_shape. }
    destruct (str_eqb _ _).
    { intros [= _ <-]. apply push_parsed_shape, parse_zTXt_shape. }
    destruct (str_eqb _ _).
    { intros [= _ <-]. apply push_parsed_shape, parse_iTXt_shape. }
    destruct (str_eqb _ _); [discriminate|].
    intros [= _ <-]. exists []. rewrite app_nil_r.
    split; [reflexivity | split; [constructor | unfold len; simpl; lia]].
  - revert Hb. unfold loop_body.
    destruct (readU32BE bytes offset); [|discriminate].
    destruct (_ || _); [intros [= <-]; reflexivity|].
    repeat (destruct (str_eqb _ _));
      first [discriminate | intros [= <-]; reflexivity].
Qed.

(** The loop only appends, at most one chunk for every 12 bytes it walks
    over. *)
Lemma scan_grows (bytes : list byte) (offset : Z)
      (chunks : list PngTextChunk) :
  forall found,
    loop bytes offset chunks = Return found ->
    exists more,
      found = chunks ++ more /\ Forall chunk_ok more
      /\ (12 * len more <= Z.max 0 (len bytes - offset))%Z.
Proof.
  funelim (scan decompress TextDecoder_decode bytes offset chunks);
    intros found Hret.
  - injection Hret as <-. exists []. rewrite app_nil_r.
    split; [reflexivity | split; [constructor | unfold len; simpl; lia]].
  - match goal with
    | Hb : loop_body _ _ _ _ _ = Continue _ _,
      IH : forall _, _ = Return _ -> _ |- _ =>
        pose proof (loop_body_pushes bytes offset chunks) as Hpush;
        rewrite Hb in Hpush;
        destruct Hpush as (Hadv & more1 & -> & Hok1 & Hone);
        destruct (IH found Hret) as (more2 & -> & Hok2 & Hbound)
    end.
    exists (more1 ++ more2). rewrite app_assoc.
    split; [reflexivity|]. split; [apply Forall_app; split; assumption|].
    rewrite len_app. pose proof (len_nonneg more1). lia.
  - match goal with
    | Hb : loop_body _ _ _ _ _ = Break _ |- _ =>
        pose proof (loop_body_pushes bytes offset chunks) as Hpush;
        rewrite Hb in Hpush
    end.
    injection Hret as <-. subst. exists []. rewrite app_nil_r.
    split; [reflexivity | split; [constructor | unfold len; simpl; lia]].
  - discriminate.
Qed.

Lemma read_scans (bytes : list byte) (found : list PngTextChunk) :
  read bytes = Return found ->
  (8 <= len bytes)%Z /\ loop bytes 8 [] = Return found.
Proof.
  unfold extractPngTextChunks.
  destruct (Z.ltb_spec (len bytes) 8); [discriminate|].
  destruct (negb _); [discriminate|]. simpl. auto.
Qed.

(** X10. Every chunk the reader returns costs at least 12 bytes of the
    buffer behind the signature: a file of n bytes yields at most
    (n - 8) / 12 text chunks. *)
Theorem chunk_count_bound (bytes : list byte) (found : list PngTextChunk) :
  read bytes = Return found ->
  (12 * Z.of_nat (length found) <= Z.of_nat (length bytes) - 8)%Z.
Proof.
  intros Hret. apply read_scans in Hret as [H8 Hloop].
  apply scan_grows in Hloop as (more & -> & _ & Hbound).
  simpl app. unfold len in *. lia.
Qed.

(** X11. The keyword of every chunk returned, of whatever type, is made
    of Latin-1 code units (it is never read as UTF-8), and so is the text
    of every tEXt chunk. *)
Theorem keywords_are_latin1 (bytes : list byte) (found : list PngTextChunk) :
  read bytes = Return found ->
  Forall
    (fun c =>
       Forall (fun u => (u < 256)%N) (keyword c)
       /\ (type c = tEXt -> Forall (fun u => (u < 256)%N) (text c)))
    found.
Proof.
  intros Hret. apply read_scans in Hret as [_ Hloop].
  apply scan_grows in Hloop as (more & -> & Hok & _). exact Hok.
Qed.

End ReaderInvariants.

(** ** Trimming and normalization *)

Lemma trimStart_suffix (s : js_string) :
  exists ws, s = ws ++ trimStart s.
Proof.
  induction s as [|c s [ws IH]]; simpl; [exists []; reflexivity|].
  destruct (is_white_space c).
  - exists (c :: ws). simpl. rewrite <- IH. reflexivity.
  - exists []. reflexivity.
Qed.

Lemma trimStart_head (s : js_string) (c : N) (rest : js_string) :
  trimStart s = c :: rest -> is_white_space c = false.
Proof.
  induction s as [|x s IH]; simpl; [discriminate|].
  destruct (is_white_space x) eqn:Hx; [exact IH|].
  intros [= <- <-]. exact Hx.
Qed.

Lemma trimStart_fixed (s : js_string) :
  (forall c rest, s = c :: rest -> is_white_space c = false) ->
  trimStart s = s.
Proof.
  destruct s as [|c s]; intros H; simpl; [reflexivity|].
  rewrite (H c s eq_refl). reflexivity.
Qed.

Lemma trim_first (s : js_string) (c : N) (rest : js_string) :
  trim s = c :: rest -> is_white_space c = false.
Proof.
  unfold trim, trimEnd. intros Ht.
  destruct (trimStart_suffix (rev (trimStart s))) as [ws Hws].
  apply (f_equal (@rev N)) in Ht. rewrite rev_involutive in Ht.
  rewrite Ht in Hws. apply (f_equal (@rev N)) in Hws.
  rewrite rev_involutive, rev_app_distr, rev_involutive in Hws.
  simpl in Hws. exact (trimStart_head _ _ _ Hws).
Qed.

Lemma trim_last (s : js_string) (c : N) (front : js_string) :
  trim s = front ++ [c] -> is_white_space c = false.
Proof.
  unfold trim, trimEnd. intros Ht.
  apply (f_equal (@rev N)) in Ht.
  rewrite rev_involutive, rev_app_distr in Ht. simpl in Ht.
  exact (trimStart_head _ _ _ Ht).
Qed.

Lemma trim_fixed (s : js_string) :
  (forall c rest, s = c :: rest -> is_white_space c = false) ->
  (forall c front, s = front ++ [c] -> is_white_space c = false) ->
  trim s = s.
Proof.
  intros Hfirst Hlast. unfold trim, trimEnd.
  rewrite (trimStart_fixed s Hfirst).
  rewrite trimStart_fixed; [apply rev_involutive|].
  intros c rest Hrev. apply (Hlast c (rev rest)).
  rewrite <- (rev_involutive s), Hrev. reflexivity.
Qed.

Lemma trim_idempotent (s : js_string) : trim (trim s) = trim s.
Proof.
  apply trim_fixed; [apply trim_first | apply trim_last].
Qed.

(** [trim] keeps a stretch of the text. *)
Lemma trim_infix (s : js_string) : exists l r, s = l ++ trim s ++ r.
Proof.
  unfold trim, trimEnd.
  destruct (trimStart_suffix s) as [l Hl].
  destruct (trimStart_suffix (rev (trimStart s))) as [r Hr].
  exists l, (rev r). rewrite <- rev_app_distr, <- Hr, rev_involutive.
  exact Hl.
Qed.

Lemma adjacent_spec (a b : N) (l : js_string) :
  adjacent a b l = true <-> exists pre post, l = pre ++ a :: b :: post.
Proof.
  induction l as [|x t IH]; [|destruct t as [|y t']].
  - split; [discriminate | intros ([|? ?] & ? & H); discriminate H].
  - split; [discriminate|].
    intros ([|? [|? ?]] & ? & H); discriminate H.
  - change (adjacent a b (x :: y :: t'))
      with ((N.eqb x a && N.eqb y b) || adjacent a b (y :: t')).
    rewrite orb_true_iff, andb_true_iff, !N.eqb_eq, IH. split.
    + intros [[-> ->] | (pre & post & ->)].
      * exists [], t'. reflexivity.
      * exists (x :: pre), post. reflexivity.
    + intros ([|x' pre] & post & H).
      * injection H as -> -> _. left; auto.
      * injection H as _ H. right. exists pre, post. exact H.
Qed.

Lemma adjacent_infix (a b : N) (l m r : js_string) :
  adjacent a b (l ++ m ++ r) = false -> adjacent a b m = false.
Proof.
  intros H. destruct (adjacent a b m) eqn:Hm; [|reflexivity].
  apply adjacent_spec in Hm as (pre & post & ->).
  rewrite <- H. symmetry. apply adjacent_spec.
  exists (l ++ pre), (post ++ r). rewrite <- !app_assoc. reflexivity.
Qed.

Lemma adjacent_cons (a b x : N) (t : js_string) :
  adjacent a b (x :: t)
  = (N.eqb x a && match t with y :: _ => N.eqb y b | [] => false end)
    || adjacent a b t.
Proof.
  destruct t as [|y t']; [|reflexivity].
  simpl. rewrite andb_false_r. reflexivity.
Qed.

(** The replacement text being a line feed, the result starts with a line
    feed or with the code unit the text starts with. *)
Lemma replace_from_head (pat s : js_string) (x : N) (rest : js_string) :
  replace_from pat [10%N] 0 s = x :: rest ->
  x = 10%N \/ exists s', s = x :: s'.
Proof.
  destruct s as [|c s']; simpl; [discriminate|].
  destruct (startsWith (c :: s') pat).
  - intros [= <- _]. left; reflexivity.
  - intros [= <- _]. right. exists s'. reflexivity.
Qed.

(** After the replacement of every backslash-n pair, no such pair is
    left. *)
Lemma replace_escaped_none (s : js_string) :
  adjacent 92 110 (replace_from [92; 110]%N [10%N] 0 s) = false
  /\ adjacent 92 110 (replace_from [92; 110]%N [10%N] 1 s) = false.
Proof.
  induction s as [|c s [IH0 IH1]]; [split; reflexivity|].
  split; [|exact IH0].
  cbn [replace_from length Nat.sub].
  destruct (startsWith (c :: s) [92; 110]%N) eqn:Hm.
  - change ([10%N] ++ ?l) with (10%N :: l). rewrite adjacent_cons.
    rewrite IH1. reflexivity.
  - rewrite adjacent_cons, IH0, orb_false_r.
    destruct (N.eqb_spec c 92) as [->|]; [|reflexivity].
    destruct (replace_from [92; 110]%N [10%N] 0 s) as [|y rest] eqn:Hr;
      [reflexivity|].
    destruct (N.eqb_spec y 110) as [->|]; [|reflexivity].
    apply replace_from_head in Hr as [Hr | (s' & ->)]; [discriminate Hr|].
    simpl in Hm. discriminate Hm.
Qed.

(** The replacement of carriage return, line feed by a line feed creates
    no backslash-n pair. *)
Lemma replace_crlf_keeps (s : js_string) :
  adjacent 92 110 s = false ->
  adjacent 92 110 (replace_from [13; 10]%N [10%N] 0 s) = false
  /\ adjacent 92 110 (replace_from [13; 10]%N [10%N] 1 s) = false.
Proof.
  induction s as [|c s IH]; [split; reflexivity|].
  rewrite adjacent_cons. intros Hadj.
  apply orb_false_iff in Hadj as [Hhead Htail].
  destruct (IH Htail) as [IH0 IH1].
  split; [|exact IH0].
  cbn [replace_from length Nat.sub].
  destruct (startsWith (c :: s) [13; 10]%N) eqn:Hm.
  - change ([10%N] ++ ?l) with (10%N :: l). rewrite adjacent_cons.
    rewrite IH1. reflexivity.
  - rewrite adjacent_cons, IH0, orb_false_r.
    destruct (N.eqb_spec c 92) as [->|]; [|reflexivity].
    destruct (replace_from [13; 10]%N [10%N] 0 s) as [|y rest] eqn:Hr;
      [reflexivity|].
    destruct (N.eqb_spec y 110) as [->|]; [|reflexivity].
    apply replace_from_head in Hr as [Hr | (s' & ->)]; [discriminate Hr|].
    simpl in Hhead. discriminate Hhead.
Qed.

(** A pattern whose first code unit does not occur matches nowhere. *)
Lemma replace_from_absent (p : N) (pat rep s : js_string) :
  ~ In p s -> replace_from (p :: pat) rep 0 s = s.
Proof.
  induction s as [|c s IH]; simpl; [reflexivity|]. intros Hnot.
  destruct (N.eqb_spec c p) as [->|]; [exfalso; apply Hnot; left; reflexivity|].
  simpl. rewrite IH by (intros H; apply Hnot; right; exact H). reflexivity.
Qed.

(** X12. What normalizePrompt returns is trimmed: it neither starts nor
    ends with a white space or line terminator code unit, and trimming it
    again changes nothing. *)
Theorem normalizePrompt_trimmed (s : js_string) :
  trim (normalizePrompt s) = normalizePrompt s
  /\ (forall c rest,
         normalizePrompt s = c :: rest -> is_white_space c = false)
  /\ (forall c front,
         normalizePrompt s = front ++ [c] -> is_white_space c = false).
Proof.
  unfold normalizePrompt. split; [apply trim_idempotent|].
  split; [apply trim_first | apply trim_last].
Qed.

(** X13. No escaped line feed survives normalization: the result nowhere
    holds a backslash immediately followed by the letter n. *)
Theorem normalizePrompt_no_escaped_newline (s : js_string) :
  forall pre post : js_string,
    normalizePrompt s <> pre ++ [92; 110]%N ++ post.
Proof.
  intros pre post Heq.
  assert (Hnone : adjacent 92 110 (normalizePrompt s) = false).
  { unfold normalizePrompt.
    match goal with
    | |- adjacent _ _ (trim ?t) = false =>
        destruct (trim_infix t) as (l & r & Hinfix);
        apply (adjacent_infix 92 110 l (trim t) r); rewrite <- Hinfix
    end.
    apply replace_crlf_keeps, replace_escaped_none. }
  rewrite Heq in Hnone.
  assert (Hsome : adjacent 92 110 (pre ++ [92; 110]%N ++ post) = true)
    by (apply adjacent_spec; exists pre, post; reflexivity).
  congruence.
Qed.

(** X14. A text with no backslash and no carriage return is only
    trimmed. *)
Theorem normalizePrompt_plain (s : js_string) :
  ~ In 92%N s -> ~ In 13%N s -> normalizePrompt s = trim s.
Proof.
  intros Hbs Hcr. unfold normalizePrompt, replace_all.
  rewrite (replace_from_absent 92 _ _ s Hbs).
  rewrite (replace_from_absent 92 _ _ s Hbs).
  rewrite (replace_from_absent 13 _ _ s Hcr). reflexivity.
Qed.

(** ** Wrappers and the three phases *)

Section SelectorMore.

Variable JSON_parse : js_string -> option json.
Variable Number_toString : js_string -> js_string.

Local Abbreviation wrapper := (isPromptWrapperJson JSON_parse).
Local Abbreviation pick := (pickBestString JSON_parse).
Local Abbreviation select :=
  (extractPositivePromptFromTextBlobs JSON_parse Number_toString).
Local Abbreviation yieldA := (phaseA_yield JSON_parse Number_toString).
Local Abbreviation yieldB := (phaseB_yield JSON_parse Number_toString).

Lemma wrapper_trim (s : js_string) : wrapper (trim s) = wrapper s.
Proof. unfold isPromptWrapperJson. rewrite trim_idempotent. reflexivity. Qed.

(** X15. A text is wrapper JSON exactly when, trimmed, it starts with an
    opening brace, ends with a closing brace and parses to an object whose
    only member is named prompt and holds a string; white space around the
    text makes no difference. *)
Theorem isPromptWrapperJson_iff (s : js_string) :
  (wrapper s = true <->
   startsWith (trim s) (lit "{") = true
   /\ endsWith (trim s) (lit "}") = true
   /\ exists v, JSON_parse (trim s) = Some (JObj [(lit "prompt", JStr v)]))
  /\ wrapper (trim s) = wrapper s.
Proof.
  split; [|apply wrapper_trim].
  unfold isPromptWrapperJson, safeJsonParse. cbv zeta.
  destruct (startsWith (trim s) (lit "{"));
    [|split; [discriminate | intros [H _]; discriminate H]].
  destruct (endsWith (trim s) (lit "}"));
    [|split; [discriminate | intros (_ & H & _); discriminate H]].
  cbn [andb negb].
  destruct (JSON_parse (trim s)) as [[| | | | |members]|];
    try (split; [discriminate | intros (_ & _ & v & H); discriminate H]).
  destruct members as [|[k v] [|m members]];
    try (split; [discriminate | intros (_ & _ & v' & H); discriminate H]).
  cbn [Object_keys map fst length Nat.eqb negb nth get assoc].
  destruct (str_eqb k (lit "prompt")) eqn:Hk; cbn [negb].
  - apply str_eqb_eq in Hk. subst k.
    destruct v;
      try (split; [discriminate | intros (_ & _ & v' & H); discriminate H]).
    split; [intros _ | reflexivity].
    split; [reflexivity|]. split; [reflexivity|]. eexists. reflexivity.
  - split; [discriminate|]. intros (_ & _ & v' & [= -> _]).
    rewrite str_eqb_refl in Hk. discriminate Hk.
Qed.

Lemma first_yield_In (yield : js_string -> outcome (option js_string))
      (blobs : list js_string) (p : js_string) :
  first_yield yield blobs = Return (Some p) ->
  exists blob, In blob blobs /\ yield blob = Return (Some p).
Proof.
  induction blobs as [|b blobs IH]; simpl; [discriminate|].
  destruct (yield b) as [[q|]|e] eqn:Hb; cbn [bind]; [| |discriminate].
  - intros [= ->]. exists b. auto.
  - intros H. destruct (IH H) as (blob & Hin & Hy). exists blob. auto.
Qed.

Lemma nonempty_prompt_some (o : option js_string) (p : js_string) :
  nonempty_prompt o = Some p -> o = Some p /\ p <> [].
Proof.
  destruct o as [q|]; simpl; [|discriminate].
  destruct q; simpl; [discriminate|]. intros [= <-]. split; [reflexivity|].
  discriminate.
Qed.

Lemma phaseA_yield_truthy (blob p : js_string) :
  yieldA blob = Return (Some p) -> p <> [].
Proof.
  unfold phaseA_yield.
  destruct (JSON_parse blob) as [[| | | | |]|]; try discriminate;
    (destruct (extractFromMetadataObject JSON_parse Number_toString _)
       as [o|e]; cbn [bind]; [|discriminate];
     intros [= H]; apply nonempty_prompt_some in H; apply H).
Qed.

Lemma phaseB_yield_truthy (blob p : js_string) :
  yieldB blob = Return (Some p) -> p <> [].
Proof.
  unfold phaseB_yield.
  destruct (JSON_parse blob) as [[| | | | |]|]; try discriminate;
    (destruct (existsb regex_all_digits _); [|discriminate];
     destruct (extractFromRawWorkflow JSON_parse Number_toString blob)
       as [o|e]; cbn [bind]; [|discriminate];
     intros [= H]; apply nonempty_prompt_some in H; apply H).
Qed.

(** X16. The source tag of a result the selector returns is absent or
    one of metadata-json, raw_workflow-json and fallback-long-text; and a
    prompt that is the empty string can only come from the fallback: the
    two JSON phases never return one. *)
Theorem selector_sources (blobs : list js_string) (r : ExtractionResult) :
  select blobs = Return r ->
  In (debugSource r)
     [None; Some (lit "metadata-json"); Some (lit "raw_workflow-json");
      Some (lit "fallback-long-text")]
  /\ (prompt r = Some [] ->
      debugSource r = Some (lit "fallback-long-text")).
Proof.
  intros Hsel.
  destruct (select_cases _ _ blobs r Hsel)
    as [(p & HA & ->) | [(p & _ & HB & ->) | (_ & _ & ->)]];
    cbn [prompt debugSource].
  - split; [right; left; reflexivity|]. intros [= ->].
    apply first_yield_In in HA as (blob & _ & HA).
    apply phaseA_yield_truthy in HA. contradiction.
  - split; [right; right; left; reflexivity|]. intros [= ->].
    apply first_yield_In in HB as (blob & _ & HB).
    apply phaseB_yield_truthy in HB. contradiction.
  - unfold phaseC. cbv zeta.
    match goal with
    | |- context [pickBestString JSON_parse ?l] =>
        destruct (pickBestString JSON_parse l) as [best|]
    end; [destruct (Boolean best)|]; cbn [prompt debugSource];
      (split; [|reflexivity || discriminate]).
    + right; right; right; left; reflexivity.
    + left; reflexivity.
    + left; reflexivity.
Qed.

(** X17. Metadata comes first: as soon as phase A comes to a blob that
    is a JSON object from which the metadata extractor obtains a prompt
    that is not empty, no blob in front of it giving one or making the
    extractor throw, the result is the prompt of that blob, tagged
    metadata-json, whatever the blobs behind it hold and whatever the graph
    phase and the fallback would find. *)
Theorem metadata_phase_first (before after : list js_string)
        (blob p : js_string) :
  Forall (fun b => yieldA b = Return None) before ->
  yieldA blob = Return (Some p) ->
  select (before ++ blob :: after)
  = Return (mkResult (Some p) (Some (lit "metadata-json")))
  /\ p <> [].
Proof.
  intros Hbefore HA. split; [|exact (phaseA_yield_truthy _ _ HA)].
  unfold extractPositivePromptFromTextBlobs.
  rewrite phaseA_first_yield, (first_yield_found _ _ _ _ _ Hbefore HA).
  reflexivity.
Qed.

Lemma pick_longest (candidates : list js_string) (best : js_string) :
  pick candidates = Some best ->
  Forall (fun c => length c <= length best) (survivors JSON_parse candidates).
Proof.
  unfold pickBestString. rewrite survivors_cleaned.
  pose proof (sort_head (survivors JSON_parse candidates)) as Hsort.
  destruct (survivors JSON_parse candidates) as [|c cs]; [discriminate|].
  change (Nat.eqb (length (c :: cs)) 0) with false. cbv iota.
  revert Hsort.
  destruct (Array_sort longest_first (c :: cs)) as [|b rest];
    [discriminate|].
  intros (before & after & -> & Hlt & Hle) [= <-].
  apply Forall_app; split; [|constructor; [lia | exact Hle]].
  eapply Forall_impl; [|exact Hlt]. simpl; intros; lia.
Qed.

(** X18. A result the selector returns with the tag fallback-long-text
    is the normalization of a blob, trimmed, that is longer than 200 code
    units after trimming and is not wrapper JSON, and no other such blob is
    longer: a text of 200 code units or less is never returned by the
    fallback. *)
Theorem fallback_from_long_blob (blobs : list js_string)
        (r : ExtractionResult) :
  select blobs = Return r ->
  debugSource r = Some (lit "fallback-long-text") ->
  exists blob,
    In blob blobs
    /\ 200 < length (trim blob)
    /\ wrapper blob = false
    /\ prompt r = Some (normalizePrompt (trim blob))
    /\ Forall
         (fun b =>
            200 < length (trim b) -> wrapper b = false ->
            length (trim b) <= length (trim blob))
         blobs.
Proof.
  intros Hsel.
  destruct (select_cases _ _ blobs r Hsel)
    as [(p & _ & ->) | [(p & _ & _ & ->) | (_ & _ & ->)]];
    cbn [prompt debugSource]; [discriminate | discriminate |].
  unfold phaseC. cbv zeta.
  set (longOnes :=
         filter (fun s => negb (wrapper s))
           (filter (fun s => Nat.ltb 200 (length s)) (map trim blobs))).
  assert (Hlong : forall x,
             In x longOnes <->
             exists b, In b blobs /\ x = trim b
                       /\ 200 < length (trim b) /\ wrapper b = false).
  { intros x. unfold longOnes.
    rewrite filter_In, filter_In, in_map_iff, negb_true_iff, Nat.ltb_lt.
    split.
    - intros [[(b & <- & Hin) Hlen] Hw]. exists b.
      rewrite wrapper_trim in Hw. auto.
    - intros (b & Hin & -> & Hlen & Hw). rewrite wrapper_trim.
      split; [split; [exists b; auto | exact Hlen] | exact Hw]. }
  destruct (pick longOnes) as [best|] eqn:Hpick; [|discriminate].
  pose proof (pick_survivor _ _ _ Hpick) as Hin.
  pose proof (pick_longest _ _ Hpick) as Hmax.
  unfold survivors in Hin, Hmax.
  apply filter_In in Hin as [Hin _].
  apply in_map_iff in Hin as (x & Hbest & Hx).
  apply Hlong in Hx as (blob & Hblob & -> & Hlen & Hw).
  rewrite trim_idempotent in Hbest. subst best.
  destruct (Boolean (trim blob)); cbn [prompt debugSource];
    [intros _ | discriminate].
  exists blob. repeat (split; [assumption || reflexivity|]).
  apply Forall_forall. intros b Hb Hblen Hbw.
  rewrite Forall_forall in Hmax. apply Hmax.
  apply filter_In. split.
  - apply in_map_iff. exists (trim b). split; [apply trim_idempotent|].
    apply Hlong. exists b. auto.
  - rewrite andb_true_iff, negb_true_iff, wrapper_trim.
    split; [|exact Hbw]. destruct (trim b); [simpl in Hblen; lia | reflexivity].
Qed.

End SelectorMore.

(** ** Arrays read as graphs *)

Lemma is_digit_mod (n : N) : is_digit (48 + n mod 10) = true.
Proof.
  pose proof (N.mod_upper_bound n 10 ltac:(discriminate)) as Hmod.
  remember (n mod 10)%N as r eqn:Er. clear Er.
  unfold is_digit. rewrite andb_true_iff, !N.leb_le. lia.
Qed.

Lemma digits_of_spec (fuel : nat) :
  forall (n : N) (acc : js_string),
    (n < 2 ^ N.of_nat fuel)%N -> fuel <> 0 ->
    exists ds,
      digits_of fuel n acc = ds ++ acc
      /\ forallb is_digit ds = true
      /\ (forall m,
             fold_left (fun a d => (10 * a + (d - 48))%N) ds m
             = (m * 10 ^ N.of_nat (length ds) + n)%N)
      /\ match ds with
         | [] => False
         | c :: rest => c = 48%N -> n = 0%N /\ rest = []
         end.
Proof.
  induction fuel as [|fuel IH]; intros n acc Hn Hfuel; [contradiction|].
  cbn [digits_of]. cbv zeta.
  assert (Hq : (n / 10 < 2 ^ N.of_nat fuel)%N).
  { rewrite Nat2N.inj_succ, N.pow_succ_r' in Hn.
    apply N.Div0.div_lt_upper_bound. lia. }
  assert (Hf : (n / 10)%N <> 0%N -> fuel <> 0).
  { intros Hnz ->. apply Hnz. apply N.div_small.
    change (2 ^ N.of_nat 1)%N with 2%N in Hn. lia. }
  pose proof (is_digit_mod n) as Hd.
  pose proof (N.mod_upper_bound n 10 ltac:(discriminate)) as Hmod.
  pose proof (N.div_mod n 10 ltac:(discriminate)) as Hdiv.
  specialize (IH (n / 10)%N ((48 + n mod 10)%N :: acc) Hq).
  remember (n mod 10)%N as r eqn:Er. clear Er.
  remember (n / 10)%N as q eqn:Eq. clear Eq.
  destruct (N.eqb_spec q 0) as [Hz|Hnz].
  - exists [(48 + r)%N]. split; [reflexivity|].
    split; [|split].
    + cbn [forallb]. rewrite Hd. reflexivity.
    + intros m. cbn [fold_left length].
      change (N.of_nat 1) with 1%N. rewrite N.pow_1_r. lia.
    + intros Hc. split; [lia | reflexivity].
  - destruct (IH (Hf Hnz)) as (ds & Hds & Hdig & Hval & Hhead).
    exists (ds ++ [(48 + r)%N]). split; [|split; [|split]].
    + rewrite Hds, <- app_assoc. reflexivity.
    + rewrite forallb_app, Hdig. cbn [forallb].
      rewrite Hd. reflexivity.
    + intros m. rewrite fold_left_app, Hval, length_app.
      cbn [fold_left length].
      replace (N.of_nat (length ds + 1)) with (N.succ (N.of_nat (length ds)))
        by lia.
      rewrite N.pow_succ_r'. lia.
    + destruct ds as [|c rest]; [contradiction|]. simpl.
      intros Hc. destruct (Hhead Hc) as [H0 _]. contradiction.
Qed.

(** The decimal rendering of an index is a canonical array index, with
    the value it was made from. *)
Lemma array_index_decimal (n : N) : array_index (decimal n) = Some n.
Proof.
  unfold decimal.
  destruct (digits_of_spec (S (N.to_nat (N.log2 n))) n [])
    as (ds & Hds & Hdig & Hval & Hhead).
  { destruct (N.eq_dec n 0) as [->|Hn]; [reflexivity|].
    rewrite Nat2N.inj_succ, N2Nat.id.
    apply N.log2_spec. lia. }
  { discriminate. }
  rewrite Hds, app_nil_r. destruct ds as [|c rest]; [contradiction|].
  unfold array_index. rewrite Hdig, Hval. cbn [andb].
  replace (negb (N.eqb c 48) || negb (Boolean rest)) with true.
  - f_equal.
  - symmetry. destruct (N.eqb_spec c 48) as [Hc|]; [|reflexivity].
    destruct (Hhead Hc) as [_ ->]. reflexivity.
Qed.

Lemma get_array_element (elements : list json) (i : nat) :
  get (JArr elements) (decimal (N.of_nat i)) = nth_error elements i.
Proof.
  unfold get. rewrite array_index_decimal, Nat2N.id. reflexivity.
Qed.

Section ArrayFacts.

Variable JSON_parse : js_string -> option json.
Variable Number_toString : js_string -> js_string.

Lemma fold_visit_elements (before after : list json) (acc : list js_string) :
  Forall (fun e => node_converts e = true) after ->
  exists candidates,
    for_of (visit_node Number_toString (JArr (before ++ after)))
      (map (fun i => decimal (N.of_nat i))
         (seq (length before) (length after)))
      acc
    = Return candidates
    /\ clean candidates
       = clean acc
         ++ clean (flat_map (node_candidates Number_toString) after).
Proof.
  revert before acc; induction after as [|v after IH];
    intros before acc Hconv.
  - exists acc. split; [reflexivity | simpl; symmetry; apply app_nil_r].
  - inversion Hconv as [|? ? Hv Hrest]; subst.
    cbn [length seq map for_of flat_map].
    destruct (visit_node_candidates Number_toString
                (JArr (before ++ v :: after)) v acc
                (decimal (N.of_nat (length before))))
      as (acc' & -> & Hacc'); [|exact Hv|].
    { rewrite get_array_element.
      rewrite nth_error_app2 by lia. rewrite Nat.sub_diag. reflexivity. }
    cbn [bind].
    replace (before ++ v :: after) with ((before ++ [v]) ++ after)
      by (rewrite <- app_assoc; reflexivity).
    replace (S (length before)) with (length (before ++ [v]))
      by (rewrite length_app; simpl; lia).
    destruct (IH (before ++ [v]) acc' Hrest) as (candidates & -> & Hclean).
    exists candidates. split; [reflexivity|].
    rewrite Hclean, Hacc', clean_app, app_assoc. reflexivity.
Qed.

(** X19. A text that parses to an array is read as a graph as well: when
    the class_type and the title of every element can be read as text, the
    elements are visited in index order as if they were the nodes, and the
    graph extractor answers the pickBestString winner, normalized, among
    the candidates of the elements that are objects. *)
Theorem extractFromRawWorkflow_array (s : js_string)
        (elements : list json) :
  JSON_parse s = Some (JArr elements) ->
  Forall (fun e => node_converts e = true) elements ->
  extractFromRawWorkflow JSON_parse Number_toString s
  = Return
      (option_map normalizePrompt
         (pickBestString JSON_parse
            (flat_map (node_candidates Number_toString) elements))).
Proof.
  intros Hparse Hconv. unfold extractFromRawWorkflow, safeJsonParse.
  rewrite Hparse. change (negb (is_object_typed (JArr elements))) with false.
  cbv iota zeta.
  destruct (fold_visit_elements [] elements [] Hconv)
    as (candidates & Hscan & Hclean).
  simpl app in Hscan. cbn [Object_keys]. simpl length in Hscan.
  rewrite Hscan. cbn [bind].
  rewrite pick_clean
    with (l' := flat_map (node_candidates Number_toString) elements)
    by exact Hclean.
  destruct (pickBestString JSON_parse
              (flat_map (node_candidates Number_toString) elements))
    as [best|] eqn:Hp; [|reflexivity].
  rewrite (pick_truthy _ _ _ Hp). reflexivity.
Qed.

Lemma metadata_of_array (elements : list json) :
  extractFromMetadataObject JSON_parse Number_toString (JArr elements)
  = Return None.
Proof. reflexivity. Qed.

(** X24. An array is never metadata, and an array blob on its own is a
    graph: the metadata extractor gives nothing on any array, and when the
    class_type and the title of every element can be read as text and the
    candidates of the elements have a winner whose normalization is not
    empty, the selector returns it with the tag raw_workflow-json. *)
Theorem array_blob_selected (blob best : js_string) (elements : list json) :
  JSON_parse blob = Some (JArr elements) ->
  Forall (fun e => node_converts e = true) elements ->
  pickBestString JSON_parse
    (flat_map (node_candidates Number_toString) elements) = Some best ->
  normalizePrompt best <> [] ->
  extractFromMetadataObject JSON_parse Number_toString (JArr elements)
  = Return None
  /\ extractPositivePromptFromTextBlobs JSON_parse Number_toString [blob]
     = Return
         (mkResult (Some (normalizePrompt best))
            (Some (lit "raw_workflow-json"))).
Proof.
  intros Hparse Hconv Hbest Hfull. split; [apply metadata_of_array|].
  assert (Hgraph :
    extractFromRawWorkflow JSON_parse Number_toString blob
    = Return (Some (normalizePrompt best))).
  { unfold extractFromRawWorkflow, safeJsonParse. rewrite Hparse.
    change (negb (is_object_typed (JArr elements))) with false.
    cbv iota zeta.
    destruct (fold_visit_elements [] elements [] Hconv)
      as (candidates & Hscan & Hclean).
    simpl app in Hscan. cbn [Object_keys]. simpl length in Hscan.
    rewrite Hscan. cbn [bind].
    rewrite pick_clean
      with (l' := flat_map (node_candidates Number_toString) elements)
      by exact Hclean.
    rewrite Hbest, (pick_truthy _ _ _ Hbest). reflexivity. }
  assert (Hkeys :
    existsb regex_all_digits (Object_keys (JArr elements)) = true).
  { destruct elements as [|e elements]; [discriminate Hbest | reflexivity]. }
  unfold extractPositivePromptFromTextBlobs.
  cbn [phaseA phaseB]. unfold safeJsonParse.
  rewrite Hparse. cbn [is_object_typed].
  rewrite metadata_of_array. cbn [bind truthy].
  rewrite Hkeys, Hgraph. cbn [bind truthy].
  destruct (normalizePrompt best); [contradiction | reflexivity].
Qed.

End ArrayFacts.

(** ** Conversions that fail *)

Section ThrowFacts.

Variable JSON_parse : js_string -> option json.
Variable Number_toString : js_string -> js_string.

Local Abbreviation select :=
  (extractPositivePromptFromTextBlobs JSON_parse Number_toString).
Local Abbreviation graph := (extractFromRawWorkflow JSON_parse Number_toString).

(** X25. String returns the text of a value exactly when the value is
    neither an object with a member of its own named toString nor an
    array that holds, at any depth of arrays, such an object; on those it
    throws TypeError, the other members and elements making no
    difference. *)
Theorem String_throws_iff (v : json) :
  (forall s,
      String_ Number_toString v = Return s
      <-> convertible v = true /\ s = text_of Number_toString v)
  /\ (forall e,
         String_ Number_toString v = Throw e
         <-> convertible v = false /\ e = TypeError_)
  /\ (forall members,
         convertible (JObj members) = false
         <-> exists held, assoc (lit "toString") members = Some held)
  /\ (forall elements,
         convertible (JArr elements) = false
         <-> exists e, In e elements /\ convertible e = false).
Proof.
  rewrite String_convertible. split; [|split; [|split]].
  - intros s. destruct (convertible v); split.
    + intros [= <-]. auto.
    + intros [_ ->]. reflexivity.
    + discriminate.
    + intros [H _]. discriminate H.
  - intros e. destruct (convertible v); split.
    + discriminate.
    + intros [H _]. discriminate H.
    + intros [= <-]. auto.
    + intros [_ ->]. reflexivity.
  - intros members. cbn [convertible].
    destruct (assoc (lit "toString") members) as [held|]; split.
    + intros _. exists held. reflexivity.
    + reflexivity.
    + discriminate.
    + intros [held H]. discriminate H.
  - intros elements. cbn [convertible]. split.
    + intros H. induction elements as [|e l IH]; [discriminate H|].
      cbn [forallb] in H. apply andb_false_iff in H as [H|H].
      * exists e. split; [left; reflexivity | exact H].
      * destruct (IH H) as (x & Hin & Hx). exists x.
        split; [right; exact Hin | exact Hx].
    + intros (e & Hin & He).
      destruct (forallb convertible elements) eqn:Hall; [|reflexivity].
      rewrite forallb_forall in Hall. rewrite (Hall e Hin) in He.
      discriminate He.
Qed.

Lemma visit_node_TypeError (wf : json) (acc : list js_string)
      (nodeId : js_string) (e : exn) :
  visit_node Number_toString wf acc nodeId = Throw e -> e = TypeError_.
Proof.
  destruct (get wf nodeId) as [node|] eqn:Hget;
    [|unfold visit_node; rewrite Hget; discriminate].
  destruct (node_converts node) eqn:Hconv.
  - destruct (visit_node_candidates Number_toString wf node acc nodeId
                Hget Hconv) as (acc' & -> & _).
    discriminate.
  - rewrite (visit_node_throws Number_toString wf node acc nodeId Hget Hconv).
    intros [= <-]. reflexivity.
Qed.

Lemma for_of_TypeError (wf : json) (keys : list js_string)
      (acc : list js_string) (e : exn) :
  for_of (visit_node Number_toString wf) keys acc = Throw e ->
  e = TypeError_.
Proof.
  revert acc; induction keys as [|k keys IH]; intros acc; simpl;
    [discriminate|].
  destruct (visit_node Number_toString wf acc k) as [acc'|e'] eqn:Hk;
    cbn [bind].
  - apply IH.
  - intros [= <-]. exact (visit_node_TypeError _ _ _ _ Hk).
Qed.

Lemma extractFromRawWorkflow_TypeError (s : js_string) (e : exn) :
  graph s = Throw e -> e = TypeError_.
Proof.
  unfold extractFromRawWorkflow. cbv zeta.
  destruct (negb (is_object_typed (safeJsonParse JSON_parse s)));
    [discriminate|].
  destruct (for_of _ _ _) as [candidates|e'] eqn:Hscan; cbn [bind];
    [discriminate|].
  intros [= <-]. exact (for_of_TypeError _ _ _ _ Hscan).
Qed.






Lemma fold_visit_throws (before after : list (js_string * json))
      (acc : list js_string) :
  NoDup (map fst (before ++ after)) ->
  Exists (fun m => node_converts (snd m) = false) after ->
  for_of (visit_node Number_toString (JObj (before ++ after)))
    (map fst after) acc
  = Throw TypeError_.
Proof.
  revert before acc; induction after as [|[k v] after IH];
    intros before acc Hnd Hex; [inversion Hex|].
  cbn [map fst for_of].
  pose proof (get_member k v before after Hnd) as Hget.
  destruct (node_converts v) eqn:Hv.
  - destruct (visit_node_candidates Number_toString
                (JObj (before ++ (k, v) :: after)) v acc k Hget Hv)
      as (acc' & -> & _).
    cbn [bind].
    replace (before ++ (k, v) :: after) with ((before ++ [(k, v)]) ++ after)
      in * by (rewrite <- app_assoc; reflexivity).
    apply IH; [exact Hnd|].
    inversion Hex as [? ? Hhead | ? ? Htail]; subst; [|exact Htail].
    simpl in Hhead. congruence.
  - rewrite (visit_node_throws Number_toString _ v acc k Hget Hv).
    reflexivity.
Qed.

(** X26. On a node graph the graph extractor throws exactly when some
    node has a class_type or a title that cannot be read as text, whatever
    candidates the other nodes hold, and TypeError is all it ever
    throws. *)
Theorem extractFromRawWorkflow_throws_iff (s : js_string)
        (members : list (js_string * json)) :
  JSON_parse s = Some (JObj members) ->
  NoDup (map fst members) ->
  (graph s = Throw TypeError_
   <-> Exists (fun m => node_converts (snd m) = false) members)
  /\ (forall e, graph s = Throw e -> e = TypeError_).
Proof.
  intros Hparse Hnd.
  split; [|apply extractFromRawWorkflow_TypeError].
  unfold extractFromRawWorkflow, safeJsonParse. rewrite Hparse.
  change (negb (is_object_typed (JObj members))) with false.
  cbv iota zeta. cbn [Object_keys]. split.
  - intros Hthrow.
    destruct (Forall_Exists_dec (fun m => node_converts (snd m) = true)
                (fun m => Bool.bool_dec (node_converts (snd m)) true) members)
      as [Hall | Hex].
    + destruct (fold_visit_members Number_toString [] members [] Hnd Hall)
        as (candidates & Hscan & _).
      simpl app in Hscan. rewrite Hscan in Hthrow. discriminate Hthrow.
    + eapply Exists_impl; [|exact Hex]. simpl. intros m Hm.
      destruct (node_converts (snd m)); [contradiction | reflexivity].
  - intros Hex.
    pose proof (fold_visit_throws [] members [] Hnd Hex) as Hscan.
    simpl app in Hscan. rewrite Hscan. reflexivity.
Qed.

End ThrowFacts.

(** ** App.tsx: the order of the blobs, errors, and what is copied *)

Section SortByKey.

Variable A : Type.
Variable key : A -> Z.

Local Abbreviation by_key := (fun a b : A => (key b - key a)%Z).
Local Abbreviation not_below := (fun a b : A => (key b <= key a)%Z).

(** Insertion puts the new element behind the elements of strictly
    greater key that stand in front of the list, and nowhere else. *)
Lemma sort_insert_split (x : A) (l : list A) :
  exists before after,
    l = before ++ after
    /\ sort_insert by_key x l = before ++ x :: after
    /\ Forall (fun y => (key x < key y)%Z) before.
Proof.
  induction l as [|y l IH]; simpl.
  - exists [], []. auto.
  - destruct (Z.leb_spec (key y - key x) 0).
    + exists [], (y :: l). auto.
    + destruct IH as (before & after & -> & -> & Hlt).
      exists (y :: before), after.
      split; [reflexivity|]. split; [reflexivity|].
      constructor; [lia | exact Hlt].
Qed.

Lemma sort_insert_by_key_sorted (x : A) (l : list A) :
  Sorted not_below l -> Sorted not_below (sort_insert by_key x l).
Proof.
  induction l as [|y l IH]; simpl; intros Hs; [repeat constructor|].
  destruct (Z.leb_spec (key y - key x) 0).
  - constructor; [exact Hs | constructor; lia].
  - inversion Hs as [|? ? Hl Hhd]; subst.
    constructor; [apply IH; exact Hl|].
    destruct l as [|z l]; simpl; [constructor; lia|].
    inversion Hhd; subst.
    destruct (key z - key x <=? 0)%Z; constructor; (assumption || lia).
Qed.

Lemma sort_by_key_sorted (l : list A) :
  StronglySorted not_below (Array_sort by_key l).
Proof.
  apply Sorted_StronglySorted; [intros a b c Hab Hbc; lia|].
  induction l as [|x l IH]; simpl; [constructor|].
  apply sort_insert_by_key_sorted, IH.
Qed.

(** The sort is stable: the elements of one key keep their order. *)
Lemma sort_by_key_stable (v : Z) (l : list A) :
  filter (fun c => (key c =? v)%Z) (Array_sort by_key l)
  = filter (fun c => (key c =? v)%Z) l.
Proof.
  induction l as [|x l IH]; simpl; [reflexivity|].
  destruct (sort_insert_split x (Array_sort by_key l))
    as (before & after & Hl & -> & Hlt).
  rewrite <- IH, Hl, !filter_app. simpl.
  destruct (Z.eqb_spec (key x) v) as [Hx|]; [|reflexivity].
  replace (filter (fun c => (key c =? v)%Z) before) with (@nil A);
    [reflexivity|].
  symmetry. clear -Hlt Hx. induction Hlt as [|y before Hy _ IHb];
    simpl; [reflexivity|].
  destruct (Z.eqb_spec (key y) v); [lia | exact IHb].
Qed.

End SortByKey.

Lemma join_nonempty (sep : js_string) (parts : list js_string) :
  parts <> [] -> Forall (fun p => p <> []) parts -> join sep parts <> [].
Proof.
  destruct parts as [|p rest]; [contradiction|]. intros _ Hall.
  inversion Hall as [|? ? Hp _]; subst.
  destruct p as [|c p]; [contradiction|].
  destruct rest; simpl; discriminate.
Qed.

Lemma allPrompts_not_blank (prompts : list (option js_string)) :
  Forall (fun p => trim p <> []) (allPrompts prompts).
Proof.
  induction prompts as [|[p|] prompts IH]; simpl; [constructor | | exact IH].
  destruct (trim p) eqn:Ht; simpl; [exact IH|].
  constructor; [rewrite Ht; discriminate | exact IH].
Qed.

(** X20. Copy all writes nothing exactly when no row has a prompt that
    is a string with something else than white space in it; what it writes
    is never the empty text, and a row whose prompt is absent or blank
    contributes nothing to it. *)
Theorem copyAll_nothing_or_text (prompts : list (option js_string)) :
  (copyAll prompts = None <->
   Forall
     (fun p => match p with Some s => trim s = [] | None => True end)
     prompts)
  /\ (forall copied, copyAll prompts = Some copied -> copied <> [])
  /\ (forall blank before after,
         match blank with Some s => trim s = [] | None => True end ->
         copyAll (before ++ blank :: after) = copyAll (before ++ after)).
Proof.
  split; [|split].
  - unfold copyAll. cbv zeta.
    induction prompts as [|[p|] prompts IH]; simpl.
    + split; [constructor | reflexivity].
    + destruct (trim p) eqn:Ht; simpl.
      * rewrite IH. split; [constructor; assumption|].
        intros H; inversion H; assumption.
      * split; [discriminate|]. intros H; inversion H; congruence.
    + rewrite IH. split; [constructor; [exact I | assumption]|].
      intros H; inversion H; assumption.
  - unfold copyAll. cbv zeta. intros copied.
    pose proof (allPrompts_not_blank prompts) as Hall.
    destruct (allPrompts prompts) as [|p rest] eqn:Hp; cbn [Nat.eqb length];
      [discriminate|].
    assert (Hjoin :
      join [10; 10; 45; 45; 45; 10; 10]%N (p :: rest) <> []).
    { apply join_nonempty; [discriminate|].
      eapply Forall_impl; [|exact Hall]. simpl.
      intros q Hq ->. apply Hq. reflexivity. }
    intros [= <-]. exact Hjoin.
  - intros blank before after Hblank. unfold copyAll. cbv zeta.
    replace (allPrompts (before ++ blank :: after))
      with (allPrompts (before ++ after)); [reflexivity|].
    induction before as [|[q|] before IH]; simpl.
    + destruct blank as [s|]; [rewrite Hblank|]; reflexivity.
    + destruct (Nat.ltb 0 (length (trim q))); [f_equal|]; exact IH.
    + exact IH.
Qed.

Section AppFacts.

Variable JSON_parse : js_string -> option json.
Variable Number_toString : js_string -> js_string.
Variable decompress : stream_format -> list byte -> option (list byte).
Variable TextDecoder_decode : list byte -> js_string.
Variable toLowerCase : js_string -> js_string.
Variable RangeError_message : string.
Variable TypeError_message : string.

Local Abbreviation read := (extractPngTextChunks decompress TextDecoder_decode).
Local Abbreviation select :=
  (extractPositivePromptFromTextBlobs JSON_parse Number_toString).
Local Abbreviation handle :=
  (handleFile JSON_parse Number_toString decompress TextDecoder_decode
     toLowerCase RangeError_message TypeError_message).
Local Abbreviation rank := (fun c => score toLowerCase (keyword c)).

Lemma StronglySorted_pair (A : Type) (R : A -> A -> Prop)
      (pre mid post : list A) (a b : A) :
  StronglySorted R (pre ++ a :: mid ++ b :: post) -> R a b.
Proof.
  induction pre as [|x pre IH]; simpl; intros Hs.
  - apply StronglySorted_inv in Hs as [_ Hall].
    rewrite Forall_forall in Hall. apply Hall.
    apply in_or_app; right; left; reflexivity.
  - apply StronglySorted_inv in Hs as [Hs _]. exact (IH Hs).
Qed.

(** X21. The blobs are handed to the selector by rank of the keyword of
    their chunk, lower-cased: rank 3 when it holds workflow, else 2 when
    it holds prompt, else 1 when it holds parameters, else 0, greater
    ranks first.  So a chunk that holds workflow never stands behind one
    that does not, and a chunk that holds none of the three words never
    stands in front of one that holds any.  The chunks are only
    rearranged, and chunks of one rank keep the order they have in the
    file. *)
Theorem blobs_by_score (chunks : list PngTextChunk) :
  let sorted := Array_sort (by_score toLowerCase) chunks in
  let holds (word : js_string) (c : PngTextChunk) :=
    includes (toLowerCase (keyword c)) word in
  Permutation chunks sorted
  /\ (forall c,
         rank c
         = if holds (lit "workflow") c then 3
           else if holds (lit "prompt") c then 2
           else if holds (lit "parameters") c then 1 else 0)%Z
  /\ StronglySorted (fun a b => (rank b <= rank a)%Z) sorted
  /\ (forall pre a mid b post,
         sorted = pre ++ a :: mid ++ b :: post ->
         (holds (lit "workflow") b = true -> holds (lit "workflow") a = true)
         /\ (holds (lit "prompt") b = true ->
             holds (lit "workflow") a = true \/ holds (lit "prompt") a = true)
         /\ (holds (lit "parameters") b = true ->
             holds (lit "workflow") a = true \/ holds (lit "prompt") a = true
             \/ holds (lit "parameters") a = true))
  /\ (forall v,
         filter (fun c => (rank c =? v)%Z) sorted
         = filter (fun c => (rank c =? v)%Z) chunks).
Proof.
  cbv zeta. split; [apply Array_sort_perm|].
  split; [reflexivity|].
  pose proof (sort_by_key_sorted PngTextChunk rank chunks) as Hsorted.
  split; [exact Hsorted|].
  split; [|intros v; apply (sort_by_key_stable PngTextChunk rank)].
  intros pre a mid b post Heq.
  change (Array_sort (fun a b => (rank b - rank a)%Z) chunks)
    with (Array_sort (by_score toLowerCase) chunks) in Hsorted.
  rewrite Heq in Hsorted. apply StronglySorted_pair in Hsorted.
  revert Hsorted. unfold score. cbv zeta.
  destruct (includes (toLowerCase (keyword a)) (lit "workflow"));
    destruct (includes (toLowerCase (keyword a)) (lit "prompt"));
    destruct (includes (toLowerCase (keyword a)) (lit "parameters"));
    destruct (includes (toLowerCase (keyword b)) (lit "workflow"));
    destruct (includes (toLowerCase (keyword b)) (lit "prompt"));
    destruct (includes (toLowerCase (keyword b)) (lit "parameters"));
    intros Hle; repeat split; intros H; auto; try discriminate H; lia.
Qed.



End AppFacts.

(** ** Every prompt shown is normalized *)

Lemma normalizePrompt_no_pair (s : js_string) :
  adjacent 92 110 (normalizePrompt s) = false.
Proof.
  unfold normalizePrompt.
  match goal with
  | |- adjacent _ _ (trim ?t) = false =>
      destruct (trim_infix t) as (l & r & Hinfix);
      apply (adjacent_infix 92 110 l (trim t) r); rewrite <- Hinfix
  end.
  apply replace_crlf_keeps, replace_escaped_none.
Qed.

Section PipelineFacts.

Variable JSON_parse : js_string -> option json.
Variable Number_toString : js_string -> js_string.
Variable decompress : stream_format -> list byte -> option (list byte).
Variable TextDecoder_decode : list byte -> js_string.
Variable toLowerCase : js_string -> js_string.
Variable RangeError_message : string.
Variable TypeError_message : string.

Local Abbreviation select :=
  (extractPositivePromptFromTextBlobs JSON_parse Number_toString).
Local Abbreviation handle :=
  (handleFile JSON_parse Number_toString decompress TextDecoder_decode
     toLowerCase RangeError_message TypeError_message).
Local Abbreviation normalized :=
  (fun p : js_string => exists t, p = normalizePrompt t).

Lemma extractFromRawWorkflow_normalized (s p : js_string) :
  extractFromRawWorkflow JSON_parse Number_toString s = Return (Some p) ->
  normalized p.
Proof.
  unfold extractFromRawWorkflow. cbv zeta.
  destruct (negb (is_object_typed (safeJsonParse JSON_parse s)));
    [discriminate|].
  destruct (for_of _ _ _) as [candidates|e]; cbn [bind]; [|discriminate].
  destruct (pickBestString JSON_parse candidates) as [best|];
    [|discriminate].
  destruct (Boolean best); [|discriminate].
  intros [= <-]. exists best. reflexivity.
Qed.

Lemma scan_keys_normalized (meta : json) (keys : list js_string)
      (r : option js_string) :
  scan_keys JSON_parse meta keys = Some r ->
  exists p, r = Some p /\ normalized p.
Proof.
  induction keys as [|key keys IH]; simpl; [discriminate|].
  destruct (as_string (get meta key)) as [v|]; [|exact IH].
  destruct (Nat.ltb 0 (length (trim v))
            && negb (isPromptWrapperJson JSON_parse v)); [|exact IH].
  intros [= <-]. exists (normalizePrompt v). split; [reflexivity|].
  exists v. reflexivity.
Qed.

Lemma extractFromMetadataObject_normalized (meta : json) (p : js_string) :
  extractFromMetadataObject JSON_parse Number_toString meta
  = Return (Some p) ->
  normalized p.
Proof.
  unfold extractFromMetadataObject.
  match goal with
  | |- bind ?first (fun step1 => Return (then_ step1 ?rest)) = _ -> _ =>
      assert (Hrest : rest = Some p -> normalized p)
  end.
  { destruct (as_string (get meta (lit "prompt"))) as [pr|];
      [destruct (Nat.ltb 0 (length (trim pr)));
       [destruct (Nat.ltb 50 (length (trim pr))
                  && negb (isPromptWrapperJson JSON_parse pr))|]|];
      cbn [then_]; try (intros [= <-]; exists pr; reflexivity);
      (destruct (scan_keys JSON_parse meta fallback_keys) as [r|] eqn:Hs;
       cbn [then_]; [|discriminate];
       intros ->; destruct (scan_keys_normalized _ _ _ Hs) as (q & [= ->] & Hn);
       exact Hn). }
  destruct (as_string (get meta (lit "raw_workflow"))) as [rw|];
    cbn [bind then_]; [|intros [= H]; exact (Hrest H)].
  destruct (extractFromRawWorkflow JSON_parse Number_toString rw)
    as [[q|]|e] eqn:Hq; cbn [bind truthy]; [destruct (Boolean q)| |];
    cbn [then_]; try discriminate; try (intros [= H]; exact (Hrest H)).
  intros [= <-]. exact (extractFromRawWorkflow_normalized _ _ Hq).
Qed.

Lemma select_normalized (blobs : list js_string) (r : ExtractionResult)
      (p : js_string) :
  select blobs = Return r -> prompt r = Some p -> normalized p.
Proof.
  intros Hsel.
  destruct (select_cases _ _ blobs r Hsel)
    as [(q & HA & ->) | [(q & _ & HB & ->) | (_ & _ & ->)]];
    cbn [prompt].
  - intros [= ->]. apply first_yield_In in HA as (blob & _ & HA).
    revert HA. unfold phaseA_yield.
    destruct (JSON_parse blob) as [[| | | | |]|]; try discriminate;
      (destruct (extractFromMetadataObject JSON_parse Number_toString _)
         as [o|e] eqn:Ho; cbn [bind]; [|discriminate];
       intros [= H]; apply nonempty_prompt_some in H as [-> _];
       exact (extractFromMetadataObject_normalized _ _ Ho)).
  - intros [= ->]. apply first_yield_In in HB as (blob & _ & HB).
    revert HB. unfold phaseB_yield.
    destruct (JSON_parse blob) as [[| | | | |]|]; try discriminate;
      (destruct (existsb regex_all_digits _); [|discriminate];
       destruct (extractFromRawWorkflow JSON_parse Number_toString blob)
         as [o|e] eqn:Ho; cbn [bind]; [|discriminate];
       intros [= H]; apply nonempty_prompt_some in H as [-> _];
       exact (extractFromRawWorkflow_normalized _ _ Ho)).
  - unfold phaseC. cbv zeta.
    match goal with
    | |- context [pickBestString JSON_parse ?l] =>
        destruct (pickBestString JSON_parse l) as [best|]
    end; [destruct (Boolean best)|]; cbn [prompt]; try discriminate.
    intros [= <-]. exists best. reflexivity.
Qed.

(** X23. Whatever phase it comes from, a prompt of a result the selector
    returns has gone through normalizePrompt last: it is trimmed, and it
    nowhere holds a backslash immediately followed by the letter n.  So
    has the prompt stored in the row of a file. *)
Theorem returned_prompt_normalized (p : js_string) :
  (exists blobs r, select blobs = Return r /\ prompt r = Some p)
  \/ (exists bytes, handle bytes = SetPrompt (Some p)) ->
  (exists t, p = normalizePrompt t)
  /\ trim p = p
  /\ forall pre post : js_string, p <> pre ++ [92; 110]%N ++ post.
Proof.
  intros Hfrom.
  assert (Hn : normalized p).
  { destruct Hfrom as [(blobs & r & Hsel & Hp) | (bytes & Hrow)].
    - exact (select_normalized blobs r p Hsel Hp).
    - revert Hrow. unfold handleFile, try_file.
      destruct (extractPngTextChunks decompress TextDecoder_decode bytes)
        as [found|e]; cbn [bind]; [|discriminate].
      cbv zeta.
      destruct (select _) as [r|e] eqn:Hsel; cbn [bind]; [|discriminate].
      intros [= Hp]. exact (select_normalized _ r p Hsel Hp). }
  split; [exact Hn|]. destruct Hn as (t & ->).
  split; [apply trim_idempotent|].
  intros pre post Heq.
  pose proof (normalizePrompt_no_pair t) as Hnone. rewrite Heq in Hnone.
  assert (Hsome : adjacent 92 110 (pre ++ [92; 110]%N ++ post) = true)
    by (apply adjacent_spec; exists pre, post; reflexivity).
  congruence.
Qed.

End PipelineFacts.

(** ** More runs on concrete inputs *)

Lemma parse_tEXt_round_trip_witness :
  no_NUL [x41; x62]
  /\ parse_tEXt ([x41; x62] ++ x00 :: [x63; x00; x64])
     = Some (mkChunk tEXt (lit "Ab") [99; 0; 100]%N).
Proof.
  assert (Hkw : no_NUL [x41; x62]) by (intros [H|[H|[]]]; discriminate H).
  split; [exact Hkw|].
  rewrite (parse_tEXt_round_trip [x41; x62] [x63; x00; x64] Hkw).
  reflexivity.
Defined.

Lemma parse_iTXt_plain_witness :
  parse_iTXt HostStreams.decompress HostStreams.TextDecoder_decode
    (iTXt_data [x6b] x02 x05 [x65; x6e] [] [x68; x6f])
  = Some (mkChunk iTXt (lit "k") (lit "ho")).
Proof.
  rewrite (parse_iTXt_plain
             HostStreams.decompress HostStreams.TextDecoder_decode
             [x6b] x02 x05 [x65; x6e] [] [x68; x6f]).
  - reflexivity.
  - intros [H|[]]; discriminate H.
  - intros [H|[H|[]]]; discriminate H.
  - intros [].
  - discriminate.
Defined.

Lemma unknown_compression_method_witness :
  parse_zTXt HostStreams.decompress HostStreams.TextDecoder_decode
    ([x6b] ++ x00 :: x01 :: [x78; x01; x01; x02; x00; xfd; xff; x68; x69;
                             x01; x3b; x00; xd2]) = None
  /\ parse_zTXt HostStreams.decompress HostStreams.TextDecoder_decode
       (zTXt_data [x6b]
          [x78; x01; x01; x02; x00; xfd; xff; x68; x69; x01; x3b; x00; xd2])
     = Some (mkChunk zTXt (lit "k") (lit "hi")).
Proof.
  split; [|reflexivity].
  apply (unknown_compression_method
           HostStreams.decompress HostStreams.TextDecoder_decode
           [x6b]
           [x78; x01; x01; x02; x00; xfd; xff; x68; x69; x01; x3b; x00; xd2]
           x01).
  - intros [H|[]]; discriminate H.
  - discriminate.
Defined.

Lemma readU32BE_round_trip_witness :
  readU32BE ([xff] ++ [x12; x34; x56; x78] ++ [xff]) 1 = Return 305419896%Z
  /\ u32be 305419896 = [x12; x34; x56; x78].
Proof.
  split; [|reflexivity].
  apply (readU32BE_round_trip [xff] [xff] 305419896). lia.
Defined.

Lemma trailer_not_checked_witness :
  let read :=
    extractPngTextChunks HostStreams.decompress HostStreams.TextDecoder_decode in
  let data := [x41; x62; x00; x63; x64] in
  read (PNG_SIGNATURE
        ++ encode_chunks [mkRaw code_tEXt data [x01; x02; x03; x04]])
  = read (PNG_SIGNATURE
          ++ encode_chunks [mkRaw code_tEXt data [xff; xff; xff; xff]]).
Proof.
  intros read data.
  apply (trailer_not_checked
           HostStreams.decompress HostStreams.TextDecoder_decode
           [mkRaw code_tEXt data [x01; x02; x03; x04]]
           [mkRaw code_tEXt data [xff; xff; xff; xff]]).
  - constructor; [split; reflexivity | constructor].
  - repeat constructor.
  - repeat constructor.
Defined.

Lemma after_IEND_ignored_witness :
  let read :=
    extractPngTextChunks HostStreams.decompress HostStreams.TextDecoder_decode in
  let cs :=
    [ mkRaw code_tEXt [x41; x62; x00; x63; x64] [x01; x02; x03; x04];
      mkRaw code_IEND [] [xae; x42; x60; x82] ] in
  read (PNG_SIGNATURE ++ encode_chunks cs ++ [xff; xff; xff])
  = Return [mkChunk tEXt (lit "Ab") (lit "cd")].
Proof.
  intros read cs.
  destruct (after_IEND_ignored
              HostStreams.decompress HostStreams.TextDecoder_decode
              cs [xff; xff; xff])
    as [_ Hret].
  - repeat constructor.
  - reflexivity.
  - unfold read. rewrite Hret. reflexivity.
Defined.

Lemma chunk_count_bound_witness :
  let bytes :=
    PNG_SIGNATURE
    ++ encode_chunks [mkRaw code_tEXt [x41; x00; x42] [x00; x00; x00; x00]] in
  extractPngTextChunks HostStreams.decompress HostStreams.TextDecoder_decode
    bytes
  = Return [mkChunk tEXt (lit "A") (lit "B")]
  /\ (12 * Z.of_nat (length [mkChunk tEXt (lit "A") (lit "B")])
      <= Z.of_nat (length bytes) - 8)%Z.
Proof.
  intros bytes. split; [reflexivity|].
  apply (chunk_count_bound
           HostStreams.decompress HostStreams.TextDecoder_decode bytes).
  reflexivity.
Defined.

Lemma keywords_are_latin1_witness :
  let bytes :=
    PNG_SIGNATURE
    ++ encode_chunks [mkRaw code_tEXt [xe9; x00; xff] [x00; x00; x00; x00]] in
  extractPngTextChunks HostStreams.decompress HostStreams.TextDecoder_decode
    bytes
  = Return [mkChunk tEXt [233%N] [255%N]]
  /\ Forall
    (fun c =>
       Forall (fun u => (u < 256)%N) (keyword c)
       /\ (type c = tEXt -> Forall (fun u => (u < 256)%N) (text c)))
    [mkChunk tEXt [233%N] [255%N]].
Proof.
  intros bytes. split; [reflexivity|].
  apply (keywords_are_latin1
           HostStreams.decompress HostStreams.TextDecoder_decode bytes).
  reflexivity.
Defined.

Lemma normalizePrompt_plain_witness :
  normalizePrompt (lit "  a cat, 4k ") = lit "a cat, 4k".
Proof.
  rewrite (normalizePrompt_plain (lit "  a cat, 4k ")).
  - reflexivity.
  - simpl. intuition discriminate.
  - simpl. intuition discriminate.
Defined.

Lemma selector_sources_witness :
  let blobs := [lit "a short note"; 32%N :: repeat 97%N 201] in
  extractPositivePromptFromTextBlobs
    JsonText.JSON_parse JsonText.Number_toString blobs
  = Return (mkResult (Some (repeat 97%N 201)) (Some (lit "fallback-long-text")))
  /\ In (Some (lit "fallback-long-text"))
       [None; Some (lit "metadata-json"); Some (lit "raw_workflow-json");
        Some (lit "fallback-long-text")].
Proof.
  intros blobs. split; [reflexivity|].
  apply (selector_sources
           JsonText.JSON_parse JsonText.Number_toString blobs
           (mkResult (Some (repeat 97%N 201))
              (Some (lit "fallback-long-text")))).
  reflexivity.
Defined.

Lemma metadata_phase_first_witness :
  let graph :=
    jlit "{'3':{'_meta':{'title':'Positive'},'inputs':{'text':'dog running, 4k, sharp'}}}" in
  let thrower :=
    jlit "{'raw_workflow':'{\'3\':{\'class_type\':{\'toString\':1}}}'}" in
  extractPositivePromptFromTextBlobs
    JsonText.JSON_parse JsonText.Number_toString
    ([graph] ++ jlit "{'positive':'a cat'}" :: [thrower])
  = Return (mkResult (Some (lit "a cat")) (Some (lit "metadata-json")))
  /\ extractPositivePromptFromTextBlobs
       JsonText.JSON_parse JsonText.Number_toString
       [thrower; jlit "{'positive':'a cat'}"]
     = Throw TypeError_.
Proof.
  intros graph thrower. split; [|reflexivity].
  apply (metadata_phase_first
           JsonText.JSON_parse JsonText.Number_toString
           [graph] [thrower] (jlit "{'positive':'a cat'}") (lit "a cat")).
  - repeat constructor.
  - reflexivity.
Defined.

Lemma fallback_from_long_blob_witness :
  let blobs := [lit "a short note"; 32%N :: repeat 97%N 201] in
  let r :=
    mkResult (Some (repeat 97%N 201)) (Some (lit "fallback-long-text")) in
  extractPositivePromptFromTextBlobs
    JsonText.JSON_parse JsonText.Number_toString blobs
  = Return r
  /\ exists blob,
       In blob blobs
       /\ 200 < length (trim blob)
       /\ isPromptWrapperJson JsonText.JSON_parse blob = false
       /\ prompt r = Some (normalizePrompt (trim blob))
       /\ Forall
            (fun b =>
               200 < length (trim b) ->
               isPromptWrapperJson JsonText.JSON_parse b = false ->
               length (trim b) <= length (trim blob))
            blobs.
Proof.
  intros blobs r. split; [reflexivity|].
  apply (fallback_from_long_blob
           JsonText.JSON_parse JsonText.Number_toString blobs r);
    reflexivity.
Defined.

Lemma extractFromRawWorkflow_array_witness :
  let s :=
    jlit "[{'inputs':{'positive':'a cat'}},7,{'class_type':{'kind':1},'inputs':{'positive':'a bigger cat'}}]" in
  exists elements,
    JsonText.JSON_parse s = Some (JArr elements)
    /\ length elements = 3
    /\ Forall (fun e => node_converts e = true) elements
    /\ extractFromRawWorkflow JsonText.JSON_parse JsonText.Number_toString s
       = Return (Some (lit "a bigger cat")).
Proof.
  intros s. eexists. split; [reflexivity|]. split; [reflexivity|].
  match goal with
  | |- Forall ?P ?l /\ _ =>
      assert (Hconv : Forall P l) by (repeat constructor)
  end.
  split; [exact Hconv|].
  etransitivity.
  - apply (extractFromRawWorkflow_array
             JsonText.JSON_parse JsonText.Number_toString);
      [reflexivity | exact Hconv].
  - reflexivity.
Defined.

Lemma extractFromRawWorkflow_throws_iff_witness :
  let s :=
    jlit "{'3':{'inputs':{'positive':'a cat'}},'4':{'_meta':{'title':[{'toString':0}]}}}" in
  extractFromRawWorkflow JsonText.JSON_parse JsonText.Number_toString s
  = Throw TypeError_.
Proof.
  intros s.
  apply (extractFromRawWorkflow_throws_iff
           JsonText.JSON_parse JsonText.Number_toString s
           [ (lit "3",
              JObj [(lit "inputs", JObj [(lit "positive", JStr (lit "a cat"))])]);
             (lit "4",
              JObj [(lit "_meta",
                     JObj [(lit "title",
                            JArr [JObj [(lit "toString", JNum (lit "0"))]])])]) ]).
  - reflexivity.
  - constructor; [|constructor; [|constructor]]; simpl.
    + intros [H|[]]. discriminate H.
    + intros [].
  - apply Exists_cons_tl, Exists_cons_hd. reflexivity.
Defined.

(** A file with two text chunks: the one whose keyword holds workflow is
    handed over first, but the metadata phase wins wherever its blob
    stands.  A chunk with a node whose class_type cannot be read as text
    leaves the message of the TypeError in the row. *)
Example scenario_file :
  let bytes_of (s : js_string) := map (fun u => byte_of_Z (Z.of_N u)) s in
  let crc := [x00; x00; x00; x00] in
  let comment :=
    mkRaw code_tEXt
      (bytes_of (lit "Comment") ++ x00
         :: bytes_of (jlit "{'positive':'a cat\nasleep'}")) crc in
  let workflow (graph : js_string) :=
    mkRaw code_tEXt (bytes_of (lit "Workflow") ++ x00 :: bytes_of graph) crc in
  let iend := mkRaw code_IEND [] [xae; x42; x60; x82] in
  let cs :=
    [ comment;
      workflow
        (jlit "{'3':{'_meta':{'title':'Positive'},'inputs':{'text':'dog running'}}}");
      iend ] in
  let handle :=
    handleFile JsonText.JSON_parse JsonText.Number_toString
      HostStreams.decompress HostStreams.TextDecoder_decode
      HostText.toLowerCase "Offset is outside the bounds of the DataView"
      "Cannot convert object to primitive value" in
  handle (PNG_SIGNATURE ++ encode_chunks cs)
  = SetPrompt (Some (lit "a cat" ++ [10%N] ++ lit "asleep"))
  /\ handle (encode_chunks cs)
     = SetError "File non sembra un PNG valido."
  /\ handle
       (PNG_SIGNATURE
        ++ encode_chunks
             [workflow
                (jlit "{'3':{'class_type':{'toString':1},'inputs':{'positive':'a cat'}}}");
              iend])
     = SetError "Cannot convert object to primitive value"
  /\ copyAll [Some (lit "a cat"); None; Some (lit "  "); Some (lit "a dog")]
     = Some (lit "a cat" ++ [10; 10; 45; 45; 45; 10; 10]%N ++ lit "a dog").
Proof. cbv zeta. repeat split; vm_compute; reflexivity. Qed.

Lemma returned_prompt_normalized_witness :
  let p := lit "a cat" ++ [10%N] ++ lit "asleep" in
  extractPositivePromptFromTextBlobs
    JsonText.JSON_parse JsonText.Number_toString
    [jlit "{'positive':' a cat\\nasleep '}"]
  = Return (mkResult (Some p) (Some (lit "metadata-json")))
  /\ trim p = p.
Proof.
  intros p. split; [reflexivity|].
  apply (returned_prompt_normalized
           JsonText.JSON_parse JsonText.Number_toString
           HostStreams.decompress HostStreams.TextDecoder_decode
           HostText.toLowerCase "Offset is outside the bounds of the DataView"
           "Cannot convert object to primitive value"
           p).
  left. exists [jlit "{'positive':' a cat\\nasleep '}"].
  eexists. split; reflexivity.
Defined.

Lemma array_blob_selected_witness :
  extractPositivePromptFromTextBlobs
    JsonText.JSON_parse JsonText.Number_toString
    [jlit "[{'inputs':{'positive':'a cat'}},7,{'inputs':{'positive':' a bigger cat '}}]"]
  = Return
      (mkResult (Some (lit "a bigger cat")) (Some (lit "raw_workflow-json"))).
Proof.
  destruct (array_blob_selected
              JsonText.JSON_parse JsonText.Number_toString
              (jlit "[{'inputs':{'positive':'a cat'}},7,{'inputs':{'positive':' a bigger cat '}}]")
              (lit "a bigger cat")
              [ JObj [(lit "inputs", JObj [(lit "positive", JStr (lit "a cat"))])];
                JNum (lit "7");
                JObj [(lit "inputs",
                       JObj [(lit "positive", JStr (lit " a bigger cat "))])] ])
    as [_ Hsel].
  - reflexivity.
  - repeat constructor.
  - reflexivity.
  - discriminate.
  - rewrite Hsel. reflexivity.
Defined.
